(** * deltaconv/crawler.py: the windowed trade fetcher of the Binance crawler

    A shallow embedding of [src/deltaconv/crawler.py].  The program works on
    naive [datetime.datetime] values, so the first part of the file embeds
    the pieces of Python's [datetime] module the crawler calls (the
    constructor checks, [replace], [+ timedelta], [-], [<] and
    [strptime] for the one format string the crawler uses), following
    CPython's reference implementation [Lib/_pydatetime.py] and
    [Lib/_strptime.py].  The second part embeds [BinanceConnection] and the
    [fetch_*] entry points over a history of the calls made to the remote
    site. *)

From Stdlib Require Import ZArith List String Ascii DecimalString Bool Lia.
Import ListNotations.
Local Open Scope string_scope.
Local Open Scope list_scope.
Local Open Scope Z_scope.

(** ** Exceptions and results *)

(** The exception classes that can reach the crawler. *)
Inductive exn : Type :=
| ValueError (msg : string)
| OverflowError (msg : string)
| KeyError (key : string)
| TypeError (msg : string)
| RequestException (detail : string)
| JSONDecodeError (detail : string)
| OSError (msg : string).

(** [isinstance(e, ValueError)], the test of an [except ValueError] clause:
    [json.JSONDecodeError] is a subclass of [ValueError]. *)
Definition is_ValueError (e : exn) : bool :=
  match e with
  | ValueError _ | JSONDecodeError _ => true
  | _ => false
  end.

(** The outcome of evaluating a Python expression: a value, a raised
    exception, or [Timeout] when the fuel that bounds the [while] loop of
    the model is used up ([trades_terminates] shows that this does not
    happen). *)
Inductive result (A : Type) : Type :=
| Ok (a : A)
| Raise (e : exn)
| Timeout.

Arguments Ok {A} a.
Arguments Raise {A} e.
Arguments Timeout {A}.

Definition rbind {A B : Type} (r : result A) (k : A -> result B) : result B :=
  match r with
  | Ok a => k a
  | Raise e => Raise e
  | Timeout => Timeout
  end.

(** ** The proleptic Gregorian calendar of [_pydatetime.py] *)

Module Calendar.

Definition MINYEAR : Z := 1.
Definition MAXYEAR : Z := 9999.
(** [date(9999, 12, 31).toordinal()] *)
Definition _MAXORDINAL : Z := 3652059.

(** [_DAYS_IN_MONTH = [-1, 31, 28, 31, 30, 31, 30, 31, 31, 30, 31, 30, 31]] *)
Definition _DAYS_IN_MONTH : list Z :=
  [-1; 31; 28; 31; 30; 31; 30; 31; 31; 30; 31; 30; 31].

(** [_DAYS_BEFORE_MONTH]: the running sum of the table above. *)
Definition _DAYS_BEFORE_MONTH : list Z :=
  [-1; 0; 31; 59; 90; 120; 151; 181; 212; 243; 273; 304; 334].

(** List subscript for the in-range indices the module uses. *)
Definition item (l : list Z) (i : Z) : Z := nth (Z.to_nat i) l 0.

Definition _is_leap (year : Z) : bool :=
  (year mod 4 =? 0) && (negb (year mod 100 =? 0) || (year mod 400 =? 0)).

Definition _days_before_year (year : Z) : Z :=
  let y := year - 1 in
  y * 365 + y / 4 - y / 100 + y / 400.

Definition _days_in_month (year month : Z) : Z :=
  if (month =? 2) && _is_leap year then 29 else item _DAYS_IN_MONTH month.

Definition _days_before_month (year month : Z) : Z :=
  item _DAYS_BEFORE_MONTH month
  + (if (2 <? month) && _is_leap year then 1 else 0).

Definition _ymd2ord (year month day : Z) : Z :=
  _days_before_year year + _days_before_month year month + day.

Definition _DI400Y : Z := 146097.
Definition _DI100Y : Z := 36524.
Definition _DI4Y : Z := 1461.

Definition _ord2ymd (n : Z) : Z * Z * Z :=
  let n := n - 1 in
  let n400 := n / _DI400Y in
  let n := n mod _DI400Y in
  let year := n400 * 400 + 1 in
  let n100 := n / _DI100Y in
  let n := n mod _DI100Y in
  let n4 := n / _DI4Y in
  let n := n mod _DI4Y in
  let n1 := n / 365 in
  let n := n mod 365 in
  let year := year + (n100 * 100 + n4 * 4 + n1) in
  if (n1 =? 4) || (n100 =? 4) then (year - 1, 12, 31)
  else
    let leapyear := (n1 =? 3) && (negb (n4 =? 24) || (n100 =? 3)) in
    let month := Z.shiftr (n + 50) 5 in
    let preceding :=
      item _DAYS_BEFORE_MONTH month
      + (if (2 <? month) && leapyear then 1 else 0) in
    let '(month, preceding) :=
      if n <? preceding then
        (month - 1,
         preceding
         - (item _DAYS_IN_MONTH (month - 1)
            + (if (month - 1 =? 2) && leapyear then 1 else 0)))
      else (month, preceding) in
    (year, month, n - preceding + 1).

(** The number of days of a year. *)
Definition days_in_year (y : Z) : Z := if _is_leap y then 366 else 365.

(** The last steps of [_ord2ymd]: month and day of the [n]-th day
    (counted from 0) of a year. *)
Definition month_day (n : Z) (leapyear : bool) : Z * Z :=
  let month := Z.shiftr (n + 50) 5 in
  let preceding :=
    item _DAYS_BEFORE_MONTH month
    + (if (2 <? month) && leapyear then 1 else 0) in
  let '(month, preceding) :=
    if n <? preceding then
      (month - 1,
       preceding
       - (item _DAYS_IN_MONTH (month - 1)
          + (if (month - 1 =? 2) && leapyear then 1 else 0)))
    else (month, preceding) in
  (month, n - preceding + 1).

(** The check of [month_day] on one day of the year. *)
Definition month_day_ok (leapyear : bool) (k : nat) : bool :=
  let n := Z.of_nat k in
  let '(m, d) := month_day n leapyear in
  (1 <=? m) && (m <=? 12) && (1 <=? d)
  && (d <=? (if (m =? 2) && leapyear then 29 else item _DAYS_IN_MONTH m))
  && (item _DAYS_BEFORE_MONTH m + (if (2 <? m) && leapyear then 1 else 0) + d
      =? n + 1).

(** [_check_date_fields]: the test the [date] constructor applies. *)
Definition valid_date (year month day : Z) : bool :=
  (MINYEAR <=? year) && (year <=? MAXYEAR)
  && (1 <=? month) && (month <=? 12)
  && (1 <=? day) && (day <=? _days_in_month year month).

(** [_check_time_fields] *)
Definition valid_time (hour minute second microsecond : Z) : bool :=
  (0 <=? hour) && (hour <=? 23)
  && (0 <=? minute) && (minute <=? 59)
  && (0 <=? second) && (second <=? 59)
  && (0 <=? microsecond) && (microsecond <=? 999999).

End Calendar.
Import Calendar.

(** ** [datetime.timedelta] and naive [datetime.datetime] *)

(** A normalised duration: [0 <= seconds < 86400] and
    [0 <= microseconds < 1000000]. *)
Record timedelta_t : Type := mk_timedelta
  { td_days : Z; td_seconds : Z; td_microseconds : Z }.

(** [timedelta(days, seconds, microseconds, minutes=, hours=)] on integer
    arguments: carries are propagated upwards with [divmod].  (The
    constructor's bound [abs(days) <= 999999999] is out of reach of every
    duration built below, all of which lie within the span of the calendar,
    and is left out.) *)
Definition timedelta (days seconds microseconds minutes hours : Z)
  : timedelta_t :=
  let seconds := seconds + minutes * 60 + hours * 3600 in
  let seconds := seconds + microseconds / 1000000 in
  let microseconds := microseconds mod 1000000 in
  let days := days + seconds / 86400 in
  let seconds := seconds mod 86400 in
  mk_timedelta days seconds microseconds.

(** [timedelta.__add__] *)
Definition timedelta_add (a b : timedelta_t) : timedelta_t :=
  timedelta (td_days a + td_days b) (td_seconds a + td_seconds b)
    (td_microseconds a + td_microseconds b) 0 0.

(** Python's ordering of tuples of integers. *)
Fixpoint _cmp (x y : list Z) : comparison :=
  match x, y with
  | [], [] => Eq
  | [], _ :: _ => Lt
  | _ :: _, [] => Gt
  | a :: x', b :: y' =>
    match a ?= b with
    | Eq => _cmp x' y'
    | c => c
    end
  end.

(** [timedelta.__le__] and [timedelta.__lt__]: comparison of the state
    triples. *)
Definition timedelta_state (a : timedelta_t) : list Z :=
  [td_days a; td_seconds a; td_microseconds a].

Definition timedelta_le (a b : timedelta_t) : bool :=
  match _cmp (timedelta_state a) (timedelta_state b) with
  | Gt => false
  | _ => true
  end.

Definition timedelta_lt (a b : timedelta_t) : bool :=
  match _cmp (timedelta_state a) (timedelta_state b) with
  | Lt => true
  | _ => false
  end.

(** The length of a duration in microseconds ([td // timedelta(microseconds=1)]). *)
Definition timedelta_us (a : timedelta_t) : Z :=
  (td_days a * 86400 + td_seconds a) * 1000000 + td_microseconds a.

Record datetime : Type := mk_datetime
  { year : Z; month : Z; day : Z;
    hour : Z; minute : Z; second : Z; microsecond : Z }.

(** The fields are those the constructor accepts. *)
Definition valid_datetime (d : datetime) : bool :=
  valid_date (year d) (month d) (day d)
  && valid_time (hour d) (minute d) (second d) (microsecond d).

(** [datetime(year, month, day, hour, minute, second, microsecond)] *)
Definition datetime_new (year month day hour minute second microsecond : Z)
  : result datetime :=
  if negb (valid_date year month day) then
    Raise (ValueError "date field out of range")
  else if negb (valid_time hour minute second microsecond) then
    Raise (ValueError "time field out of range")
  else Ok (mk_datetime year month day hour minute second microsecond).

(** [d.replace(hour=, minute=, second=, microsecond=)]: a new object built
    by the checking constructor. *)
Definition replace (d : datetime) (hour minute second microsecond : Z)
  : result datetime :=
  datetime_new (year d) (month d) (day d) hour minute second microsecond.

Definition toordinal (d : datetime) : Z :=
  _ymd2ord (year d) (month d) (day d).

(** The exception of date arithmetic that leaves the calendar. *)
Definition date_overflow : exn := OverflowError "date value out of range".

(** [datetime.__add__(self, other)] for a [timedelta]. *)
Definition datetime_add (d : datetime) (other : timedelta_t)
  : result datetime :=
  let delta :=
    timedelta (toordinal d) (second d) (microsecond d) (minute d) (hour d) in
  let delta := timedelta_add delta other in
  let hour := td_seconds delta / 3600 in
  let rem := td_seconds delta mod 3600 in
  let minute := rem / 60 in
  let second := rem mod 60 in
  if (0 <? td_days delta) && (td_days delta <=? _MAXORDINAL) then
    let '(y, m, dd) := _ord2ymd (td_days delta) in
    Ok (mk_datetime y m dd hour minute second (td_microseconds delta))
  else Raise date_overflow.

(** [datetime.__sub__(self, other)] for two naive datetimes. *)
Definition datetime_sub (a b : datetime) : timedelta_t :=
  let secs1 := second a + minute a * 60 + hour a * 3600 in
  let secs2 := second b + minute b * 60 + hour b * 3600 in
  timedelta (toordinal a - toordinal b) (secs1 - secs2)
    (microsecond a - microsecond b) 0 0.

Definition datetime_state (d : datetime) : list Z :=
  [year d; month d; day d; hour d; minute d; second d; microsecond d].

(** [datetime.__lt__] on naive datetimes. *)
Definition datetime_lt (a b : datetime) : bool :=
  match _cmp (datetime_state a) (datetime_state b) with
  | Lt => true
  | _ => false
  end.

Definition datetime_le (a b : datetime) : bool :=
  match _cmp (datetime_state a) (datetime_state b) with
  | Gt => false
  | _ => true
  end.

(** The position of a datetime on the time line, in microseconds since
    the (excluded) ordinal 0. *)
Definition datetime_us (d : datetime) : Z :=
  ((toordinal d * 24 + hour d) * 3600 + minute d * 60 + second d) * 1000000
  + microsecond d.

(** The time of day in microseconds. *)
Definition time_us (d : datetime) : Z :=
  (hour d * 3600 + minute d * 60 + second d) * 1000000 + microsecond d.

Definition us_per_day : Z := 86400 * 1000000.

(** The invariant of [timedelta] objects. *)
Definition normalised (a : timedelta_t) : Prop :=
  0 <= td_seconds a < 86400 /\ 0 <= td_microseconds a < 1000000.

(** The span of 28 days in microseconds. *)
Definition us_28_days : Z := 28 * 86400 * 1000000.

(** [timedelta(days=28)], the step of the crawler. *)
Definition days_28 : timedelta_t := timedelta 28 0 0 0 0.

(** The beginning of the calendar day of [d]. *)
Definition midnight (d : datetime) : datetime :=
  mk_datetime (year d) (month d) (day d) 0 0 0 0.

(** The same time of day [k] days later. *)
Definition plus_days (d : datetime) (k : Z) : datetime :=
  let '(y, m, dd) := _ord2ymd (toordinal d + k) in
  mk_datetime y m dd (hour d) (minute d) (second d) (microsecond d).

(** ** [datetime.strptime(data_string, '%Y-%m-%d %H:%M:%S')]

    [_strptime.py] turns the format into the regular expression
    [(\d\d\d\d)-(1[0-2]|0[1-9]|[1-9])-(3[0-1]|[1-2]\d|0[1-9]|[1-9]| [1-9])\s+(2[0-3]|[0-1]\d|\d):([0-5]\d|\d):(6[0-1]|[0-5]\d|\d)],
    matches it at the start of the string, rejects a match that does not
    reach the end of the string, and hands the numbers to the [datetime]
    constructor.  Strings are sequences of 8-bit characters here. *)

Module Strptime.

(** A backtracking matcher: the ways a pattern matches a prefix of the
    input, in the order the engine tries them, each with the value read
    and the rest of the input. *)
Definition re (A : Type) : Type := string -> list (A * string).

Definition re_ret {A : Type} (a : A) : re A := fun s => [(a, s)].

Definition re_bind {A B : Type} (p : re A) (k : A -> re B) : re B :=
  fun s => flat_map (fun ar => k (fst ar) (snd ar)) (p s).

Definition re_alt {A : Type} (p q : re A) : re A := fun s => (p s ++ q s)%list.

Definition re_class (f : ascii -> bool) : re ascii :=
  fun s =>
    match s with
    | String c r => if f c then [(c, r)] else []
    | EmptyString => []
    end.

Definition between (lo hi c : ascii) : bool :=
  ((N_of_ascii lo <=? N_of_ascii c) && (N_of_ascii c <=? N_of_ascii hi))%N.

Definition is_char (a c : ascii) : bool := Ascii.eqb a c.

(** [\s] of a pattern on [str], which is [str.isspace] of the character:
    among the code points below 256 these are 9 to 13, 28 to 32, 133
    (next line) and 160 (no-break space). *)
Definition isspace (c : ascii) : bool :=
  let n := N_of_ascii c in
  ((9 <=? n) && (n <=? 13) || (28 <=? n) && (n <=? 32)
   || (n =? 133) || (n =? 160))%N.

(** [int(c)] for a decimal digit. *)
Definition digit (c : ascii) : Z := Z.of_N (N_of_ascii c) - 48.

Local Notation "x <- p ;; q" := (re_bind p (fun x => q))
  (at level 61, p at next level, right associativity).

Definition re_lit (a : ascii) : re unit :=
  _ <- re_class (is_char a) ;; re_ret tt.

(** One digit of class [f]. *)
Definition one_digit (f : ascii -> bool) : re Z :=
  c <- re_class f ;; re_ret (digit c).

(** Two digits, of classes [f] and [g]. *)
Definition two_digits (f g : ascii -> bool) : re Z :=
  a <- re_class f ;; b <- re_class g ;; re_ret (10 * digit a + digit b).

Definition any_digit : ascii -> bool := between "0" "9".

(** [\s*], greedy: the longest run of blanks first. *)
Fixpoint re_spaces_star (s : string) : list (unit * string) :=
  match s with
  | String c r =>
    if isspace c then (re_spaces_star r ++ [(tt, s)])%list else [(tt, s)]
  | EmptyString => [(tt, s)]
  end.

Definition re_spaces_plus : re unit :=
  _ <- re_class isspace ;; re_spaces_star.

Definition re_Y : re Z :=
  a <- re_class any_digit ;; b <- re_class any_digit ;;
  c <- re_class any_digit ;; d <- re_class any_digit ;;
  re_ret (1000 * digit a + 100 * digit b + 10 * digit c + digit d).

Definition re_m : re Z :=
  re_alt (two_digits (is_char "1") (between "0" "2"))
    (re_alt (two_digits (is_char "0") (between "1" "9")) (one_digit (between "1" "9"))).

Definition re_d : re Z :=
  re_alt (two_digits (is_char "3") (between "0" "1"))
    (re_alt (two_digits (between "1" "2") any_digit)
       (re_alt (two_digits (is_char "0") (between "1" "9"))
          (re_alt (one_digit (between "1" "9"))
             (_ <- re_lit " " ;; one_digit (between "1" "9"))))).

Definition re_H : re Z :=
  re_alt (two_digits (is_char "2") (between "0" "3"))
    (re_alt (two_digits (between "0" "1") any_digit) (one_digit any_digit)).

Definition re_M : re Z :=
  re_alt (two_digits (between "0" "5") any_digit) (one_digit any_digit).

Definition re_S : re Z :=
  re_alt (two_digits (is_char "6") (between "0" "1"))
    (re_alt (two_digits (between "0" "5") any_digit) (one_digit any_digit)).

Definition format_regex : re (list Z) :=
  y <- re_Y ;; _ <- re_lit "-" ;; m <- re_m ;; _ <- re_lit "-" ;;
  d <- re_d ;; _ <- re_spaces_plus ;;
  hh <- re_H ;; _ <- re_lit ":" ;; mm <- re_M ;; _ <- re_lit ":" ;;
  ss <- re_S ;; re_ret [y; m; d; hh; mm; ss].

Definition strptime (data_string : string) : result datetime :=
  match format_regex data_string with
  | ([y; m; d; hh; mm; ss], EmptyString) :: _ => datetime_new y m d hh mm ss 0
  | (_, _) :: _ => Raise (ValueError "unconverted data remains")
  | [] => Raise (ValueError "time data does not match format")
  end.

End Strptime.
Import Strptime.

(** ** The world of the crawler: a history of remote calls *)

(** A Python value stored in a dictionary of request parameters. *)
Inductive pyval : Type :=
| PInt (z : Z)
| PStr (s : string).

(** A dictionary literal, in the order the source writes its keys. *)
Definition dict : Type := list (string * pyval).

(** One transaction, deposit or withdrawal as returned by the site: a
    mapping from field names to values that the crawler never inspects. *)
Definition record : Type := list (string * string).

(** The object [json.loads(r.text)] of a response, read through the two
    subscripts the crawler applies; a missing key is [None].  The site is
    taken to answer as its interface fixes it: a JSON object whose [pages],
    when present, is an integer and whose [data], when present, is a list
    of records.  A text that is JSON of another shape (a [data] that is
    [null], a reply that is no object) has no counterpart here. *)
Record reply : Type := mk_reply
  { pages : option Z; data : option (list record) }.

(** What a call of [requests.post] was given. *)
Record request : Type := mk_request
  { url : string;
    headers : list (string * string);
    post_data : dict;
    cookies : list (string * string) }.

Inductive event : Type :=
| Post (req : request) (out : result string)
| GetTrades (start end_ : datetime) (out : result (Z * list record))
| GetExchanges (type_ : Z) (out : result (Z * list record)).

(** The calls made so far, oldest first. *)
Definition history : Type := list event.

(** A computation reads the history, extends it, and returns a value or
    raises. *)
Definition M (A : Type) : Type := history -> result A * history.

Definition ret {A : Type} (a : A) : M A := fun h => (Ok a, h).

Definition raise {A : Type} (e : exn) : M A := fun h => (Raise e, h).

Definition lift {A : Type} (r : result A) : M A := fun h => (r, h).

Definition bind {A B : Type} (m : M A) (k : A -> M B) : M B :=
  fun h =>
    match m h with
    | (Ok a, h') => k a h'
    | (Raise e, h') => (Raise e, h')
    | (Timeout, h') => (Timeout, h')
    end.

Notation "x <- m ;; k" := (bind m (fun x => k))
  (at level 61, m at next level, right associativity).

(** Runs [m] and appends the event that describes the call and its
    outcome. *)
Definition logged {A : Type} (ev : result A -> event) (m : M A) : M A :=
  fun h => let '(out, h') := m h in (out, (h' ++ [ev out])%list).

(** [d[key]] for a key that may be missing. *)
Definition getitem {A : Type} (key : string) (v : option A) : result A :=
  match v with
  | Some a => Ok a
  | None => Raise (KeyError key)
  end.

Record BinanceConnection : Type := mk_connection
  { _headers : list (string * string);
    _cookies : list (string * string) }.

(** The keyword arguments [_get_trades] understands. *)
Record kwargs : Type := mk_kwargs
  { symbol : option string; type_ : option string }.

Definition no_kwargs : kwargs := mk_kwargs None None.

(** [BinanceConnection.Exchange] *)
Module Exchange.

Inductive t : Type := DEPOSIT | WITHDRAWAL.

Definition value (e : t) : Z :=
  match e with
  | DEPOSIT => 0
  | WITHDRAWAL => 1
  end.

End Exchange.

(** The value of [--end]: the string given on the command line, or the
    default [datetime.datetime.now()]. *)
Inductive end_arg : Type :=
| EndStr (s : string)
| EndDatetime (d : datetime).

(** The run modes, [Mode]. *)
Module Mode.

Inductive t : Type := TRADING | DEPOSIT | WITHDRAWAL.

Definition value (m : t) : string :=
  match m with
  | TRADING => "trading"
  | DEPOSIT => "deposit"
  | WITHDRAWAL => "withdrawal"
  end.

End Mode.

(** The [argparse.Namespace] of the command line; [--start] is optional. *)
Record Namespace : Type := mk_namespace
  { arg_token : string;
    arg_output : string;
    arg_mode : Mode.t;
    arg_start : option string;
    arg_end : end_arg }.

Definition _MAX_TRADE_QUERY_COUNT : Z := 1000.

(** [str] of an integer. *)
Definition str (z : Z) : string := NilZero.string_of_int (Z.to_int z).

Definition start_format_message : string :=
  "The given start time format is wrong. Format YYYY-MM-DD HH:MM:SS is required.".

Definition end_format_message : string :=
  "The given end time format is wrong. Format YYYY-MM-DD HH:MM:SS is required.".

Definition or_empty (s : option string) : string :=
  match s with
  | None => ""
  | Some v => v
  end.

(** The trade calls of a stretch of history: the window of each call. *)
Fixpoint windows_of (h : history) : list (datetime * datetime) :=
  match h with
  | [] => []
  | GetTrades s e _ :: h' => (s, e) :: windows_of h'
  | _ :: h' => windows_of h'
  end.

(** The trade calls of a stretch of history with their outcomes. *)
Fixpoint fetches_of (h : history) : list (result (Z * list record)) :=
  match h with
  | [] => []
  | GetTrades _ _ out :: h' => out :: fetches_of h'
  | _ :: h' => fetches_of h'
  end.

(** The requests sent in a stretch of history. *)
Fixpoint requests_of (h : history) : list request :=
  match h with
  | [] => []
  | Post req _ :: h' => req :: requests_of h'
  | _ :: h' => requests_of h'
  end.

(** The records of a successful fetch; nothing for a failed one. *)
Definition data_of (out : result (Z * list record)) : list record :=
  match out with
  | Ok (_, d) => d
  | _ => []
  end.

Definition is_ok {A : Type} (out : result A) : bool :=
  match out with
  | Ok _ => true
  | _ => false
  end.

(** The events a computation adds to the history [h]. *)
Definition events {A : Type} (m : M A) (h : history) : history :=
  skipn (List.length h) (snd (m h)).

(** ** The control skeleton of [trades]

    The windows [trades] asks for depend on the two dates only, not on what
    the site answers.  [loop_plan] is the [while] loop with the fetches
    taken out: the windows of the loop, the last [start_interval], and how
    the loop ends. *)

Inductive loop_end : Type :=
| Finish
| Aborted (e : exn)
| Exhausted.

Fixpoint loop_plan (fuel : nat) (end_ start_interval end_interval : datetime)
  : list (datetime * datetime) * datetime * loop_end :=
  match fuel with
  | O => ([], start_interval, Exhausted)
  | S fuel' =>
    if datetime_lt end_interval end_ then
      match datetime_add end_interval days_28 with
      | Ok e' =>
        let '(ws, s', x) := loop_plan fuel' end_ end_interval e' in
        ((start_interval, end_interval) :: ws, s', x)
      | Raise ex => ([(start_interval, end_interval)], end_interval, Aborted ex)
      | Timeout => ([(start_interval, end_interval)], end_interval, Exhausted)
      end
    else ([], start_interval, Finish)
  end.

(** [n] windows of 28 days from [s] on. *)
Fixpoint full_windows (n : nat) (s : datetime) : list (datetime * datetime) :=
  match n with
  | O => []
  | S n' => (s, plus_days s 28) :: full_windows n' (plus_days s 28)
  end.

(** The boundaries of a sequence of windows: the first start, then every
    end. *)
Definition boundaries (ws : list (datetime * datetime)) : list datetime :=
  match ws with
  | [] => []
  | (s, _) :: _ => s :: map snd ws
  end.

(** Each element lies strictly before the next one. *)
Fixpoint increasing (l : list datetime) : bool :=
  match l with
  | a :: ((b :: _) as l') => datetime_lt a b && increasing l'
  | _ => true
  end.

(** Windows as the loop produces them before the date [end_]: each one
    but the last is 28 days long, ends before [end_], and ends where the
    next one starts. *)
Inductive chained (end_ : datetime) : list (datetime * datetime) -> Prop :=
| chained_nil : chained end_ []
| chained_one w : chained end_ [w]
| chained_cons s e w ws :
    datetime_sub e s = days_28 ->
    datetime_lt s e = true ->
    datetime_lt e end_ = true ->
    fst w = e ->
    chained end_ (w :: ws) ->
    chained end_ ((s, e) :: w :: ws).

(** The shapes the windows of [trades start end_] can take: none when the
    first window end is past the calendar; [n] full windows and the final
    one; or [n] full windows when the next window end is past the
    calendar. *)
Inductive plan_shape (start end_ : datetime)
  : list (datetime * datetime) * loop_end -> Prop :=
| shape_no_window :
    _MAXORDINAL < toordinal start + 28 ->
    plan_shape start end_ ([], Aborted date_overflow)
| shape_finish (n : nat) :
    toordinal start + 28 * (Z.of_nat n + 1) <= _MAXORDINAL ->
    ((1 <= n)%nat ->
     datetime_us (midnight start) + Z.of_nat n * us_28_days
     < datetime_us end_) ->
    datetime_us end_
    <= datetime_us (midnight start) + (Z.of_nat n + 1) * us_28_days ->
    plan_shape start end_
      (full_windows n (midnight start)
       ++ [(plus_days (midnight start) (28 * Z.of_nat n), end_)], Finish)
| shape_overflow (n : nat) :
    (1 <= n)%nat ->
    toordinal start + 28 * Z.of_nat n <= _MAXORDINAL ->
    _MAXORDINAL < toordinal start + 28 * (Z.of_nat n + 1) ->
    datetime_us (midnight start) + Z.of_nat n * us_28_days
    < datetime_us end_ ->
    plan_shape start end_
      (full_windows n (midnight start), Aborted date_overflow).

(** The result of a call whose fetches gave [out] and whose plan ends
    with [x]. *)
Definition final_result (x : loop_end) (out : result (list record))
  : result (list record) :=
  match out with
  | Ok acc =>
    match x with
    | Finish => Ok acc
    | Aborted ex => Raise ex
    | Exhausted => Timeout
    end
  | other => other
  end.

(** ** [BinanceConnection] and the [fetch_*] entry points *)

Section Crawler.

(** The remote site and the transport: the body [r.text] of the response
    to a request, or the detail of the exception [requests.post] raises.
    The answer may depend on everything that happened before. *)
Variable requests_post : history -> request -> string + string.

(** [json.loads]; [None] when the text is not JSON. *)
Variable json_loads : string -> option reply.

(** [int(d.timestamp())] for a naive datetime, which depends on the time
    zone of the machine, or the exception the call raises: [OverflowError]
    or [OSError] where the platform cannot represent the time,
    [ValueError] where the conversion leaves the years 1 to 9999. *)
Variable timestamp : datetime -> exn + Z.

Definition post (req : request) : M string :=
  logged (Post req)
    (fun h =>
       match requests_post h req with
       | inr text => (Ok text, h)
       | inl detail => (Raise (RequestException detail), h)
       end).

Definition loads (text : string) : result reply :=
  match json_loads text with
  | Some r => Ok r
  | None => Raise (JSONDecodeError text)
  end.

Definition int_timestamp (d : datetime) : result Z :=
  match timestamp d with
  | inr t => Ok t
  | inl e => Raise e
  end.

Definition _get_trades (self : BinanceConnection) (start end_ : datetime)
  (kw : kwargs) : M (Z * list record) :=
  logged (GetTrades start end_)
    (ts <- lift (int_timestamp start) ;;
     te <- lift (int_timestamp end_) ;;
     let post_data :=
       [("start", PInt (ts * 1000));
        ("end", PInt (te * 1000));
        ("rows", PStr (str _MAX_TRADE_QUERY_COUNT));
        ("direction", PStr (or_empty (type_ kw)));
        ("baseAsset", PStr "");
        ("quoteAsset", PStr "");
        ("symbol", PStr (or_empty (symbol kw)))] in
     text <- post (mk_request
                     "https://www.binance.com/exchange/private/userTrades"
                     (_headers self) post_data (_cookies self)) ;;
     result <- lift (loads text) ;;
     p <- lift (getitem "pages" (pages result)) ;;
     d <- lift (getitem "data" (data result)) ;;
     ret (p, d)).

Definition _get_exchanges (self : BinanceConnection) (symbol : option string)
  (type_ : Z) : M (Z * list record) :=
  logged (GetExchanges type_)
    (let post_data :=
       [("coin", PStr (or_empty symbol));
        ("direction", PInt type_);
        ("rows", PInt 0);
        ("page", PInt 1);
        ("status", PStr "")] in
     text <- post (mk_request
                     "https://www.binance.com/user/getMoneyLog.html"
                     (_headers self) post_data (_cookies self)) ;;
     result <- lift (loads text) ;;
     p <- lift (getitem "pages" (pages result)) ;;
     d <- lift (getitem "data" (data result)) ;;
     ret (p, d)).

(** The [while] loop of [trades], bounded by [fuel] iterations.  It returns
    the last [start_interval] and the accumulated [trades]. *)
Fixpoint trades_loop (fuel : nat) (self : BinanceConnection) (kw : kwargs)
  (end_ start_interval end_interval : datetime) (trades : list record)
  : M (datetime * list record) :=
  match fuel with
  | O => lift Timeout
  | S fuel' =>
    if datetime_lt end_interval end_ then
      r <- _get_trades self start_interval end_interval kw ;;
      let trades := (trades ++ snd r)%list in
      let start_interval := end_interval in
      end_interval <- lift (datetime_add start_interval days_28) ;;
      trades_loop fuel' self kw end_ start_interval end_interval trades
    else ret (start_interval, trades)
  end.

(** A number of iterations the loop cannot exceed: one more than the
    28-day steps between the two days. *)
Definition loop_fuel (start_interval end_ : datetime) : nat :=
  S (Z.to_nat ((toordinal end_ - toordinal start_interval) / 28)).

Definition trades (self : BinanceConnection) (start end_ : datetime)
  (kw : kwargs) : M (list record) :=
  start_interval <- lift (replace start 0 0 0 0) ;;
  end_interval <- lift (datetime_add start_interval days_28) ;;
  st <- trades_loop (loop_fuel start_interval end_) self kw end_
          start_interval end_interval [] ;;
  r <- _get_trades self (fst st) end_ kw ;;
  ret (snd st ++ snd r)%list.

(** The fetches of a list of windows, one after the other, adding to
    [trades]. *)
Fixpoint fetch_each (self : BinanceConnection) (kw : kwargs)
  (ws : list (datetime * datetime)) (trades : list record)
  : M (list record) :=
  match ws with
  | [] => ret trades
  | (s, e) :: ws' =>
    r <- _get_trades self s e kw ;;
    fetch_each self kw ws' (trades ++ snd r)%list
  end.

Definition finish_with {A : Type} (x : loop_end) (a : A) : M A :=
  match x with
  | Finish => ret a
  | Aborted ex => raise ex
  | Exhausted => lift Timeout
  end.

(** What a run of [fetch_each] on [ws] leaves behind: the events [evs] it
    added and its outcome [out]. *)
Definition fetch_outcome (ws : list (datetime * datetime))
  (trades : list record) (out : result (list record)) (evs : history)
  : Prop :=
  (exists rest, ws = (windows_of evs ++ rest)%list) /\
  match out with
  | Ok res =>
    windows_of evs = ws /\
    forallb is_ok (fetches_of evs) = true /\
    res = (trades ++ List.concat (map data_of (fetches_of evs)))%list
  | Raise ex =>
    exists pre ev,
      evs = (pre ++ [ev])%list /\
      fetches_of [ev] = [Raise ex] /\
      forallb is_ok (fetches_of pre) = true
  | Timeout => False
  end.

(** The windows of [trades] and how the call ends, from the two dates
    alone. *)
Definition trades_plan (start end_ : datetime)
  : list (datetime * datetime) * loop_end :=
  match replace start 0 0 0 0 with
  | Ok s0 =>
    match datetime_add s0 days_28 with
    | Ok e0 =>
      let '(ws, s', x) := loop_plan (loop_fuel s0 end_) end_ s0 e0 in
      match x with
      | Finish => ((ws ++ [(s', end_)])%list, Finish)
      | _ => (ws, x)
      end
    | Raise ex => ([], Aborted ex)
    | Timeout => ([], Exhausted)
    end
  | Raise ex => ([], Aborted ex)
  | Timeout => ([], Exhausted)
  end.

Definition deposits (self : BinanceConnection) (symbol : option string)
  : M (list record) :=
  r <- _get_exchanges self symbol (Exchange.value Exchange.DEPOSIT) ;;
  ret (snd r).

Definition withdrawals (self : BinanceConnection) (symbol : option string)
  : M (list record) :=
  r <- _get_exchanges self symbol (Exchange.value Exchange.WITHDRAWAL) ;;
  ret (snd r).

(** [try: strptime(...) except ValueError: raise ValueError(message)] *)
Definition strptime_or (message : string) (s : option string)
  : result datetime :=
  match s with
  | None => Raise (TypeError "strptime() argument 1 must be str, not None")
  | Some text =>
    match strptime text with
    | Raise e => if is_ValueError e then Raise (ValueError message) else Raise e
    | r => r
    end
  end.

Definition fetch_trades (connection : BinanceConnection)
  (arguments : Namespace) : M (list record) :=
  start_date <- lift (strptime_or start_format_message
                        (arg_start arguments)) ;;
  end_date <- lift (match arg_end arguments with
                    | EndStr s => strptime_or end_format_message (Some s)
                    | EndDatetime d => Ok d
                    end) ;;
  trades connection start_date end_date no_kwargs.

Definition fetch_deposits (connection : BinanceConnection)
  (arguments : Namespace) : M (list record) :=
  deposits connection None.

Definition fetch_withdrawals (connection : BinanceConnection)
  (arguments : Namespace) : M (list record) :=
  withdrawals connection None.

(** The dispatch of [main]: [MODES[arguments.mode](conn, arguments)]. *)
Definition MODES (mode : Mode.t)
  : BinanceConnection -> Namespace -> M (list record) :=
  match mode with
  | Mode.TRADING => fetch_trades
  | Mode.DEPOSIT => fetch_deposits
  | Mode.WITHDRAWAL => fetch_withdrawals
  end.

End Crawler.

(** A site for examples: every request is answered, every page holds the
    one record [example_record]. *)
Definition example_record : record := [("id", "1")].

Definition answering_post : history -> request -> string + string :=
  fun _ _ => inr "{}".

Definition answering_loads : string -> option reply :=
  fun _ => Some (mk_reply (Some 1) (Some [example_record])).

(** A site that fails on its second request. *)
Definition failing_post : history -> request -> string + string :=
  fun h _ =>
    match requests_of h with
    | [_] => inl "connection reset"
    | _ => inr "{}"
    end.

(** [n / d] rounded to the nearest integer, a tie to the even one. *)
Definition round_half_even (n d : Z) : Z :=
  let q := n / d in
  let r := n mod d in
  if (d <? 2 * r) || ((2 * r =? d) && Z.odd q) then q + 1 else q.

(** The double [n / d] for [0 <= n < d]: a mantissa of 53 bits and its
    binary exponent. *)
Definition double_div (n d : Z) : Z * Z :=
  if n =? 0 then (0, 0)
  else
    let e := Z.log2 n - Z.log2 d - 52 in
    let e := if n * 2 ^ (- e) / d <? 2 ^ 52 then e - 1 else e in
    (round_half_even (n * 2 ^ (- e)) d, e).

(** [int(float(s) + x)] for the double [x = m * 2 ^ e] with [e <= 0]: the
    sum rounded to a double, then cut towards zero. *)
Definition int_of_sum (s m e : Z) : Z :=
  let n := s * 2 ^ (- e) + m in
  let a := Z.abs n in
  let sh := Z.max 0 (Z.log2 a + 1 - 53) in
  let mant := round_half_even a (2 ^ sh) in
  let k := sh + e in
  let t := if 0 <=? k then mant * 2 ^ k else mant / 2 ^ (- k) in
  if 0 <=? n then t else - t.

(** A clock for examples: [int(d.timestamp())] on a machine whose time
    zone is UTC, after [datetime_timestamp] of CPython.  The seconds since
    1970-01-01 and [microsecond / 1e6] are added as doubles; the search
    for the other side of a fold looks one day back, which leaves the
    calendar on 0001-01-01. *)
Definition utc_timestamp : datetime -> exn + Z :=
  fun d =>
    if toordinal d =? 1 then inl (ValueError "year 0 is out of range")
    else
      let s := (toordinal d - 719163) * 86400
               + hour d * 3600 + minute d * 60 + second d in
      let '(m, e) := double_div (microsecond d) 1000000 in
      inr (int_of_sum s m e).

Definition example_connection : BinanceConnection :=
  mk_connection [("csrftoken", "t")] [("session", "c")].

Definition example_arguments (start end_ : string) : Namespace :=
  mk_namespace "t" "out.csv" Mode.TRADING (Some start) (EndStr end_).

(** [arguments] with another time range. *)
Definition with_range (arguments : Namespace) (start : option string)
  (end_ : end_arg) : Namespace :=
  mk_namespace (arg_token arguments) (arg_output arguments)
    (arg_mode arguments) start end_.

(** ** The rest of the crawler: connection set-up, arguments, output

    [str.split], [str.strip] and [str.join] as CPython has them on strings
    of code points below 256, the dictionary assignment of [__init__], and
    the [csv.DictWriter] calls of [main] for the dialect it uses
    (delimiter [;], the double quote as quote character, minimal quoting,
    line terminator CR LF), after [Lib/csv.py] and [Modules/_csv.c]. *)

Module Str.

(** [str.isspace] of one character: the class of [\s]. *)
Definition isspace (c : ascii) : bool := Strptime.isspace c.

(** [s.split(sep)] for a separator of one character: one more piece than
    there are separators, [['']] for the empty string. *)
Fixpoint split (sep : ascii) (s : string) : list string :=
  match s with
  | EmptyString => [EmptyString]
  | String c r =>
    if Ascii.eqb c sep then EmptyString :: split sep r
    else match split sep r with
         | p :: ps => String c p :: ps
         | [] => [String c EmptyString]
         end
  end.

Fixpoint lstrip (s : string) : string :=
  match s with
  | String c r => if isspace c then lstrip r else s
  | EmptyString => EmptyString
  end.

Fixpoint rstrip (s : string) : string :=
  match s with
  | String c r =>
    match rstrip r with
    | EmptyString => if isspace c then EmptyString else String c EmptyString
    | r' => String c r'
    end
  | EmptyString => EmptyString
  end.

(** [s.strip()] *)
Definition strip (s : string) : string := rstrip (lstrip s).

(** [sep.join(l)] *)
Fixpoint join (sep : string) (l : list string) : string :=
  match l with
  | [] => EmptyString
  | [x] => x
  | x :: l' => (x ++ sep ++ join sep l')%string
  end.

(** [s.count(c)] for one character. *)
Fixpoint count (c : ascii) (s : string) : nat :=
  match s with
  | EmptyString => O
  | String a r => if Ascii.eqb a c then S (count c r) else count c r
  end.

(** Every character of [s] is a blank. *)
Fixpoint blank (s : string) : bool :=
  match s with
  | EmptyString => true
  | String c r => isspace c && blank r
  end.

(** [l] with [t] added to the end of its last element. *)
Fixpoint append_last (l : list string) (t : string) : list string :=
  match l with
  | [] => []
  | [x] => [(x ++ t)%string]
  | x :: l' => x :: append_last l' t
  end.

Definition single_quote : ascii := "039"%char.
Definition double_quote : ascii := "034"%char.
Definition backslash : ascii := "092"%char.

(** [c in s] for one character. *)
Fixpoint contains (c : ascii) (s : string) : bool :=
  match s with
  | EmptyString => false
  | String a r => Ascii.eqb a c || contains c r
  end.

(** A digit of the format [%02x]. *)
Definition hex_digit (n : N) : ascii :=
  ascii_of_N (if (n <? 10)%N then 48 + n else 87 + n).

(** One character as [repr] shows it between the quotes [quote]: the
    quote and the backslash behind a backslash, tab, line feed and
    carriage return by their letters, every other character that is not
    printable (the control characters, the no-break space, the soft
    hyphen) by its code. *)
Definition escape (quote c : ascii) : string :=
  let n := N_of_ascii c in
  if Ascii.eqb c quote || Ascii.eqb c backslash then
    String backslash (String c EmptyString)
  else if (n =? 9)%N then String backslash "t"
  else if (n =? 10)%N then String backslash "n"
  else if (n =? 13)%N then String backslash "r"
  else if ((n <? 32) || (n =? 127) || (128 <=? n) && (n <=? 160)
           || (n =? 173))%N then
    String backslash
      (String "x"
         (String (hex_digit (n / 16))
            (String (hex_digit (n mod 16)) EmptyString)))
  else String c EmptyString.

Fixpoint escaped (quote : ascii) (s : string) : string :=
  match s with
  | EmptyString => EmptyString
  | String c r => (escape quote c ++ escaped quote r)%string
  end.

(** [repr(s)]: between single quotes, or between double quotes when [s]
    holds a single quote and no double quote. *)
Definition repr (s : string) : string :=
  let quote :=
    if contains single_quote s && negb (contains double_quote s)
    then double_quote else single_quote in
  String quote (escaped quote s ++ String quote EmptyString)%string.

End Str.

(** [d.get(key)] on a dictionary kept as a list of items. *)
Definition lookup (d : list (string * string)) (key : string)
  : option string :=
  option_map snd (find (fun kv => String.eqb (fst kv) key) d).

(** [d[key] = value] on a dictionary kept in insertion order. *)
Fixpoint setitem (d : list (string * string)) (key value : string)
  : list (string * string) :=
  match d with
  | [] => [(key, value)]
  | (k, v) :: d' =>
    if String.eqb k key then (k, value) :: d'
    else (k, v) :: setitem d' key value
  end.

(** [name, value = l]: the unpacking of a list into two names. *)
Definition unpack2 (l : list string) : result (string * string) :=
  match l with
  | [a; b] => Ok (a, b)
  | [] | [_] =>
    Raise (ValueError "not enough values to unpack (expected 2, got 1)")
  | _ => Raise (ValueError "too many values to unpack (expected 2)")
  end.

(** The [for cookie in cookie_list] loop of [__init__]. *)
Fixpoint cookie_loop (cookie_list : list string)
  (_cookies : list (string * string)) : result (list (string * string)) :=
  match cookie_list with
  | [] => Ok _cookies
  | cookie :: rest =>
    rbind (unpack2 (Str.split "=" cookie))
      (fun nv => cookie_loop rest (setitem _cookies (fst nv)
                                     (Str.strip (snd nv))))
  end.

(** The header dictionary [__init__] builds around the token. *)
Definition init_headers (csrftoken : string) : list (string * string) :=
  [("origin", "https://www.binance.com");
   ("accept-encoding", "gzip");
   ("accept-language", "en-GB,en;q=0.9,en-US;q=0.8,de;q=0.7");
   ("lang", "en");
   ("pragma", "no-cache");
   ("user-agent",
    "Mozilla/5.0 (Linux; Android 6.0; Nexus 5 Build/MRA58N) AppleWebKit/537.36 (KHTML, like Gecko) Chrome/67.0.3396.99 Mobile Safari/537.36");
   ("accept", "*/*");
   ("cache-control", "no-cache");
   ("authority", "www.binance.com");
   ("dnt", "1");
   ("clienttype", "web");
   ("csrftoken", csrftoken)].

(** [BinanceConnection.__init__(self, csrftoken, cookies)] *)
Definition __init__ (csrftoken cookies : string) : result BinanceConnection :=
  let cookie_list := Str.split ";" cookies in
  rbind (cookie_loop cookie_list [])
    (fun c => Ok (mk_connection (init_headers csrftoken) c)).

(** One cookie as it stands in a cookie string. *)
Definition cookie_text (nv : string * string) : string :=
  (fst nv ++ "=" ++ snd nv)%string.

(** A text that can stand on one side of a cookie: no [;] and no [=]. *)
Definition cookie_safe (s : string) : Prop :=
  Str.count ";" s = O /\ Str.count "=" s = O.

(** The items [__init__] stores for cookies written one after the other
    with a blank after each [;], as a browser shows them: every name but
    the first keeps the blank. *)
Definition spaced (pairs : list (string * string))
  : list (string * string) :=
  match pairs with
  | [] => []
  | p :: ps => p :: map (fun nv => (String " " (fst nv), snd nv)) ps
  end.

(** The items with their values stripped. *)
Definition stripped (pairs : list (string * string))
  : list (string * string) :=
  map (fun nv => (fst nv, Str.strip (snd nv))) pairs.

(** What ends a run of the script besides the exceptions of the fetcher. *)
Inductive error : Type :=
| Exn (e : exn)
| IndexError (msg : string)
| SystemExit (code : Z).



Module Csv.

Definition quotechar : ascii := "034"%char.
Definition CR : ascii := "013"%char.
Definition LF : ascii := "010"%char.
Definition delimiter : ascii := ";"%char.

Definition lineterminator : string := String CR (String LF EmptyString).

(** The characters that make the writer quote a field. *)
Definition special (c : ascii) : bool :=
  Ascii.eqb c delimiter || Ascii.eqb c quotechar
  || Ascii.eqb c CR || Ascii.eqb c LF.

Fixpoint has_special (s : string) : bool :=
  match s with
  | EmptyString => false
  | String c r => special c || has_special r
  end.

(** The field with its quote characters doubled. *)
Fixpoint doubled (s : string) : string :=
  match s with
  | EmptyString => EmptyString
  | String c r =>
    if Ascii.eqb c quotechar then String c (String c (doubled r))
    else String c (doubled r)
  end.

Definition field (s : string) : string :=
  if has_special s
  then String quotechar (doubled s ++ String quotechar EmptyString)
  else s.

(** [writer.writerow(cells)]: the text handed to the file.  A row of one
    empty field is written as a pair of quotes. *)
Definition writerow (cells : list string) : string :=
  match cells with
  | [EmptyString] =>
    String quotechar (String quotechar lineterminator)
  | _ => (Str.join ";" (map field cells) ++ lineterminator)%string
  end.

(** [rowdict.get(key, default)] *)
Definition get (rowdict : record) (key default : string) : string :=
  match find (fun kv => String.eqb (fst kv) key) rowdict with
  | Some kv => snd kv
  | None => default
  end.

(** [rowdict.keys() - fieldnames]: the keys of [rowdict] that are no
    field names.  Python has them in a set; the list has them in the order
    of the record. *)
Definition wrong_fields (fieldnames : list string) (rowdict : record)
  : list string :=
  filter (fun k => negb (existsb (String.eqb k) fieldnames))
    (map fst rowdict).

Section Writer.

(** The order in which a set of strings is iterated.  It follows the
    hashes of the strings, which change from one run of the interpreter to
    the next. *)
Variable set_order : list string -> list string.

(** The exception for keys that are no field names: the message lists
    them as the set gives them. *)
Definition fields_error (wrong : list string) : exn :=
  ValueError ("dict contains fields not in fieldnames: "
              ++ Str.join ", " (map Str.repr (set_order wrong)))%string.

(** [DictWriter._dict_to_list] with [extrasaction='raise'] and
    [restval='']. *)
Definition _dict_to_list (fieldnames : list string) (rowdict : record)
  : result (list string) :=
  match wrong_fields fieldnames rowdict with
  | [] => Ok (map (fun key => get rowdict key "") fieldnames)
  | wrong => Raise (fields_error wrong)
  end.

(** [DictWriter.writerow] on the text written so far. *)
Definition dict_writerow (fieldnames : list string) (rowdict : record)
  (file : string) : result unit * string :=
  match _dict_to_list fieldnames rowdict with
  | Ok cells => (Ok tt, (file ++ writerow cells)%string)
  | Raise e => (Raise e, file)
  | Timeout => (Timeout, file)
  end.

(** [DictWriter.writeheader]: the row of
    [dict(zip(fieldnames, fieldnames))]. *)
Definition writeheader (fieldnames : list string) (file : string)
  : result unit * string :=
  dict_writerow fieldnames (combine fieldnames fieldnames) file.

(** [DictWriter.writerows]: row after row, up to the first one that
    raises. *)
Fixpoint writerows (fieldnames : list string) (rowdicts : list record)
  (file : string) : result unit * string :=
  match rowdicts with
  | [] => (Ok tt, file)
  | rowdict :: rest =>
    match dict_writerow fieldnames rowdict file with
    | (Ok _, file') => writerows fieldnames rest file'
    | failed => failed
    end
  end.

End Writer.

(** The rows of records whose keys are all field names: the cells in the
    order of the field names, empty where a record lacks the key. *)
Fixpoint rows_text (fieldnames : list string) (rowdicts : list record)
  : string :=
  match rowdicts with
  | [] => EmptyString
  | r :: rest =>
    (writerow (map (fun key => get r key "") fieldnames)
     ++ rows_text fieldnames rest)%string
  end.

(** The records before the first one with a key that is no field name. *)
Fixpoint writable (fieldnames : list string) (rowdicts : list record)
  : list record :=
  match rowdicts with
  | [] => []
  | r :: rest =>
    match wrong_fields fieldnames r with
    | [] => r :: writable fieldnames rest
    | _ => []
    end
  end.

(** The keys that are no field names of the first record that has some;
    none when there is no such record. *)
Fixpoint first_wrong (fieldnames : list string) (rowdicts : list record)
  : list string :=
  match rowdicts with
  | [] => []
  | r :: rest =>
    match wrong_fields fieldnames r with
    | [] => first_wrong fieldnames rest
    | wrong => wrong
    end
  end.

End Csv.

(** How a run of [main] ends. *)
Inductive ending : Type :=
| Returned
| Failed (e : error)
| Unfinished.

(** The end of a run and the text written to the output file, [None] when
    the file was not opened. *)
Record main_outcome : Type := mk_outcome
  { ending_of : ending; output_file : option string }.

(** The request [_get_trades] sends for the timestamps [ts] and [te]. *)
Definition trade_request (self : BinanceConnection) (kw : kwargs)
  (ts te : Z) : request :=
  mk_request "https://www.binance.com/exchange/private/userTrades"
    (_headers self)
    [("start", PInt (ts * 1000));
     ("end", PInt (te * 1000));
     ("rows", PStr "1000");
     ("direction", PStr (or_empty (type_ kw)));
     ("baseAsset", PStr "");
     ("quoteAsset", PStr "");
     ("symbol", PStr (or_empty (symbol kw)))]
    (_cookies self).

(** The instant [t] lies in the window [w], its end excluded. *)
Definition inside (t : datetime) (w : datetime * datetime) : bool :=
  datetime_le (fst w) t && datetime_lt t (snd w).

Section Script.

Variable requests_post : history -> request -> string + string.
Variable json_loads : string -> option reply.
Variable timestamp : datetime -> exn + Z.

(** The order in which a set of strings is iterated in this run of the
    interpreter. *)
Variable set_order : list string -> list string.

(** The requests of one call of [_get_trades] for the window [w]: one when
    both timestamps exist, none otherwise. *)
Definition window_requests (self : BinanceConnection) (kw : kwargs)
  (w : datetime * datetime) : list request :=
  match timestamp (fst w), timestamp (snd w) with
  | inr ts, inr te => [trade_request self kw ts te]
  | _, _ => []
  end.

(** The [with open(arguments.output, 'w')] block of [main]. *)
Definition write_output (result : list record) : main_outcome :=
  match result with
  | [] => mk_outcome Returned None
  | first :: _ =>
    let fieldnames := map fst first in
    match Csv.writeheader set_order fieldnames "" with
    | (Ok _, file) =>
      match Csv.writerows set_order fieldnames result file with
      | (Ok _, file') => mk_outcome Returned (Some file')
      | (Raise e, file') => mk_outcome (Failed (Exn e)) (Some file')
      | (Timeout, file') => mk_outcome Unfinished (Some file')
      end
    | (Raise e, file) => mk_outcome (Failed (Exn e)) (Some file)
    | (Timeout, file) => mk_outcome Unfinished (Some file)
    end
  end.

(** [main(arguments)], given the lines [arguments.cookies.readlines()] of
    the cookie file.  Opening the output file is taken to succeed. *)
Definition main (cookie_lines : list string) (arguments : Namespace)
  (h : history) : main_outcome * history :=
  match cookie_lines with
  | [] => (mk_outcome (Failed (IndexError "list index out of range")) None,
           h)
  | cookies :: _ =>
    match __init__ (arg_token arguments) cookies with
    | Ok conn =>
      match MODES requests_post json_loads timestamp (arg_mode arguments)
              conn arguments h with
      | (Ok result, h') => (write_output result, h')
      | (Raise e, h') => (mk_outcome (Failed (Exn e)) None, h')
      | (Timeout, h') => (mk_outcome Unfinished None, h')
      end
    | Raise e => (mk_outcome (Failed (Exn e)) None, h)
    | Timeout => (mk_outcome Unfinished None, h)
    end
  end.

End Script.

(** A start as [--start] may give it, with a no-break space between the
    date and the time. *)
Definition no_break_start : string :=
  ("2018-01-05" ++ String "160" "00:30:00")%string.

(** A set order for examples: the order of insertion. *)
Definition insertion_order : list string -> list string := fun l => l.

(** A site whose second record has a key the first one lacks. *)
Definition uneven_loads : string -> option reply :=
  fun _ =>
    Some (mk_reply (Some 1)
            (Some [[("id", "1")]; [("id", "2"); ("fee", "0.1")];
                   [("id", "3")]])).

(** Example values for the cookie string and the arguments of a deposit
    run. *)

Definition example_cookies : list (string * string) :=
  [("sid", " 7f "); ("lang", "en")].

Definition deposit_arguments : Namespace :=
  mk_namespace "t" "out.csv" Mode.DEPOSIT None (EndStr "").

(** * Properties *)

(** ** The calendar *)

Section CalendarFacts.

Lemma is_leap_spec (y : Z) :
  _is_leap y = true <-> (y mod 4 = 0 /\ (y mod 100 <> 0 \/ y mod 400 = 0)).
Proof.
  unfold _is_leap. rewrite andb_true_iff, orb_true_iff, negb_true_iff.
  rewrite !Z.eqb_eq, Z.eqb_neq. tauto.
Qed.

Lemma is_leap_false (y : Z) :
  _is_leap y = false <->
  ~ (y mod 4 = 0 /\ (y mod 100 <> 0 \/ y mod 400 = 0)).
Proof.
  rewrite <- is_leap_spec. destruct (_is_leap y); intuition congruence.
Qed.

Lemma days_before_year_succ (y : Z) :
  _days_before_year (y + 1) = _days_before_year y + days_in_year y.
Proof.
  unfold _days_before_year, days_in_year.
  destruct (_is_leap y) eqn:L.
  - apply is_leap_spec in L. Z.div_mod_to_equations; lia.
  - apply is_leap_false in L. Z.div_mod_to_equations; lia.
Qed.

Lemma days_before_year_mono (a b : Z) :
  a <= b -> _days_before_year a <= _days_before_year b.
Proof.
  intros H. unfold _days_before_year. Z.div_mod_to_equations; lia.
Qed.

Lemma month_cases (m : Z) :
  1 <= m <= 12 ->
  m = 1 \/ m = 2 \/ m = 3 \/ m = 4 \/ m = 5 \/ m = 6 \/
  m = 7 \/ m = 8 \/ m = 9 \/ m = 10 \/ m = 11 \/ m = 12.
Proof. lia. Qed.

End CalendarFacts.

(** Replaces the subscripts of the month tables by their values. *)
Ltac eval_items :=
  repeat match goal with
         | |- context [item ?l ?i] =>
           let v := eval vm_compute in (item l i) in
           change (item l i) with v
         end.

Ltac month_table y :=
  unfold _days_before_month, _days_in_month, days_in_year;
  eval_items; destruct (_is_leap y); cbn; try reflexivity; try lia.

Ltac each_month m H :=
  let C := fresh "C" in
  pose proof (month_cases m H) as C;
  decompose [or] C; clear C; subst m.

Section CalendarOrdinals.

Lemma valid_date_spec (y m d : Z) :
  valid_date y m d = true <->
  (1 <= y <= 9999 /\ 1 <= m <= 12 /\ 1 <= d <= _days_in_month y m).
Proof.
  unfold valid_date, MINYEAR, MAXYEAR.
  rewrite !andb_true_iff, !Z.leb_le. tauto.
Qed.

Lemma days_before_month_bounds (y m : Z) :
  1 <= m <= 12 ->
  0 <= _days_before_month y m /\
  _days_before_month y m + _days_in_month y m <= days_in_year y.
Proof. intros H. each_month m H; month_table y. Qed.

Lemma days_before_month_mono (y m1 m2 : Z) :
  1 <= m1 -> m1 < m2 -> m2 <= 12 ->
  _days_before_month y m1 + _days_in_month y m1 <= _days_before_month y m2.
Proof.
  intros H1 H2 H3.
  assert (H : 1 <= m1 <= 12) by lia. assert (H' : 1 <= m2 <= 12) by lia.
  each_month m1 H; each_month m2 H'; try lia; month_table y.
Qed.

Lemma ymd2ord_bounds (y m d : Z) :
  valid_date y m d = true -> 1 <= _ymd2ord y m d <= _MAXORDINAL.
Proof.
  rewrite valid_date_spec. intros (Hy & Hm & Hd).
  pose proof (days_before_month_bounds y m Hm) as [B1 B2].
  unfold _ymd2ord. split.
  - pose proof (days_before_year_mono 1 y).
    change (_days_before_year 1) with 0 in *. lia.
  - pose proof (days_before_year_succ y).
    pose proof (days_before_year_mono (y + 1) 10000).
    change (_days_before_year 10000) with _MAXORDINAL in *. lia.
Qed.

(** Dates are ordered as their ordinals are. *)
Lemma ymd2ord_compare (y1 m1 d1 y2 m2 d2 : Z) :
  valid_date y1 m1 d1 = true -> valid_date y2 m2 d2 = true ->
  _cmp [y1; m1; d1] [y2; m2; d2] = (_ymd2ord y1 m1 d1 ?= _ymd2ord y2 m2 d2).
Proof.
  rewrite !valid_date_spec. intros (Hy1 & Hm1 & Hd1) (Hy2 & Hm2 & Hd2).
  pose proof (days_before_month_bounds y1 m1 Hm1) as [A1 A2].
  pose proof (days_before_month_bounds y2 m2 Hm2) as [B1 B2].
  pose proof (days_before_year_succ y1) as S1.
  pose proof (days_before_year_succ y2) as S2.
  unfold _ymd2ord. cbn [_cmp]. symmetry.
  destruct (Z.compare_spec y1 y2) as [E | L | G].
  - subst y2. destruct (Z.compare_spec m1 m2) as [E | L | G].
    + subst m2. destruct (Z.compare_spec d1 d2);
        [apply Z.compare_eq_iff | apply Z.compare_lt_iff
         | apply Z.compare_gt_iff]; lia.
    + pose proof (days_before_month_mono y1 m1 m2).
      apply Z.compare_lt_iff. lia.
    + pose proof (days_before_month_mono y1 m2 m1).
      apply Z.compare_gt_iff. lia.
  - pose proof (days_before_year_mono (y1 + 1) y2).
    apply Z.compare_lt_iff. lia.
  - pose proof (days_before_year_mono (y2 + 1) y1).
    apply Z.compare_gt_iff. lia.
Qed.

Lemma month_day_table (leapyear : bool) :
  forallb (month_day_ok leapyear) (seq 0 (if leapyear then 366 else 365))
  = true.
Proof. destruct leapyear; vm_compute; reflexivity. Qed.

Lemma month_day_spec (n : Z) (leapyear : bool) :
  0 <= n < (if leapyear then 366 else 365) ->
  let '(m, d) := month_day n leapyear in
  1 <= m <= 12 /\
  1 <= d <= (if (m =? 2) && leapyear then 29 else item _DAYS_IN_MONTH m) /\
  item _DAYS_BEFORE_MONTH m + (if (2 <? m) && leapyear then 1 else 0) + d
  = n + 1.
Proof.
  intros H.
  pose proof (month_day_table leapyear) as T.
  rewrite forallb_forall in T.
  specialize (T (Z.to_nat n)).
  assert (I : In (Z.to_nat n) (seq 0 (if leapyear then 366 else 365))).
  { apply in_seq. destruct leapyear; lia. }
  specialize (T I). unfold month_day_ok in T.
  rewrite Z2Nat.id in T by lia.
  destruct (month_day n leapyear) as [m d].
  rewrite !andb_true_iff, !Z.leb_le, Z.eqb_eq in T. lia.
Qed.

Lemma ord2ymd_unfold (n : Z) :
  _ord2ymd n =
  let n0 := n - 1 in
  let n400 := n0 / _DI400Y in
  let r400 := n0 mod _DI400Y in
  let n100 := r400 / _DI100Y in
  let r100 := r400 mod _DI100Y in
  let n4 := r100 / _DI4Y in
  let r4 := r100 mod _DI4Y in
  let n1 := r4 / 365 in
  let r1 := r4 mod 365 in
  let year := n400 * 400 + 1 + (n100 * 100 + n4 * 4 + n1) in
  if (n1 =? 4) || (n100 =? 4) then (year - 1, 12, 31)
  else
    let leapyear := (n1 =? 3) && (negb (n4 =? 24) || (n100 =? 3)) in
    (year, fst (month_day r1 leapyear), snd (month_day r1 leapyear)).
Proof.
  unfold _ord2ymd, month_day. cbv zeta.
  destruct (_ || _); [reflexivity | ].
  destruct (_ <? _); reflexivity.
Qed.

Lemma year_in_range (y n : Z) :
  0 < y -> _days_before_year y < n -> n <= _MAXORDINAL -> 1 <= y <= 9999.
Proof.
  intros P D M. split; [lia | ].
  destruct (Z_le_gt_dec y 9999) as [|G]; [assumption | exfalso].
  pose proof (days_before_year_mono 10000 y) as Mo.
  change (_days_before_year 10000) with _MAXORDINAL in Mo. lia.
Qed.

(** [_ord2ymd] inverts [_ymd2ord] on the ordinals of the calendar. *)
Lemma ord2ymd_spec (n : Z) :
  1 <= n <= _MAXORDINAL ->
  let '(y, m, d) := _ord2ymd n in
  valid_date y m d = true /\ _ymd2ord y m d = n.
Proof.
  intros Hn. rewrite ord2ymd_unfold. cbv zeta.
  unfold _DI400Y, _DI100Y, _DI4Y.
  set (n0 := n - 1).
  set (n400 := n0 / 146097). set (r400 := n0 mod 146097).
  set (n100 := r400 / 36524). set (r100 := r400 mod 36524).
  set (n4 := r100 / 1461). set (r4 := r100 mod 1461).
  set (n1 := r4 / 365). set (r1 := r4 mod 365).
  assert (E400 : n0 = 146097 * n400 + r400 /\ 0 <= r400 < 146097)
    by (subst n400 r400; split;
        [apply Z.div_mod; lia | apply Z.mod_pos_bound; lia]).
  assert (E100 : r400 = 36524 * n100 + r100 /\ 0 <= r100 < 36524)
    by (subst n100 r100; split;
        [apply Z.div_mod; lia | apply Z.mod_pos_bound; lia]).
  assert (E4 : r100 = 1461 * n4 + r4 /\ 0 <= r4 < 1461)
    by (subst n4 r4; split;
        [apply Z.div_mod; lia | apply Z.mod_pos_bound; lia]).
  assert (E1 : r4 = 365 * n1 + r1 /\ 0 <= r1 < 365)
    by (subst n1 r1; split;
        [apply Z.div_mod; lia | apply Z.mod_pos_bound; lia]).
  assert (E0 : n0 = n - 1) by reflexivity.
  clearbody n0 n400 r400 n100 r100 n4 r4 n1 r1.
  set (year := n400 * 400 + 1 + (n100 * 100 + n4 * 4 + n1)).
  assert (Ey : year = n400 * 400 + 1 + (n100 * 100 + n4 * 4 + n1))
    by reflexivity.
  clearbody year.
  destruct ((n1 =? 4) || (n100 =? 4)) eqn:Last.
  - (* the last day of a leap year *)
    apply orb_true_iff in Last. rewrite !Z.eqb_eq in Last.
    assert (L : _is_leap (year - 1) = true).
    { apply is_leap_spec. Z.div_mod_to_equations; lia. }
    assert (D : _days_before_year (year - 1) + 366 = n).
    { unfold _days_before_year. Z.div_mod_to_equations; lia. }
    assert (Y : 1 <= year - 1 <= 9999)
      by (apply year_in_range with (n := n); lia).
    split.
    + apply valid_date_spec. unfold _days_in_month. eval_items. cbn. lia.
    + unfold _ymd2ord, _days_before_month. rewrite L. eval_items. cbn. lia.
  - apply orb_false_iff in Last. rewrite !Z.eqb_neq in Last.
    set (leapyear := (n1 =? 3) && (negb (n4 =? 24) || (n100 =? 3))).
    assert (L : _is_leap year = leapyear).
    { subst leapyear.
      destruct ((n1 =? 3) && (negb (n4 =? 24) || (n100 =? 3))) eqn:B.
      - apply andb_true_iff in B. rewrite orb_true_iff, negb_true_iff in B.
        rewrite !Z.eqb_eq, Z.eqb_neq in B.
        apply is_leap_spec. Z.div_mod_to_equations; lia.
      - apply andb_false_iff in B. rewrite orb_false_iff, negb_false_iff in B.
        rewrite !Z.eqb_eq, Z.eqb_neq in B.
        apply is_leap_false. Z.div_mod_to_equations; lia. }
    assert (D : _days_before_year year = n0 - r1).
    { unfold _days_before_year. Z.div_mod_to_equations; lia. }
    assert (R : 0 <= r1 < (if leapyear then 366 else 365))
      by (destruct leapyear; lia).
    clearbody leapyear.
    pose proof (month_day_spec r1 leapyear R) as MD.
    destruct (month_day r1 leapyear) as [m d]. cbn [fst snd].
    destruct MD as (Hm & Hd & Hs).
    assert (Y : 1 <= year <= 9999)
      by (apply year_in_range with (n := n); lia).
    split.
    + apply valid_date_spec. unfold _days_in_month. rewrite L. lia.
    + unfold _ymd2ord, _days_before_month. rewrite L. lia.
Qed.

End CalendarOrdinals.

(** ** Datetimes on the time line *)

Section DatetimeFacts.

Lemma valid_time_spec (h m s us : Z) :
  valid_time h m s us = true <->
  (0 <= h <= 23 /\ 0 <= m <= 59 /\ 0 <= s <= 59 /\ 0 <= us <= 999999).
Proof.
  unfold valid_time. rewrite !andb_true_iff, !Z.leb_le. tauto.
Qed.

Lemma valid_datetime_spec (d : datetime) :
  valid_datetime d = true <->
  (valid_date (year d) (month d) (day d) = true /\
   0 <= hour d <= 23 /\ 0 <= minute d <= 59 /\ 0 <= second d <= 59 /\
   0 <= microsecond d <= 999999).
Proof.
  unfold valid_datetime. rewrite andb_true_iff, valid_time_spec. tauto.
Qed.

Lemma toordinal_bounds (d : datetime) :
  valid_datetime d = true -> 1 <= toordinal d <= _MAXORDINAL.
Proof.
  intros V. apply valid_datetime_spec in V. now apply ymd2ord_bounds.
Qed.

Lemma time_us_bounds (d : datetime) :
  valid_datetime d = true -> 0 <= time_us d < us_per_day.
Proof.
  intros V. apply valid_datetime_spec in V.
  unfold time_us, us_per_day. lia.
Qed.

Lemma datetime_us_split (d : datetime) :
  datetime_us d = toordinal d * us_per_day + time_us d.
Proof. unfold datetime_us, time_us, us_per_day. ring. Qed.

Lemma cmp_app (x y x' y' : list Z) :
  List.length x = List.length y ->
  _cmp (x ++ x') (y ++ y') =
  match _cmp x y with
  | Eq => _cmp x' y'
  | c => c
  end.
Proof.
  revert y. induction x as [|a x IH]; intros [|b y] L; try discriminate.
  - reflexivity.
  - cbn. destruct (a ?= b); auto.
Qed.

Lemma cmp_eq (x y : list Z) : _cmp x y = Eq -> x = y.
Proof.
  revert y. induction x as [|a x IH]; intros [|b y]; cbn; try discriminate.
  - reflexivity.
  - destruct (Z.compare_spec a b); try discriminate.
    intros E. subst. f_equal. auto.
Qed.

Lemma time_compare (a b : datetime) :
  valid_datetime a = true -> valid_datetime b = true ->
  _cmp [hour a; minute a; second a; microsecond a]
       [hour b; minute b; second b; microsecond b]
  = (time_us a ?= time_us b).
Proof.
  intros Va Vb. apply valid_datetime_spec in Va, Vb.
  unfold time_us. cbn [_cmp]. symmetry.
  destruct (Z.compare_spec (hour a) (hour b));
    [destruct (Z.compare_spec (minute a) (minute b));
     [destruct (Z.compare_spec (second a) (second b));
      [destruct (Z.compare_spec (microsecond a) (microsecond b)) | | ] | | ]
    | | ];
    first [apply Z.compare_eq_iff | apply Z.compare_lt_iff
           | apply Z.compare_gt_iff]; lia.
Qed.

(** [datetime.__lt__] and its relatives compare positions on the time
    line. *)
Lemma datetime_compare (a b : datetime) :
  valid_datetime a = true -> valid_datetime b = true ->
  _cmp (datetime_state a) (datetime_state b)
  = (datetime_us a ?= datetime_us b).
Proof.
  intros Va Vb.
  pose proof (time_us_bounds a Va) as Ta.
  pose proof (time_us_bounds b Vb) as Tb.
  unfold datetime_state.
  change [year a; month a; day a; hour a; minute a; second a; microsecond a]
    with ([year a; month a; day a]
          ++ [hour a; minute a; second a; microsecond a])%list.
  change [year b; month b; day b; hour b; minute b; second b; microsecond b]
    with ([year b; month b; day b]
          ++ [hour b; minute b; second b; microsecond b])%list.
  rewrite cmp_app by reflexivity.
  rewrite (time_compare a b Va Vb).
  apply valid_datetime_spec in Va, Vb.
  rewrite ymd2ord_compare by tauto.
  rewrite !datetime_us_split. fold (toordinal a) (toordinal b).
  unfold us_per_day in *. symmetry.
  destruct (Z.compare_spec (toordinal a) (toordinal b));
    [destruct (Z.compare_spec (time_us a) (time_us b)) | | ];
    first [apply Z.compare_eq_iff | apply Z.compare_lt_iff
           | apply Z.compare_gt_iff]; lia.
Qed.

Lemma datetime_lt_spec (a b : datetime) :
  valid_datetime a = true -> valid_datetime b = true ->
  datetime_lt a b = (datetime_us a <? datetime_us b).
Proof.
  intros Va Vb. unfold datetime_lt, Z.ltb.
  now rewrite datetime_compare.
Qed.

Lemma datetime_le_spec (a b : datetime) :
  valid_datetime a = true -> valid_datetime b = true ->
  datetime_le a b = (datetime_us a <=? datetime_us b).
Proof.
  intros Va Vb. unfold datetime_le, Z.leb.
  now rewrite datetime_compare.
Qed.

Lemma datetime_us_inj (a b : datetime) :
  valid_datetime a = true -> valid_datetime b = true ->
  datetime_us a = datetime_us b -> a = b.
Proof.
  intros Va Vb E.
  assert (C : _cmp (datetime_state a) (datetime_state b) = Eq)
    by (rewrite datetime_compare by assumption; now apply Z.compare_eq_iff).
  apply cmp_eq in C. destruct a, b. unfold datetime_state in C. cbn in C.
  congruence.
Qed.

End DatetimeFacts.

(** ** Adding and subtracting durations *)

Section DurationFacts.

Lemma timedelta_normal (d s us : Z) :
  0 <= s < 86400 -> 0 <= us < 1000000 ->
  timedelta d s us 0 0 = mk_timedelta d s us.
Proof.
  intros Hs Hus. unfold timedelta.
  rewrite (Z.div_small us), (Z.mod_small us) by lia.
  replace (s + 0 * 60 + 0 * 3600 + 0) with s by ring.
  rewrite (Z.div_small s), (Z.mod_small s) by lia.
  f_equal. ring.
Qed.

Lemma timedelta_normalised (d s us m h : Z) :
  normalised (timedelta d s us m h).
Proof.
  unfold normalised, timedelta. cbn.
  split; apply Z.mod_pos_bound; lia.
Qed.

(** Normalisation keeps the length of a duration. *)
Lemma timedelta_us_timedelta (d s us : Z) :
  timedelta_us (timedelta d s us 0 0) = (d * 86400 + s) * 1000000 + us.
Proof.
  unfold timedelta_us, timedelta. cbn.
  Z.div_mod_to_equations. lia.
Qed.

Lemma timedelta_us_inj (a b : timedelta_t) :
  normalised a -> normalised b -> timedelta_us a = timedelta_us b -> a = b.
Proof.
  destruct a as [d s u], b as [d' s' u']. unfold normalised, timedelta_us.
  cbn. intros [Hs Hu] [Hs' Hu'] E.
  assert (u = u') by lia. subst u'.
  assert (s = s') by lia. subst s'.
  assert (d = d') by lia. subst d'. reflexivity.
Qed.

Lemma timedelta_compare (a b : timedelta_t) :
  normalised a -> normalised b ->
  _cmp (timedelta_state a) (timedelta_state b)
  = (timedelta_us a ?= timedelta_us b).
Proof.
  destruct a as [d s u], b as [d' s' u'].
  unfold normalised, timedelta_us, timedelta_state. cbn.
  intros [Hs Hu] [Hs' Hu']. symmetry.
  destruct (Z.compare_spec d d');
    [destruct (Z.compare_spec s s'); [destruct (Z.compare_spec u u') | | ]
    | | ];
    first [apply Z.compare_eq_iff | apply Z.compare_lt_iff
           | apply Z.compare_gt_iff]; lia.
Qed.

Lemma timedelta_le_spec (a b : timedelta_t) :
  normalised a -> normalised b ->
  timedelta_le a b = (timedelta_us a <=? timedelta_us b).
Proof.
  intros Na Nb. unfold timedelta_le, Z.leb. now rewrite timedelta_compare.
Qed.

Lemma days_28_us : timedelta_us days_28 = us_28_days.
Proof. reflexivity. Qed.

Lemma days_28_normalised : normalised days_28.
Proof. apply timedelta_normalised. Qed.

(** The difference of two datetimes is their distance on the time line. *)
Lemma datetime_sub_us (a b : datetime) :
  timedelta_us (datetime_sub a b) = datetime_us a - datetime_us b.
Proof.
  unfold datetime_sub. rewrite timedelta_us_timedelta.
  unfold datetime_us. ring.
Qed.

Lemma datetime_sub_normalised (a b : datetime) :
  normalised (datetime_sub a b).
Proof. apply timedelta_normalised. Qed.

(** [plus_days] moves the date and keeps the time of day. *)
Lemma plus_days_spec (d : datetime) (k : Z) :
  valid_datetime d = true ->
  1 <= toordinal d + k <= _MAXORDINAL ->
  valid_datetime (plus_days d k) = true /\
  toordinal (plus_days d k) = toordinal d + k /\
  time_us (plus_days d k) = time_us d.
Proof.
  intros V R. unfold plus_days.
  pose proof (ord2ymd_spec (toordinal d + k) R) as O.
  destruct (_ord2ymd (toordinal d + k)) as [[y m] dd].
  destruct O as [Vd Eo].
  apply valid_datetime_spec in V.
  repeat split.
  - apply valid_datetime_spec. cbn. tauto.
  - exact Eo.
Qed.

Lemma plus_days_us (d : datetime) (k : Z) :
  valid_datetime d = true ->
  1 <= toordinal d + k <= _MAXORDINAL ->
  datetime_us (plus_days d k) = datetime_us d + k * us_per_day.
Proof.
  intros V R. destruct (plus_days_spec d k V R) as (_ & O & T).
  rewrite !datetime_us_split, O, T. ring.
Qed.

Lemma plus_days_valid (d : datetime) (k : Z) :
  valid_datetime d = true ->
  1 <= toordinal d + k <= _MAXORDINAL ->
  valid_datetime (plus_days d k) = true.
Proof. intros V R. now destruct (plus_days_spec d k V R). Qed.

Lemma plus_days_toordinal (d : datetime) (k : Z) :
  valid_datetime d = true ->
  1 <= toordinal d + k <= _MAXORDINAL ->
  toordinal (plus_days d k) = toordinal d + k.
Proof. intros V R. now destruct (plus_days_spec d k V R). Qed.

Lemma plus_days_0 (d : datetime) :
  valid_datetime d = true -> plus_days d 0 = d.
Proof.
  intros V. pose proof (toordinal_bounds d V) as B.
  apply datetime_us_inj; [apply plus_days_valid; [assumption | lia] | assumption | ].
  rewrite plus_days_us by (assumption || lia). ring.
Qed.

Lemma plus_days_plus (d : datetime) (j k : Z) :
  valid_datetime d = true ->
  1 <= toordinal d + j <= _MAXORDINAL ->
  1 <= toordinal d + j + k <= _MAXORDINAL ->
  plus_days (plus_days d j) k = plus_days d (j + k).
Proof.
  intros V Rj Rk.
  pose proof (plus_days_valid d j V Rj) as Vj.
  pose proof (plus_days_toordinal d j V Rj) as Oj.
  apply datetime_us_inj.
  - apply plus_days_valid; [assumption | lia].
  - apply plus_days_valid; [assumption | lia].
  - rewrite !plus_days_us by (assumption || lia). ring.
Qed.

(** [d + timedelta(days=28)] on a valid datetime: 28 days later, or an
    [OverflowError] past the end of the calendar. *)
Lemma datetime_add_28 (d : datetime) :
  valid_datetime d = true ->
  datetime_add d days_28 =
  if toordinal d + 28 <=? _MAXORDINAL then Ok (plus_days d 28)
  else Raise date_overflow.
Proof.
  intros V. pose proof (toordinal_bounds d V) as B.
  apply valid_datetime_spec in V. destruct V as (_ & Hh & Hm & Hs & Hu).
  unfold datetime_add, plus_days.
  assert (T : timedelta_add
                (timedelta (toordinal d) (second d) (microsecond d)
                   (minute d) (hour d)) days_28
              = mk_timedelta (toordinal d + 28)
                  (hour d * 3600 + minute d * 60 + second d)
                  (microsecond d)).
  { unfold timedelta_add, days_28, timedelta. cbn.
    f_equal; Z.div_mod_to_equations; lia. }
  rewrite T. cbn [td_days td_seconds td_microseconds].
  replace (0 <? toordinal d + 28) with true by (symmetry; apply Z.ltb_lt; lia).
  cbn [andb].
  destruct (toordinal d + 28 <=? _MAXORDINAL); [ | reflexivity].
  destruct (_ord2ymd (toordinal d + 28)) as [[y m] dd].
  f_equal. f_equal; Z.div_mod_to_equations; lia.
Qed.

Lemma datetime_sub_plus_28 (d : datetime) :
  valid_datetime d = true ->
  toordinal d + 28 <= _MAXORDINAL ->
  datetime_sub (plus_days d 28) d = days_28.
Proof.
  intros V R. pose proof (toordinal_bounds d V) as B.
  apply timedelta_us_inj.
  - apply datetime_sub_normalised.
  - apply days_28_normalised.
  - rewrite datetime_sub_us, plus_days_us by (assumption || lia).
    rewrite days_28_us. unfold us_28_days, us_per_day. ring.
Qed.

(** The beginning of the day is what [replace] builds. *)
Lemma replace_midnight (d : datetime) :
  valid_datetime d = true -> replace d 0 0 0 0 = Ok (midnight d).
Proof.
  intros V. apply valid_datetime_spec in V. destruct V as [V _].
  unfold replace, datetime_new. rewrite V. reflexivity.
Qed.

Lemma midnight_valid (d : datetime) :
  valid_datetime d = true -> valid_datetime (midnight d) = true.
Proof.
  intros V. apply valid_datetime_spec in V.
  apply valid_datetime_spec. cbn. intuition lia.
Qed.

Lemma midnight_toordinal (d : datetime) :
  toordinal (midnight d) = toordinal d.
Proof. reflexivity. Qed.

Lemma midnight_us (d : datetime) :
  datetime_us (midnight d) = toordinal d * us_per_day.
Proof. rewrite datetime_us_split. unfold time_us. cbn. rewrite midnight_toordinal. ring. Qed.

(** The beginning of the day is not later than any time of the day and
    less than a day before it. *)
Lemma midnight_le (d : datetime) :
  valid_datetime d = true ->
  datetime_us (midnight d) <= datetime_us d < datetime_us (midnight d) + us_per_day.
Proof.
  intros V. pose proof (time_us_bounds d V).
  rewrite midnight_us, datetime_us_split. lia.
Qed.

End DurationFacts.

(** ** Histories *)

Section HistoryFacts.

Lemma windows_of_app (h1 h2 : history) :
  windows_of (h1 ++ h2) = (windows_of h1 ++ windows_of h2)%list.
Proof.
  induction h1 as [|[req out | s e out | t out] h1 IH]; cbn; congruence.
Qed.

Lemma fetches_of_app (h1 h2 : history) :
  fetches_of (h1 ++ h2) = (fetches_of h1 ++ fetches_of h2)%list.
Proof.
  induction h1 as [|[req out | s e out | t out] h1 IH]; cbn; congruence.
Qed.

Lemma requests_of_app (h1 h2 : history) :
  requests_of (h1 ++ h2) = (requests_of h1 ++ requests_of h2)%list.
Proof.
  induction h1 as [|[req out | s e out | t out] h1 IH]; cbn; congruence.
Qed.

Lemma windows_fetches_length (h : history) :
  List.length (windows_of h) = List.length (fetches_of h).
Proof.
  induction h as [|[req out | s e out | t out] h IH]; cbn; congruence.
Qed.

Lemma events_intro {A : Type} (m : M A) (h evs : history) (out : result A) :
  m h = (out, (h ++ evs)%list) -> events m h = evs.
Proof.
  intros E. unfold events. rewrite E. cbn. clear E.
  induction h as [|a h IH]; [reflexivity | exact IH].
Qed.

Lemma bind_assoc {A B C : Type} (m : M A) (f : A -> M B) (g : B -> M C)
  (h : history) :
  bind (bind m f) g h = bind m (fun a => bind (f a) g) h.
Proof. unfold bind. destruct (m h) as [[a | e | ] h1]; reflexivity. Qed.

Lemma bind_ext {A B : Type} (m : M A) (f g : A -> M B) (h : history) :
  (forall a h', f a h' = g a h') -> bind m f h = bind m g h.
Proof.
  intros E. unfold bind. destruct (m h) as [[a | e | ] h1]; auto.
Qed.

Lemma bind_cong {A B : Type} (m m' : M A) (f : A -> M B) (h : history) :
  (forall h', m h' = m' h') -> bind m f h = bind m' f h.
Proof. intros E. unfold bind. now rewrite E. Qed.

Lemma bind_ret_r {A : Type} (m : M A) (h : history) :
  bind m (fun a => ret a) h = m h.
Proof. unfold bind, ret. destruct (m h) as [[a | e | ] h1]; reflexivity. Qed.

Lemma bind_ret {A B : Type} (a : A) (f : A -> M B) (h : history) :
  bind (ret a) f h = f a h.
Proof. reflexivity. Qed.

(** An element of a list with one more element at its end lies in the
    list, or is that last element. *)
Lemma app_one_split {A : Type} (l : list A) (x : A) :
  forall (pre : list A) (w : A) (post : list A),
    l ++ [x] = pre ++ w :: post ->
    (exists post', l = pre ++ w :: post' /\ post = post' ++ [x])
    \/ (pre = l /\ w = x /\ post = []).
Proof.
  induction l as [|a l IH]; intros pre w post E.
  - destruct pre as [|b pre]; cbn in E.
    + injection E as -> <-. now right.
    + injection E as _ E. now destruct pre.
  - destruct pre as [|b pre]; cbn in E.
    + injection E as -> <-. left. now exists l.
    + injection E as -> E.
      destruct (IH pre w post E) as [(post' & -> & ->) | (-> & -> & ->)].
      * left. now exists post'.
      * now right.
Qed.

End HistoryFacts.

(** ** Runs of the fetcher *)

Section Runs.

Variable requests_post : history -> request -> string + string.
Variable json_loads : string -> option reply.
Variable timestamp : datetime -> exn + Z.
Variable self : BinanceConnection.
Variable kw : kwargs.

Local Abbreviation get_trades := (_get_trades requests_post json_loads timestamp self).
Local Abbreviation fetch_all := (fetch_each requests_post json_loads timestamp self kw).
Local Abbreviation loop := (trades_loop requests_post json_loads timestamp).
Local Abbreviation run_trades := (trades requests_post json_loads timestamp self).

(** A call of [_get_trades] adds its own event last, after the request it
    may have sent. *)
Lemma get_trades_run (s e : datetime) (h : history) :
  exists pre out,
    get_trades s e kw h = (out, h ++ pre ++ [GetTrades s e out]) /\
    windows_of pre = [] /\ fetches_of pre = [] /\
    out <> Timeout.
Proof.
  unfold _get_trades, logged, bind, lift, int_timestamp.
  destruct (timestamp s) as [ex | ts];
    [exists [], (Raise ex); cbn; repeat split; congruence | ].
  destruct (timestamp e) as [ex | te];
    [exists [], (Raise ex); cbn; repeat split; congruence | ].
  unfold post, logged. cbn beta iota.
  match goal with
  | |- context [requests_post h ?r] =>
    set (req := r); destruct (requests_post h req) as [detail | text]
  end.
  - exists [Post req (Raise (RequestException detail))],
      (Raise (RequestException detail)).
    rewrite <- app_assoc. cbn. repeat split; congruence.
  - unfold loads. destruct (json_loads text) as [[p d]|].
    + cbn [pages data getitem].
      destruct p as [p|]; cbn;
        [destruct d as [d|]; cbn | ];
        eexists [Post req (Ok text)], _; rewrite <- app_assoc; cbn;
        (split; [reflexivity | repeat split; congruence]).
    + exists [Post req (Ok text)], (Raise (JSONDecodeError text)).
      rewrite <- app_assoc. cbn. repeat split; congruence.
Qed.

Lemma fetch_each_run (ws : list (datetime * datetime)) :
  forall (acc : list record) (h : history),
  exists out evs,
    fetch_all ws acc h = (out, h ++ evs) /\ fetch_outcome ws acc out evs.
Proof.
  induction ws as [|[s e] ws IH]; intros acc h.
  - exists (Ok acc), []. cbn [fetch_each]. unfold ret. rewrite app_nil_r.
    split; [reflexivity | ]. split; [now exists [] | ].
    cbn. rewrite app_nil_r. repeat split.
  - destruct (get_trades_run s e h) as (pre & out1 & E1 & W1 & F1 & NT).
    cbn [fetch_each]. unfold bind at 1. rewrite E1.
    destruct out1 as [r | ex | ]; [ | | congruence].
    + destruct (IH (acc ++ snd r) (h ++ pre ++ [GetTrades s e (Ok r)]))
        as (out & evs & E & [[rest P] O]).
      exists out, (pre ++ [GetTrades s e (Ok r)] ++ evs).
      split; [rewrite E; f_equal; now rewrite <- !app_assoc | ].
      assert (W : windows_of (pre ++ [GetTrades s e (Ok r)] ++ evs)
                  = (s, e) :: windows_of evs)
        by (rewrite windows_of_app, W1; reflexivity).
      assert (F : fetches_of (pre ++ [GetTrades s e (Ok r)] ++ evs)
                  = Ok r :: fetches_of evs)
        by (rewrite fetches_of_app, F1; reflexivity).
      split; [exists rest; rewrite W; cbn; congruence | ].
      destruct out as [res | ex | ]; [ | | exact O].
      * destruct O as (O1 & O2 & O3). rewrite W, F. cbn.
        repeat split; [congruence | assumption | ].
        rewrite O3, <- app_assoc. destruct r. reflexivity.
      * destruct O as (pre' & ev & O2 & O3 & O4).
        exists (pre ++ [GetTrades s e (Ok r)] ++ pre'), ev.
        repeat split.
        -- rewrite O2, <- !app_assoc. reflexivity.
        -- exact O3.
        -- rewrite fetches_of_app, F1. cbn. exact O4.
    + exists (Raise ex), (pre ++ [GetTrades s e (Raise ex)]).
      split; [reflexivity | ].
      split; [exists ws; rewrite windows_of_app, W1; reflexivity | ].
      exists pre, (GetTrades s e (Raise ex)).
      repeat split. now rewrite F1.
Qed.

Lemma fetch_each_app (ws : list (datetime * datetime)) (s e : datetime) :
  forall (acc : list record) (h : history),
    fetch_all (ws ++ [(s, e)]) acc h =
    (acc' <- fetch_all ws acc ;;
     r <- get_trades s e kw ;;
     ret (acc' ++ snd r)) h.
Proof.
  induction ws as [|[s1 e1] ws IH]; intros acc h.
  - cbn. unfold bind, ret.
    destruct (get_trades s e kw h) as [[r | ex | ] h1]; reflexivity.
  - cbn [app fetch_each]. rewrite bind_assoc.
    apply bind_ext. intros r h'. apply IH.
Qed.

(** The loop runs the fetches of its plan. *)
Lemma trades_loop_plan (end_ : datetime) (fuel : nat) :
  forall (s e : datetime) (acc : list record) (h : history),
    loop fuel self kw end_ s e acc h =
    (let '(ws, s', x) := loop_plan fuel end_ s e in
     acc' <- fetch_all ws acc ;; finish_with x (s', acc')) h.
Proof.
  induction fuel as [|fuel IH]; intros s e acc h; [reflexivity | ].
  cbn [trades_loop loop_plan].
  destruct (datetime_lt e end_); [ | reflexivity].
  destruct (datetime_add e days_28) as [e' | ex | ].
  - specialize (IH e e').
    destruct (loop_plan fuel end_ e e') as [[ws s'] x].
    cbn [fetch_each]. rewrite bind_assoc.
    apply bind_ext. intros r h'. apply IH.
  - cbn [fetch_each]. rewrite bind_assoc.
    apply bind_ext. intros r h'. reflexivity.
  - cbn [fetch_each]. rewrite bind_assoc.
    apply bind_ext. intros r h'. reflexivity.
Qed.

(** [trades] runs the fetches of its plan, in order, and ends as the plan
    says. *)
Lemma trades_as_plan (start end_ : datetime) (h : history) :
  run_trades start end_ kw h =
  (acc <- fetch_all (fst (trades_plan start end_)) [] ;;
   finish_with (snd (trades_plan start end_)) acc) h.
Proof.
  unfold trades, trades_plan.
  destruct (replace start 0 0 0 0) as [s0 | ex | ]; [ | reflexivity ..].
  unfold bind at 1, lift at 1.
  destruct (datetime_add s0 days_28) as [e0 | ex | ]; [ | reflexivity ..].
  unfold bind at 1, lift at 1.
  rewrite (bind_cong _ _ _ h (trades_loop_plan end_ _ s0 e0 [])).
  destruct (loop_plan (loop_fuel s0 end_) end_ s0 e0) as [[ws s'] x].
  rewrite bind_assoc.
  destruct x as [ | ex | ]; cbn [fst snd].
  - rewrite (bind_cong _ _ _ h (fetch_each_app ws s' end_ [])).
    rewrite bind_assoc. apply bind_ext. intros acc h'.
    unfold finish_with. rewrite bind_ret. cbn [fst snd].
    symmetry. apply bind_ret_r.
  - apply bind_ext. reflexivity.
  - apply bind_ext. reflexivity.
Qed.

(** Every run of [trades]: the events it adds are those of the fetches of
    its plan. *)
Lemma trades_run (start end_ : datetime) (h : history) :
  exists out evs,
    run_trades start end_ kw h
    = (final_result (snd (trades_plan start end_)) out, h ++ evs) /\
    events (run_trades start end_ kw) h = evs /\
    fetch_outcome (fst (trades_plan start end_)) [] out evs.
Proof.
  destruct (fetch_each_run (fst (trades_plan start end_)) [] h)
    as (out & evs & E & O).
  exists out, evs.
  assert (R : run_trades start end_ kw h
              = (final_result (snd (trades_plan start end_)) out, h ++ evs)).
  { rewrite trades_as_plan. unfold bind. rewrite E.
    destruct out as [acc | ex | ]; [ | reflexivity ..].
    destruct (snd (trades_plan start end_)); reflexivity. }
  split; [exact R | ]. split; [ | exact O].
  eapply events_intro. exact R.
Qed.

End Runs.

(** ** The windows of a call *)

Section Plans.

Variable end_ : datetime.
Hypothesis end_valid : valid_datetime end_ = true.

Lemma us_28_days_eq : us_28_days = 28 * us_per_day.
Proof. reflexivity. Qed.

(** What the loop does from a window start [s] on: [n] full windows, each
    ending before [end_]; then it ends at the first boundary that is not
    before [end_], or the calendar ends, or the fuel does. *)
Lemma loop_plan_spec (fuel : nat) :
  forall s : datetime,
    valid_datetime s = true ->
    toordinal s + 28 <= _MAXORDINAL ->
    exists n : nat,
      fst (fst (loop_plan fuel end_ s (plus_days s 28))) = full_windows n s /\
      toordinal s + 28 * Z.of_nat n <= _MAXORDINAL /\
      ((1 <= n)%nat ->
       datetime_us s + Z.of_nat n * us_28_days < datetime_us end_) /\
      match snd (loop_plan fuel end_ s (plus_days s 28)) with
      | Finish =>
        snd (fst (loop_plan fuel end_ s (plus_days s 28)))
        = plus_days s (28 * Z.of_nat n) /\
        toordinal s + 28 * (Z.of_nat n + 1) <= _MAXORDINAL /\
        datetime_us end_ <= datetime_us s + (Z.of_nat n + 1) * us_28_days
      | Aborted ex =>
        ex = date_overflow /\
        (1 <= n)%nat /\
        _MAXORDINAL < toordinal s + 28 * (Z.of_nat n + 1)
      | Exhausted => (fuel <= n)%nat
      end.
Proof.
  induction fuel as [|fuel IH]; intros s V R.
  - exists 0%nat. cbn. repeat split; lia.
  - pose proof (toordinal_bounds s V) as B.
    assert (R1 : 1 <= toordinal s + 28 <= _MAXORDINAL) by lia.
    pose proof (plus_days_valid s 28 V R1) as Ve.
    pose proof (plus_days_toordinal s 28 V R1) as Oe.
    pose proof (plus_days_us s 28 V R1) as Ue.
    cbn [loop_plan].
    rewrite (datetime_lt_spec _ _ Ve end_valid).
    destruct (Z.ltb_spec (datetime_us (plus_days s 28)) (datetime_us end_))
      as [L | L].
    + rewrite (datetime_add_28 _ Ve), Oe.
      destruct (Z.leb_spec (toordinal s + 28 + 28) _MAXORDINAL) as [R2 | R2].
      * destruct (IH (plus_days s 28) Ve ltac:(lia)) as (n & Hw & Hb & Hc & Hx).
        destruct (loop_plan fuel end_ (plus_days s 28)
                    (plus_days (plus_days s 28) 28)) as [[ws s'] x].
        cbn [fst snd] in *. exists (S n).
        rewrite Nat2Z.inj_succ. rewrite us_28_days_eq in *.
        repeat split.
        -- cbn. now rewrite Hw.
        -- lia.
        -- intros _. destruct n; [cbn in *; lia | ].
           specialize (Hc ltac:(lia)). lia.
        -- destruct x as [ | ex | ].
           ++ destruct Hx as (Hs & Ho & Hu). repeat split; try lia.
              rewrite Hs, plus_days_plus by (assumption || lia).
              f_equal. lia.
           ++ destruct Hx as (He & Hn & Ho). repeat split; try lia.
              assumption.
           ++ lia.
      * exists 1%nat. cbn [fst snd full_windows].
        rewrite us_28_days_eq. repeat split; lia.
    + exists 0%nat. cbn [fst snd full_windows].
      rewrite us_28_days_eq. repeat split; try lia.
      now rewrite plus_days_0.
Qed.

Lemma loop_fuel_enough (s : datetime) (n : nat) :
  valid_datetime s = true ->
  time_us s = 0 ->
  datetime_us s + Z.of_nat n * us_28_days < datetime_us end_ ->
  (n < loop_fuel s end_)%nat.
Proof.
  intros V T L. pose proof (time_us_bounds end_ end_valid) as Te.
  rewrite !datetime_us_split, T in L.
  unfold loop_fuel, us_28_days, us_per_day in *.
  assert (28 * Z.of_nat n <= toordinal end_ - toordinal s) by lia.
  assert (Z.of_nat n <= (toordinal end_ - toordinal s) / 28)
    by (apply Z.div_le_lower_bound; lia).
  lia.
Qed.

(** The windows of [trades] have one of the three shapes; the fuel of the
    loop is never used up. *)
Lemma trades_plan_shape (start : datetime) :
  valid_datetime start = true ->
  plan_shape start end_ (trades_plan start end_).
Proof.
  intros V. pose proof (midnight_valid start V) as Vm.
  unfold trades_plan. rewrite (replace_midnight start V).
  rewrite (datetime_add_28 _ Vm), midnight_toordinal.
  destruct (Z.leb_spec (toordinal start + 28) _MAXORDINAL) as [R | R];
    [ | now apply shape_no_window].
  destruct (loop_plan_spec (loop_fuel (midnight start) end_)
              (midnight start) Vm R) as (n & Hw & Hb & Hc & Hx).
  destruct (loop_plan (loop_fuel (midnight start) end_) end_
              (midnight start) (plus_days (midnight start) 28))
    as [[ws s'] x].
  cbn [fst snd] in *. rewrite midnight_toordinal in *. subst ws.
  destruct x as [ | ex | ].
  - destruct Hx as (Hs & Ho & Hu). subst s'. now apply shape_finish.
  - destruct Hx as (He & Hn & Ho). subst ex.
    apply shape_overflow; auto.
  - exfalso.
    assert (P : (1 <= n)%nat) by (unfold loop_fuel in Hx; lia).
    pose proof (loop_fuel_enough (midnight start) n Vm eq_refl (Hc P)).
    lia.
Qed.

Lemma full_windows_length (n : nat) (s : datetime) :
  List.length (full_windows n s) = n.
Proof.
  revert s. induction n as [|n IH]; intros s; cbn; [ | rewrite IH];
    reflexivity.
Qed.

End Plans.

(** ** Outcomes and chains *)

Section OutcomeFacts.

Lemma forallb_is_ok_app (l : list (result (Z * list record)))
  (ex : exn) : forallb is_ok (l ++ [Raise ex]) = false.
Proof. rewrite forallb_app. cbn. apply andb_false_r. Qed.

Lemma fetches_of_last (pre : history) (ev : event) (ex : exn) :
  fetches_of [ev] = [Raise ex] ->
  exists s e, ev = GetTrades s e (Raise ex).
Proof.
  destruct ev as [req out | s e out | t out]; cbn; try discriminate.
  intros E. exists s, e. congruence.
Qed.

(** A run whose fetches all succeed does not raise in a fetch. *)
Lemma fetch_outcome_all_ok (ws : list (datetime * datetime))
  (acc : list record) (out : result (list record)) (evs : history) :
  fetch_outcome ws acc out evs ->
  forallb is_ok (fetches_of evs) = true ->
  exists res, out = Ok res.
Proof.
  intros [_ O] F. destruct out as [res | ex | ]; [now exists res | | easy].
  destruct O as (pre & ev & E & L & _). subst evs.
  rewrite fetches_of_app, L, forallb_is_ok_app in F. discriminate.
Qed.

(** A non-empty plan leads to at least one call. *)
Lemma fetch_outcome_first (w : datetime * datetime)
  (ws : list (datetime * datetime)) (acc : list record)
  (out : result (list record)) (evs : history) :
  fetch_outcome (w :: ws) acc out evs ->
  exists rest, windows_of evs = w :: rest.
Proof.
  intros [[rest P] O].
  destruct (windows_of evs) as [|w' l] eqn:W.
  - exfalso. destruct out as [res | ex | ]; [ | | easy].
    + destruct O as (O1 & _). discriminate.
    + destruct O as (pre & ev & E & L & _). subst evs.
      destruct (fetches_of_last pre ev ex L) as (s & e & ->).
      rewrite windows_of_app in W. cbn in W.
      now destruct (windows_of pre).
  - cbn in P. exists l. congruence.
Qed.

Lemma fetch_outcome_single (w : datetime * datetime) (acc : list record)
  (out : result (list record)) (evs : history) :
  fetch_outcome [w] acc out evs -> windows_of evs = [w].
Proof.
  intros O. destruct (fetch_outcome_first w [] acc out evs O) as [rest W].
  destruct O as [[rest' P] _]. rewrite W in P. cbn in P.
  destruct rest; [assumption | discriminate].
Qed.

Lemma chained_prefix (end_ : datetime) (l1 l2 : list (datetime * datetime)) :
  chained end_ (l1 ++ l2) -> chained end_ l1.
Proof.
  revert l2. induction l1 as [|[s e] l1 IH]; intros l2 C.
  - constructor.
  - destruct l1 as [|w l1]; [constructor | ].
    cbn in C. inversion C; subst.
    constructor; auto. apply (IH l2). assumption.
Qed.

(** A plan of one window: one fetch, whose outcome is the outcome of the
    call. *)
Lemma fetch_outcome_single_result (w : datetime * datetime)
  (out : result (list record)) (evs : history) :
  fetch_outcome [w] [] out evs ->
  exists o,
    fetches_of evs = [o] /\ out = rbind o (fun r => Ok (snd r)).
Proof.
  intros O. pose proof (fetch_outcome_single w [] out evs O) as W.
  pose proof (windows_fetches_length evs) as Len. rewrite W in Len.
  destruct O as [_ O]. destruct out as [res | ex | ]; [ | | easy].
  - destruct O as (_ & F & E).
    destruct (fetches_of evs) as [|o [|o' l]]; try discriminate.
    exists o. split; [reflexivity | ].
    cbn in F. destruct o as [[p d] | ex | ]; try discriminate.
    cbn in *. now rewrite app_nil_r in E; subst.
  - destruct O as (pre & ev & E & L & _). subst evs.
    exists (Raise ex). split; [ | reflexivity].
    rewrite fetches_of_app, L in *.
    destruct (fetches_of pre); [reflexivity | ].
    cbn in Len. rewrite length_app in Len. cbn in Len. lia.
Qed.

(** The boundaries of a chain whose last window is not empty increase. *)
Lemma chained_increasing (end_ s : datetime)
  (ws : list (datetime * datetime)) :
  chained end_ (ws ++ [(s, end_)]) ->
  datetime_lt s end_ = true ->
  increasing (boundaries (ws ++ [(s, end_)])) = true.
Proof.
  intros C L. induction ws as [|[a b] l IH].
  - cbn [app boundaries map snd increasing]. now rewrite L.
  - cbn [app] in *.
    inversion C as [ | w E | a0 b0 w ws0 D1 D2 D3 D4 D5 E].
    + now destruct l.
    + match goal with
      | Q : _ :: _ = l ++ _ |- _ => rewrite <- Q in IH
      end.
      specialize (IH D5).
      destruct w as [s1 e1]. cbn [fst] in D4. subst s1.
      cbn [boundaries map snd increasing] in *. now rewrite D2.
Qed.

End OutcomeFacts.

Section Chains.

Variable end_ : datetime.
Hypothesis end_valid : valid_datetime end_ = true.

(** Full windows that end before [end_] form a chain, and so do they
    followed by windows that start where they end. *)
Lemma full_windows_chained (n : nat) :
  forall (s : datetime) (tl : list (datetime * datetime)),
    valid_datetime s = true ->
    toordinal s + 28 * Z.of_nat n <= _MAXORDINAL ->
    ((1 <= n)%nat ->
     datetime_us s + Z.of_nat n * us_28_days < datetime_us end_) ->
    chained end_ tl ->
    (forall w tl', tl = w :: tl' -> fst w = plus_days s (28 * Z.of_nat n)) ->
    chained end_ (full_windows n s ++ tl).
Proof.
  induction n as [|n IH]; intros s tl V R L C H; [exact C | ].
  rewrite Nat2Z.inj_succ in *.
  pose proof (toordinal_bounds s V) as B.
  assert (R1 : 1 <= toordinal s + 28 <= _MAXORDINAL) by lia.
  pose proof (plus_days_valid s 28 V R1) as Ve.
  pose proof (plus_days_toordinal s 28 V R1) as Oe.
  pose proof (plus_days_us s 28 V R1) as Ue.
  specialize (L ltac:(lia)). rewrite us_28_days_eq in *.
  assert (T : chained end_ (full_windows n (plus_days s 28) ++ tl)).
  { apply IH; try assumption; try lia.
    intros w tl' E. rewrite (H w tl' E).
    rewrite plus_days_plus by (assumption || lia). f_equal. lia. }
  cbn [full_windows app].
  destruct (full_windows n (plus_days s 28) ++ tl) as [|w r] eqn:E;
    [constructor | ].
  constructor; try assumption.
  - apply datetime_sub_plus_28; [assumption | lia].
  - rewrite datetime_lt_spec by assumption. apply Z.ltb_lt.
    unfold us_per_day in *. lia.
  - rewrite datetime_lt_spec by assumption. apply Z.ltb_lt.
    unfold us_per_day in *. lia.
  - destruct n as [|n].
    + cbn in E. rewrite (H w r E). f_equal.
    + cbn in E. injection E as <- _. reflexivity.
Qed.

(** Full windows that end before [end_] are 28 days long each. *)
Lemma full_windows_full (n : nat) :
  forall s : datetime,
    valid_datetime s = true ->
    toordinal s + 28 * Z.of_nat n <= _MAXORDINAL ->
    ((1 <= n)%nat ->
     datetime_us s + Z.of_nat n * us_28_days < datetime_us end_) ->
    Forall (fun w => datetime_sub (snd w) (fst w) = days_28
                     /\ datetime_lt (snd w) end_ = true)
      (full_windows n s).
Proof.
  induction n as [|n IH]; intros s V R L; cbn [full_windows];
    constructor.
  - rewrite Nat2Z.inj_succ in *.
    pose proof (toordinal_bounds s V) as B.
    assert (R1 : 1 <= toordinal s + 28 <= _MAXORDINAL) by lia.
    pose proof (plus_days_valid s 28 V R1) as Ve.
    pose proof (plus_days_us s 28 V R1) as Ue.
    specialize (L ltac:(lia)). rewrite us_28_days_eq in *.
    cbn [fst snd]. split.
    + apply datetime_sub_plus_28; [assumption | lia].
    + rewrite datetime_lt_spec by assumption. apply Z.ltb_lt.
      unfold us_per_day in *. lia.
  - rewrite Nat2Z.inj_succ in *.
    pose proof (toordinal_bounds s V) as B.
    assert (R1 : 1 <= toordinal s + 28 <= _MAXORDINAL) by lia.
    pose proof (plus_days_valid s 28 V R1) as Ve.
    pose proof (plus_days_toordinal s 28 V R1) as Oe.
    pose proof (plus_days_us s 28 V R1) as Ue.
    specialize (L ltac:(lia)). rewrite us_28_days_eq in *.
    apply IH; [assumption | lia | intros _; lia].
Qed.

(** The first window of a plan starts at the beginning of the day of
    [start]. *)
Lemma plan_shape_first (start : datetime)
  (p : list (datetime * datetime) * loop_end) :
  valid_datetime start = true ->
  plan_shape start end_ p ->
  forall w rest, fst p = w :: rest -> fst w = midnight start.
Proof.
  intros V S w rest. pose proof (midnight_valid start V) as Vm.
  destruct S as [R | n R L U | n P R O L]; cbn [fst].
  - discriminate.
  - destruct n as [|n]; cbn [full_windows app Z.of_nat Z.mul].
    + rewrite (plus_days_0 _ Vm). intros E. injection E as <- _.
      reflexivity.
    + intros E. injection E as <- _. reflexivity.
  - destruct n as [|n]; [lia | ]. cbn [full_windows].
    intros E. injection E as <- _. reflexivity.
Qed.

(** A window of a plan is a full one, 28 days long and ending before
    [end_], or the final one: it ends at [end_], nothing follows it, it is
    at most 28 days long, and when it is not the first it starts before
    [end_]. *)
Lemma plan_shape_windows (start : datetime)
  (p : list (datetime * datetime) * loop_end) :
  valid_datetime start = true ->
  plan_shape start end_ p ->
  forall pre w post,
    fst p = pre ++ w :: post ->
    (datetime_sub (snd w) (fst w) = days_28
     /\ datetime_lt (snd w) end_ = true)
    \/ (snd w = end_ /\ post = []
        /\ valid_datetime (fst w) = true
        /\ datetime_us end_ <= datetime_us (fst w) + us_28_days
        /\ (pre <> [] -> datetime_us (fst w) < datetime_us end_)).
Proof.
  intros V S pre w post. pose proof (midnight_valid start V) as Vm.
  pose proof (toordinal_bounds start V) as B.
  assert (F : forall n,
             toordinal start + 28 * Z.of_nat n <= _MAXORDINAL ->
             ((1 <= n)%nat ->
              datetime_us (midnight start) + Z.of_nat n * us_28_days
              < datetime_us end_) ->
             forall post',
               full_windows n (midnight start) = pre ++ w :: post' ->
               datetime_sub (snd w) (fst w) = days_28
               /\ datetime_lt (snd w) end_ = true).
  { intros n R L post' E.
    pose proof (full_windows_full n (midnight start) Vm
                  ltac:(rewrite midnight_toordinal; exact R) L) as Q.
    rewrite E in Q. apply Forall_app in Q. destruct Q as [_ Q].
    now inversion Q. }
  destruct S as [R | n R L U | n P R O L]; cbn [fst]; intros E.
  - now destruct pre.
  - destruct (app_one_split _ _ _ _ _ E)
      as [(post' & E' & _) | (Ep & -> & ->)].
    + left. apply (F n ltac:(lia) L post' E').
    + right. cbn [fst snd].
      assert (R1 : 1 <= toordinal (midnight start) + 28 * Z.of_nat n
                   <= _MAXORDINAL)
        by (rewrite midnight_toordinal; lia).
      rewrite (plus_days_us _ _ Vm R1).
      repeat split.
      * now apply plus_days_valid.
      * unfold us_28_days, us_per_day in *. lia.
      * intros N. destruct n as [|n]; [now subst pre | ].
        specialize (L ltac:(lia)).
        unfold us_28_days, us_per_day in *. lia.
  - left. apply (F n R ltac:(intros _; exact L) post E).
Qed.

(** The windows of a plan form a chain. *)
Lemma plan_shape_chained (start : datetime)
  (p : list (datetime * datetime) * loop_end) :
  valid_datetime start = true ->
  plan_shape start end_ p -> chained end_ (fst p).
Proof.
  intros V S. pose proof (midnight_valid start V) as Vm.
  destruct S as [R | n R L U | n P R O L]; cbn [fst].
  - constructor.
  - apply full_windows_chained; try assumption.
    + rewrite midnight_toordinal. lia.
    + constructor.
    + intros w tl' E. injection E as <- _. reflexivity.
  - rewrite <- (app_nil_r (full_windows n (midnight start))).
    apply full_windows_chained; try assumption.
    + intros _. assumption.
    + constructor.
    + intros w tl' E. discriminate.
Qed.

End Chains.

(** ** How many windows *)

Section Counting.

Variable start end_ : datetime.
Hypothesis start_valid : valid_datetime start = true.
Hypothesis end_valid : valid_datetime end_ = true.

(** [n] windows end before [end_] and the next boundary does not: the plan
    is these [n] full windows and the final one. *)
Lemma plan_count (n : nat) :
  toordinal start + 28 * (Z.of_nat n + 1) <= _MAXORDINAL ->
  ((1 <= n)%nat ->
   datetime_us (midnight start) + Z.of_nat n * us_28_days
   < datetime_us end_) ->
  datetime_us end_
  <= datetime_us (midnight start) + (Z.of_nat n + 1) * us_28_days ->
  trades_plan start end_
  = (full_windows n (midnight start)
     ++ [(plus_days (midnight start) (28 * Z.of_nat n), end_)], Finish).
Proof.
  intros R L U.
  pose proof (trades_plan_shape end_ end_valid start start_valid) as S.
  inversion S as [R' E | m R' L' U' E | m P R' O L' E];
    unfold us_28_days in *.
  - lia.
  - assert (m = n).
    { destruct (Nat.lt_trichotomy m n) as [C | [C | C]]; [ | exact C | ].
      - specialize (L ltac:(lia)). lia.
      - specialize (L' ltac:(lia)). lia. }
    subst m. reflexivity.
  - exfalso.
    destruct (Nat.le_gt_cases m n) as [C | C]; [lia | ].
    lia.
Qed.

Lemma plan_single :
  toordinal start + 28 <= _MAXORDINAL ->
  datetime_us end_ <= datetime_us (midnight start) + us_28_days ->
  trades_plan start end_ = ([(midnight start, end_)], Finish).
Proof.
  intros R U. rewrite (plan_count 0); try lia.
  cbn [full_windows app Z.of_nat Z.mul].
  now rewrite (plus_days_0 _ (midnight_valid start start_valid)).
Qed.

End Counting.

(** ** The claims about [trades] *)

Section TradesClaims.

Variable requests_post : history -> request -> string + string.
Variable json_loads : string -> option reply.
Variable timestamp : datetime -> exn + Z.
Variable self : BinanceConnection.
Variable kw : kwargs.

Local Abbreviation run_trades :=
  (trades requests_post json_loads timestamp self).

Lemma timedelta_le_28 (a b : datetime) :
  timedelta_le (datetime_sub a b) days_28 = true <->
  datetime_us a <= datetime_us b + us_28_days.
Proof.
  rewrite timedelta_le_spec
    by (apply datetime_sub_normalised || apply days_28_normalised).
  rewrite Z.leb_le, datetime_sub_us, days_28_us. lia.
Qed.

(** With the first window end inside the calendar, the plan starts with a
    window that begins at the beginning of the day of [start]. *)
Lemma plan_first (start end_ : datetime) :
  valid_datetime start = true -> valid_datetime end_ = true ->
  toordinal start + 28 <= _MAXORDINAL ->
  exists e ws,
    fst (trades_plan start end_) = (midnight start, e) :: ws /\
    (e = end_ \/ e = plus_days (midnight start) 28).
Proof.
  intros V Ve R.
  pose proof (trades_plan_shape end_ Ve start V) as S.
  inversion S as [R' E | n R' L' U' E | n P R' O L' E]; cbn [fst].
  - lia.
  - destruct n as [|n]; cbn [full_windows app Z.of_nat Z.mul].
    + exists end_, []. rewrite (plus_days_0 _ (midnight_valid start V)).
      auto.
    + eexists _, _. split; [reflexivity | now right].
  - destruct n as [|n]; [lia | ]. cbn [full_windows].
    eexists _, _. split; [reflexivity | now right].
Qed.

(** The fuel of the loop is never used up: a call returns or raises. *)
Lemma trades_terminates (start end_ : datetime) (h : history) :
  valid_datetime start = true -> valid_datetime end_ = true ->
  fst (run_trades start end_ kw h) <> Timeout.
Proof.
  intros V Ve.
  destruct (trades_run requests_post json_loads timestamp self kw
              start end_ h) as (out & evs & Rn & Ev & O).
  rewrite Rn. cbn [fst].
  pose proof (trades_plan_shape end_ Ve start V) as S.
  destruct O as [_ O].
  destruct out as [res | ex | ]; [ | discriminate | contradiction].
  inversion S; cbn; discriminate.
Qed.

(** C1, as the code has it: when [end_] is at most 28 days after the
    beginning of the calendar day of [start], and that day is not after
    9999-12-03, [trades] issues exactly one [_get_trades] call; its window
    starts at the beginning of the day of [start], which is not after
    [start], and ends at [end_]. *)
Theorem trades_single_window (start end_ : datetime) (h : history) :
  valid_datetime start = true ->
  valid_datetime end_ = true ->
  toordinal start + 28 <= _MAXORDINAL ->
  timedelta_le (datetime_sub end_ (midnight start)) days_28 = true ->
  windows_of (events (run_trades start end_ kw) h) = [(midnight start, end_)]
  /\ datetime_le (midnight start) start = true.
Proof.
  intros V Ve R T. apply timedelta_le_28 in T.
  destruct (trades_run requests_post json_loads timestamp self kw
              start end_ h) as (out & evs & Rn & Ev & O).
  rewrite (plan_single start end_ V Ve R T) in O. cbn [fst] in O.
  rewrite Ev. split.
  - exact (fetch_outcome_single _ _ _ _ O).
  - rewrite datetime_le_spec by (assumption || now apply midnight_valid).
    apply Z.leb_le. now apply midnight_le.
Qed.

(** C2, as the code has it: when the range from the beginning of the
    calendar day of [start] to [end_] is [n] periods of 28 days and a
    remainder [0 < r < 28 days], no window end leaves the calendar, and
    every fetch of the run succeeds, [trades] returns after exactly
    [n + 1] calls: [n] full windows and a final one that ends at [end_];
    the boundaries are strictly increasing. *)
Theorem trades_window_count (start end_ : datetime) (n : nat) (r : Z)
  (h : history) :
  valid_datetime start = true ->
  valid_datetime end_ = true ->
  toordinal start + 28 * (Z.of_nat n + 1) <= _MAXORDINAL ->
  timedelta_us (datetime_sub end_ (midnight start))
  = Z.of_nat n * timedelta_us days_28 + r ->
  0 < r < timedelta_us days_28 ->
  forallb is_ok (fetches_of (events (run_trades start end_ kw) h)) = true ->
  let ws := windows_of (events (run_trades start end_ kw) h) in
  ws = full_windows n (midnight start)
       ++ [(plus_days (midnight start) (28 * Z.of_nat n), end_)]
  /\ List.length ws = S n
  /\ increasing (boundaries ws) = true
  /\ snd (last ws (start, start)) = end_
  /\ is_ok (fst (run_trades start end_ kw h)) = true.
Proof.
  intros V Ve R D Hr F ws. subst ws.
  rewrite datetime_sub_us, days_28_us in D. rewrite days_28_us in Hr.
  destruct (trades_run requests_post json_loads timestamp self kw
              start end_ h) as (out & evs & Rn & Ev & O).
  rewrite Ev in *.
  assert (P : trades_plan start end_
              = (full_windows n (midnight start)
                 ++ [(plus_days (midnight start) (28 * Z.of_nat n), end_)],
                 Finish))
    by (apply plan_count; try assumption; unfold us_28_days in *; lia).
  rewrite P in *. cbn [fst snd] in *.
  destruct (fetch_outcome_all_ok _ _ _ _ O F) as [res ->].
  destruct O as (_ & W & _). rewrite W.
  pose proof (midnight_valid start V) as Vm.
  pose proof (toordinal_bounds start V) as B.
  repeat split.
  - rewrite length_app, full_windows_length. cbn. lia.
  - assert (C : chained end_
                  (full_windows n (midnight start)
                   ++ [(plus_days (midnight start) (28 * Z.of_nat n), end_)])).
    { apply full_windows_chained; try assumption.
      - rewrite midnight_toordinal. lia.
      - intros _. unfold us_28_days in *. lia.
      - constructor.
      - intros w tl' E. injection E as <- _. reflexivity. }
    assert (L : datetime_lt (plus_days (midnight start) (28 * Z.of_nat n))
                  end_ = true).
    { rewrite datetime_lt_spec
        by (assumption
            || (apply plus_days_valid;
                [assumption | rewrite midnight_toordinal; lia])).
      apply Z.ltb_lt.
      rewrite plus_days_us
        by (assumption || (rewrite midnight_toordinal; lia)).
      unfold us_28_days, us_per_day in *. lia. }
    now apply chained_increasing.
  - now rewrite last_last.
  - rewrite Rn. reflexivity.
Qed.

(** C3, as the code has it: when the calendar day of [start] is not after
    9999-12-03, [trades] issues at least one fetch call; a call that
    returns has issued last the final fetch, for a window that ends at
    [end_]; and when [start] and [end_] are the same there is exactly one
    call, for the window from the beginning of that day to [end_]. *)
Theorem trades_final_fetch (start end_ : datetime) (h : history) :
  valid_datetime start = true ->
  valid_datetime end_ = true ->
  toordinal start + 28 <= _MAXORDINAL ->
  let ws := windows_of (events (run_trades start end_ kw) h) in
  ws <> []
  /\ (is_ok (fst (run_trades start end_ kw h)) = true ->
      snd (last ws (start, start)) = end_)
  /\ (start = end_ -> ws = [(midnight start, end_)]).
Proof.
  intros V Ve R ws. subst ws.
  destruct (trades_run requests_post json_loads timestamp self kw
              start end_ h) as (out & evs & Rn & Ev & O).
  rewrite Ev, Rn. cbn [fst].
  destruct (plan_first start end_ V Ve R) as (e & tl & P & _).
  repeat split.
  - rewrite P in O.
    destruct (fetch_outcome_first _ _ _ _ _ O) as [rest ->]. discriminate.
  - intros K.
    pose proof (trades_plan_shape end_ Ve start V) as S.
    destruct O as [_ O].
    destruct out as [res | ex | ]; [ | discriminate ..].
    destruct O as (W & _). rewrite W.
    inversion S as [R' E | n R' L' U' E | n Q R' O' L' E];
      rewrite <- E in K; cbn in K; try discriminate.
    cbn [fst]. now rewrite last_last.
  - intros <-.
    assert (U : datetime_us start
                <= datetime_us (midnight start) + us_28_days).
    { pose proof (midnight_le start V). unfold us_28_days, us_per_day in *.
      lia. }
    rewrite (plan_single start start V V R U) in O.
    exact (fetch_outcome_single _ _ _ _ O).
Qed.

(** C4, as the code has it: when the calendar day of [start] is not after
    9999-12-03, [trades] sets the first window start to the beginning of
    that day (hour, minute, second and microsecond zero) and the first
    window end to exactly 28 days later; it enters its loop with these two
    values, and its first fetch call starts at the first window start. *)
Theorem trades_first_window (start : datetime) :
  valid_datetime start = true ->
  toordinal start + 28 <= _MAXORDINAL ->
  let start_interval := midnight start in
  let end_interval := plus_days start_interval 28 in
  replace start 0 0 0 0 = Ok start_interval
  /\ datetime_add start_interval days_28 = Ok end_interval
  /\ datetime_sub end_interval start_interval = days_28
  /\ toordinal end_interval = toordinal start + 28
  /\ time_us end_interval = 0
  /\ (forall (end_ : datetime) (h : history),
        run_trades start end_ kw h
        = (st <- trades_loop requests_post json_loads timestamp
                   (loop_fuel start_interval end_) self kw end_
                   start_interval end_interval [] ;;
           r <- _get_trades requests_post json_loads timestamp self
                  (fst st) end_ kw ;;
           ret (snd st ++ snd r)) h)
  /\ (forall (end_ : datetime) (h : history),
        valid_datetime end_ = true ->
        exists e rest,
          windows_of (events (run_trades start end_ kw) h)
          = (start_interval, e) :: rest).
Proof.
  intros V R s0 e0. subst s0 e0.
  pose proof (midnight_valid start V) as Vm.
  pose proof (toordinal_bounds start V) as B.
  assert (A : datetime_add (midnight start) days_28
              = Ok (plus_days (midnight start) 28)).
  { rewrite (datetime_add_28 _ Vm), midnight_toordinal.
    destruct (Z.leb_spec (toordinal start + 28) _MAXORDINAL);
      [reflexivity | lia]. }
  assert (R1 : 1 <= toordinal (midnight start) + 28 <= _MAXORDINAL)
    by (rewrite midnight_toordinal; lia).
  destruct (plus_days_spec (midnight start) 28 Vm R1) as (_ & O & T).
  repeat split.
  - now apply replace_midnight.
  - exact A.
  - apply datetime_sub_plus_28; [assumption | lia].
  - now rewrite O, midnight_toordinal.
  - rewrite T. reflexivity.
  - intros end_ h. unfold trades.
    rewrite (replace_midnight start V). unfold bind at 1, lift at 1.
    rewrite A. reflexivity.
  - intros end_ h Ve.
    destruct (trades_run requests_post json_loads timestamp self kw
                start end_ h) as (out & evs & Rn & Ev & Oc).
    destruct (plan_first start end_ V Ve R) as (e & tl & P & _).
    rewrite P in Oc. rewrite Ev.
    destruct (fetch_outcome_first _ _ _ _ _ Oc) as [rest W].
    now exists e, rest.
Qed.

(** C5: in every run of [trades], returning or raising, the windows asked
    for form a chain: each window but the last is exactly 28 days long,
    ends before [end_] and ends where the next one starts; when the call
    returns, the last window is the one that ends at [end_].  The first
    window starts at the beginning of the day of [start].  Every window,
    the last one of a run that raises included, is a full one, exactly 28
    days long and ending before [end_], or the truncated one: it ends at
    [end_], no window follows it, it is at most 28 days long, and when it
    is not the first window it starts before [end_]. *)
Theorem trades_windows_chained (start end_ : datetime) (h : history) :
  valid_datetime start = true ->
  valid_datetime end_ = true ->
  let ws := windows_of (events (run_trades start end_ kw) h) in
  chained end_ ws
  /\ (is_ok (fst (run_trades start end_ kw h)) = true ->
      snd (last ws (start, start)) = end_)
  /\ (forall w rest, ws = w :: rest -> fst w = midnight start)
  /\ (forall pre w post,
        ws = pre ++ w :: post ->
        (datetime_sub (snd w) (fst w) = days_28
         /\ datetime_lt (snd w) end_ = true)
        \/ (snd w = end_ /\ post = []
            /\ timedelta_le (datetime_sub end_ (fst w)) days_28 = true
            /\ (pre <> [] -> datetime_lt (fst w) end_ = true))).
Proof.
  intros V Ve ws. subst ws.
  destruct (trades_run requests_post json_loads timestamp self kw
              start end_ h) as (out & evs & Rn & Ev & O).
  rewrite Ev, Rn. cbn [fst].
  pose proof (trades_plan_shape end_ Ve start V) as S.
  destruct O as [[rest P] O].
  split; [ | split; [ | split]].
  - pose proof (plan_shape_chained end_ Ve start _ V S) as C.
    rewrite P in C. now apply chained_prefix in C.
  - intros K.
    destruct out as [res | ex | ]; [ | discriminate ..].
    destruct O as (W & _). rewrite W.
    inversion S as [R' E | n R' L' U' E | n Q R' O' L' E];
      rewrite <- E in K; cbn in K; try discriminate.
    cbn [fst]. now rewrite last_last.
  - intros w tl E. rewrite E in P. cbn [app] in P.
    exact (plan_shape_first end_ start _ V S w _ P).
  - intros pre w post E. rewrite E, <- app_assoc in P. cbn [app] in P.
    destruct (plan_shape_windows end_ Ve start _ V S pre w _ P)
      as [F | (Es & Ep & Vw & U & L)]; [now left | right].
    apply app_eq_nil in Ep. destruct Ep as [-> _].
    repeat split.
    + exact Es.
    + apply timedelta_le_28. exact U.
    + intros N. rewrite datetime_lt_spec by assumption.
      apply Z.ltb_lt. auto.
Qed.

(** C6: a call of [trades] that returns gives the concatenation of the
    record lists of its fetches, in the order of the calls; every one of
    them succeeded.  A call returns or raises. *)
Theorem trades_result_is_concatenation (start end_ : datetime)
  (h : history) :
  valid_datetime start = true ->
  valid_datetime end_ = true ->
  match fst (run_trades start end_ kw h) with
  | Ok res =>
    res = List.concat
            (map data_of (fetches_of (events (run_trades start end_ kw) h)))
    /\ forallb is_ok (fetches_of (events (run_trades start end_ kw) h))
       = true
  | Raise _ => True
  | Timeout => False
  end.
Proof.
  intros V Ve.
  pose proof (trades_terminates start end_ h V Ve) as NT.
  destruct (trades_run requests_post json_loads timestamp self kw
              start end_ h) as (out & evs & Rn & Ev & O).
  rewrite Ev. rewrite Rn in *. cbn [fst] in *.
  destruct O as [_ O].
  destruct out as [res | ex | ]; [ | exact I | contradiction].
  destruct O as (_ & F & E). cbn [final_result] in *.
  destruct (snd (trades_plan start end_)) as [ | ex | ];
    [ | exact I | congruence].
  now split.
Qed.

(** C7: when a fetch of a run of [trades] raises, [trades] raises the same
    exception, no list is returned, and the failing call is the last event
    of the run: nothing is asked for after it, and every fetch before it
    succeeded. *)
Theorem trades_fail_fast (start end_ : datetime) (h : history) (ex : exn) :
  In (Raise ex) (fetches_of (events (run_trades start end_ kw) h)) ->
  fst (run_trades start end_ kw h) = Raise ex
  /\ exists pre s e,
       events (run_trades start end_ kw) h
       = pre ++ [GetTrades s e (Raise ex)]
       /\ forallb is_ok (fetches_of pre) = true.
Proof.
  intros K.
  destruct (trades_run requests_post json_loads timestamp self kw
              start end_ h) as (out & evs & Rn & Ev & O).
  rewrite Ev in *. clear Ev. rewrite Rn. cbn [fst].
  destruct O as [_ O].
  destruct out as [res | ex' | ]; [ | | contradiction].
  - destruct O as (_ & F & _).
    rewrite forallb_forall in F. specialize (F _ K). discriminate.
  - destruct O as (pre & ev & E & L & F). subst evs.
    rewrite fetches_of_app, L in K.
    apply in_app_or in K. destruct K as [K | [K | []]].
    + rewrite forallb_forall in F. specialize (F _ K). discriminate.
    + injection K as ->.
      destruct (fetches_of_last pre ev ex L) as (s & e & ->).
      split; [reflexivity | ]. now exists pre, s, e.
Qed.

(** C8, as the code has it: when [start] is after [end_] (and the calendar
    day of [start] is not after 9999-12-03) the loop body never runs:
    [trades] issues exactly one fetch, for the window from the beginning
    of the day of [start] to [end_]; the outcome of the call is the
    outcome of that fetch; the call is this fetch and nothing else, so no
    check of the two dates comes before it and nothing is raised on their
    account; and the window has a negative duration exactly when [end_]
    lies on an earlier calendar day than [start]. *)
Theorem trades_start_after_end (start end_ : datetime) (h : history) :
  valid_datetime start = true ->
  valid_datetime end_ = true ->
  toordinal start + 28 <= _MAXORDINAL ->
  datetime_lt end_ start = true ->
  windows_of (events (run_trades start end_ kw) h) = [(midnight start, end_)]
  /\ (exists o,
        fetches_of (events (run_trades start end_ kw) h) = [o]
        /\ fst (run_trades start end_ kw h) = rbind o (fun r => Ok (snd r)))
  /\ run_trades start end_ kw h
     = (r <- _get_trades requests_post json_loads timestamp self
               (midnight start) end_ kw ;;
        ret (snd r)) h
  /\ datetime_lt end_ (midnight start)
     = (toordinal end_ <? toordinal start).
Proof.
  intros V Ve R L.
  pose proof (midnight_valid start V) as Vm.
  pose proof (midnight_le start V) as Ml.
  pose proof (time_us_bounds end_ Ve) as Te.
  rewrite datetime_lt_spec in L by assumption. apply Z.ltb_lt in L.
  assert (U : datetime_us end_
              <= datetime_us (midnight start) + us_28_days)
    by (unfold us_28_days, us_per_day in *; lia).
  assert (Q : run_trades start end_ kw h
              = (r <- _get_trades requests_post json_loads timestamp self
                        (midnight start) end_ kw ;;
                 ret (snd r)) h).
  { rewrite trades_as_plan, (plan_single start end_ V Ve R U).
    cbn [fst snd fetch_each finish_with]. unfold bind.
    destruct (_get_trades requests_post json_loads timestamp self
                (midnight start) end_ kw h) as [[r | ex | ] h1];
      reflexivity. }
  destruct (trades_run requests_post json_loads timestamp self kw
              start end_ h) as (out & evs & Rn & Ev & O).
  rewrite (plan_single start end_ V Ve R U) in *. cbn [fst snd] in *.
  destruct (fetch_outcome_single_result _ _ _ O) as (o & F & E).
  split; [ | split; [ | split; [exact Q | ]]].
  - rewrite Ev. exact (fetch_outcome_single _ _ _ _ O).
  - rewrite Ev, Rn. cbn [fst]. exists o. split; [exact F | ].
    subst out. now destruct o.
  - rewrite datetime_lt_spec by assumption.
    rewrite midnight_us, datetime_us_split.
    unfold us_per_day in *.
    destruct (Z.ltb_spec (toordinal end_) (toordinal start));
      [apply Z.ltb_lt | apply Z.ltb_ge]; lia.
Qed.

End TradesClaims.

(** ** The entry points *)

Section EntryPoints.

Variable requests_post : history -> request -> string + string.
Variable json_loads : string -> option reply.
Variable timestamp : datetime -> exn + Z.
Variable connection : BinanceConnection.

Local Abbreviation run_fetch_trades :=
  (fetch_trades requests_post json_loads timestamp connection).
Local Abbreviation run_fetch_deposits :=
  (fetch_deposits requests_post json_loads connection).
Local Abbreviation run_fetch_withdrawals :=
  (fetch_withdrawals requests_post json_loads connection).

Lemma datetime_new_cases (y m d hh mm ss us : Z) :
  (datetime_new y m d hh mm ss us = Ok (mk_datetime y m d hh mm ss us) /\
   valid_datetime (mk_datetime y m d hh mm ss us) = true)
  \/ exists msg, datetime_new y m d hh mm ss us = Raise (ValueError msg).
Proof.
  unfold datetime_new, valid_datetime. cbn [year month day hour minute second microsecond].
  destruct (valid_date y m d); cbn; [ | right; eexists; reflexivity].
  destruct (valid_time hh mm ss us); cbn;
    [left; split; reflexivity | right; eexists; reflexivity].
Qed.

(** [strptime] gives a valid datetime or raises [ValueError]. *)
Lemma strptime_cases (s : string) :
  (exists d, strptime s = Ok d /\ valid_datetime d = true)
  \/ exists msg, strptime s = Raise (ValueError msg).
Proof.
  unfold strptime.
  destruct (format_regex s) as [|[vals rest] l];
    [right; eexists; reflexivity | ].
  destruct vals as [|y [|m [|d [|hh [|mm [|ss [|x vals]]]]]]];
    destruct rest; try (right; eexists; reflexivity).
  destruct (datetime_new_cases y m d hh mm ss 0) as [[E V] | [msg E]];
    rewrite E.
  - left. eexists. split; [reflexivity | exact V].
  - right. now exists msg.
Qed.

Lemma strptime_or_ok (message s : string) (d : datetime) :
  strptime s = Ok d -> strptime_or message (Some s) = Ok d.
Proof. intros E. unfold strptime_or. now rewrite E. Qed.

Lemma strptime_or_bad (message s : string) :
  is_ok (strptime s) = false ->
  strptime_or message (Some s) = Raise (ValueError message).
Proof.
  intros B. unfold strptime_or.
  destruct (strptime_cases s) as [(d & E & _) | (msg & E)]; rewrite E in *;
    [discriminate | reflexivity].
Qed.

(** A [ValueError] of [_get_trades] is one the clock raised. *)
Lemma get_trades_ValueError (s e : datetime) (kw : kwargs) (h : history)
  (msg : string) :
  fst (_get_trades requests_post json_loads timestamp connection s e kw h)
  = Raise (ValueError msg) ->
  exists d, timestamp d = inl (ValueError msg).
Proof.
  unfold _get_trades, logged, bind, lift, int_timestamp.
  destruct (timestamp s) as [ex | ts] eqn:Ts;
    [cbn; intros E; exists s; congruence | ].
  destruct (timestamp e) as [ex | te] eqn:Te;
    [cbn; intros E; exists e; congruence | ].
  unfold post, logged. cbn beta iota.
  match goal with
  | |- context [requests_post h ?r] =>
    destruct (requests_post h r) as [detail | text]
  end; [discriminate | ].
  unfold loads. destruct (json_loads text) as [[p d]|]; [ | discriminate].
  cbn [pages data getitem].
  destruct p as [p|]; [destruct d as [d|] | ]; discriminate.
Qed.

Lemma fetch_each_ValueError (kw : kwargs) (msg : string)
  (ws : list (datetime * datetime)) :
  forall (acc : list record) (h : history),
    fst (fetch_each requests_post json_loads timestamp connection kw ws
           acc h)
    = Raise (ValueError msg) ->
    exists d, timestamp d = inl (ValueError msg).
Proof.
  induction ws as [|[s e] ws IH]; intros acc h; [discriminate | ].
  cbn [fetch_each]. unfold bind.
  pose proof (get_trades_ValueError s e kw h msg) as G.
  destruct (_get_trades requests_post json_loads timestamp connection
              s e kw h) as [[r | ex | ] h1]; cbn [fst] in *;
    [apply IH | intros E; apply G; congruence | discriminate].
Qed.

(** The only exception of date arithmetic. *)
Lemma datetime_add_raise (d : datetime) (td : timedelta_t) (ex : exn) :
  datetime_add d td = Raise ex -> ex = date_overflow.
Proof.
  unfold datetime_add. destruct (_ && _).
  - destruct (_ord2ymd _) as [[y m] dd]. discriminate.
  - congruence.
Qed.

Lemma loop_plan_abort (end_ : datetime) (ex : exn) (fuel : nat) :
  forall s e,
    snd (loop_plan fuel end_ s e) = Aborted ex -> ex = date_overflow.
Proof.
  induction fuel as [|fuel IH]; intros s e; cbn; [discriminate | ].
  destruct (datetime_lt e end_); [ | discriminate].
  destruct (datetime_add e days_28) as [e' | ex' | ] eqn:A.
  - specialize (IH e e').
    destruct (loop_plan fuel end_ e e') as [[ws s'] x]. exact IH.
  - cbn. intros E. injection E as <-. exact (datetime_add_raise _ _ _ A).
  - discriminate.
Qed.

(** With a valid start, a [ValueError] of [trades] is one the clock
    raised in a fetch. *)
Lemma trades_ValueError (start end_ : datetime) (kw : kwargs)
  (h : history) (msg : string) :
  valid_datetime start = true ->
  fst (trades requests_post json_loads timestamp connection start end_ kw h)
  = Raise (ValueError msg) ->
  exists d, timestamp d = inl (ValueError msg).
Proof.
  intros V. rewrite trades_as_plan. unfold bind.
  pose proof (fetch_each_ValueError kw msg
                (fst (trades_plan start end_)) [] h) as F.
  destruct (fetch_each requests_post json_loads timestamp connection kw
              (fst (trades_plan start end_)) [] h)
    as [[acc | ex | ] h1]; cbn [fst] in *; [ | exact F | discriminate].
  unfold trades_plan. rewrite (replace_midnight start V).
  destruct (datetime_add _ days_28) as [e0 | ex | ] eqn:A.
  - match goal with
    | |- context [loop_plan ?f ?e ?s0 ?e1] =>
      pose proof (loop_plan_abort e (ValueError msg) f s0 e1) as L;
        destruct (loop_plan f e s0 e1) as [[ws s'] x]
    end.
    destruct x as [ | ex | ]; cbn in *; try discriminate.
    intros E. injection E as ->. specialize (L eq_refl). discriminate.
  - apply datetime_add_raise in A. subst ex. discriminate.
  - discriminate.
Qed.

(** C9: a start string that [strptime] rejects for the format
    [YYYY-MM-DD HH:MM:SS] makes [fetch_trades] raise the [ValueError] with
    the message about the start format, and an end string it rejects the
    one about the end format, both before anything is asked of the site;
    with a start and an end that are well formed, [fetch_trades] is the
    call of [trades] on the parsed dates, so that what it raises then,
    [trades] raised; and neither of the two format errors is among it, as
    long as the clock does not raise a [ValueError] with one of their
    messages. *)
Theorem fetch_trades_format_errors (arguments : Namespace) (s : string)
  (h : history) :
  arg_start arguments = Some s ->
  (is_ok (strptime s) = false ->
   run_fetch_trades arguments h
   = (Raise (ValueError start_format_message), h)
   /\ events (run_fetch_trades arguments) h = [])
  /\ (forall t,
        is_ok (strptime s) = true ->
        arg_end arguments = EndStr t ->
        is_ok (strptime t) = false ->
        run_fetch_trades arguments h
        = (Raise (ValueError end_format_message), h)
        /\ events (run_fetch_trades arguments) h = [])
  /\ (forall start_date end_date,
        strptime s = Ok start_date ->
        (arg_end arguments = EndDatetime end_date
         /\ valid_datetime end_date = true)
        \/ (exists t,
              arg_end arguments = EndStr t /\ strptime t = Ok end_date) ->
        run_fetch_trades arguments h
        = trades requests_post json_loads timestamp connection
            start_date end_date no_kwargs h
        /\ ((forall d msg,
               timestamp d = inl (ValueError msg) ->
               msg <> start_format_message /\ msg <> end_format_message) ->
            fst (run_fetch_trades arguments h)
            <> Raise (ValueError start_format_message)
            /\ fst (run_fetch_trades arguments h)
               <> Raise (ValueError end_format_message))).
Proof.
  intros A. unfold fetch_trades. rewrite A.
  assert (N : forall (A : Type) (m : M A) (out : result A),
             m h = (out, h) -> events m h = []).
  { intros T m out E. apply (events_intro m h [] out).
    now rewrite app_nil_r. }
  split; [ | split].
  - intros B. split; [ | eapply N];
      rewrite (strptime_or_bad _ s B); reflexivity.
  - intros t S Et B.
    destruct (strptime_cases s) as [(d & E & _) | (msg & E)];
      rewrite E in S; [ | discriminate].
    split; [ | eapply N];
      rewrite (strptime_or_ok _ s d E), Et, (strptime_or_bad _ t B);
      reflexivity.
  - intros start_date end_date E1 Hend.
    assert (V1 : valid_datetime start_date = true).
    { destruct (strptime_cases s) as [(d & E & V) | (m & E)];
        rewrite E in E1; congruence. }
    assert (V2 : valid_datetime end_date = true).
    { destruct Hend as [[_ V] | (t & _ & Et)]; [exact V | ].
      destruct (strptime_cases t) as [(d & E & V) | (m & E)];
        rewrite E in Et; congruence. }
    assert (E2 : match arg_end arguments with
                 | EndStr t => strptime_or end_format_message (Some t)
                 | EndDatetime d => Ok d
                 end = Ok end_date)
      by (destruct Hend as [[-> _] | (t & -> & E)];
          [ | rewrite (strptime_or_ok _ t end_date E)]; reflexivity).
    rewrite (strptime_or_ok _ s start_date E1), E2.
    split; [reflexivity | ].
    intros C. unfold bind at 1 3, lift at 1 3.
    split; intros Q;
      destruct (trades_ValueError start_date end_date no_kwargs h _ V1 Q)
        as (d & T);
      destruct (C d _ T); congruence.
Qed.

(** A call of [_get_exchanges] sends one request: the first page, with the
    given direction and no time range. *)
Lemma get_exchanges_run (symbol : option string) (type_ : Z) (h : history) :
  exists pout out,
    _get_exchanges requests_post json_loads connection symbol type_ h
    = (out,
       h ++ [Post (mk_request "https://www.binance.com/user/getMoneyLog.html"
                     (_headers connection)
                     [("coin", PStr (or_empty symbol));
                      ("direction", PInt type_);
                      ("rows", PInt 0);
                      ("page", PInt 1);
                      ("status", PStr "")]
                     (_cookies connection)) pout;
             GetExchanges type_ out]).
Proof.
  unfold _get_exchanges, logged, bind, lift, post, logged.
  match goal with
  | |- context [requests_post h ?r] =>
    set (req := r); destruct (requests_post h req) as [detail | text]
  end.
  - eexists _, _. rewrite <- app_assoc. reflexivity.
  - unfold loads. destruct (json_loads text) as [[p d]|].
    + cbn [pages data getitem].
      destruct p as [p|]; cbn;
        [destruct d as [d|]; cbn | ];
        eexists _, _; rewrite <- app_assoc; reflexivity.
    + eexists _, _. rewrite <- app_assoc. reflexivity.
Qed.

(** C10: [fetch_deposits] and [fetch_withdrawals] do not look at the start
    and the end of their arguments: with another time range they run the
    same, with the same result and the same history; each sends exactly
    one request, for page 1 of its direction, without any time range. *)
Theorem fetch_deposits_ignore_range (arguments : Namespace)
  (start : option string) (end_ : end_arg) (h : history) :
  run_fetch_deposits (with_range arguments start end_) h
  = run_fetch_deposits arguments h
  /\ run_fetch_withdrawals (with_range arguments start end_) h
     = run_fetch_withdrawals arguments h
  /\ requests_of (events (run_fetch_deposits arguments) h)
     = [mk_request "https://www.binance.com/user/getMoneyLog.html"
          (_headers connection)
          [("coin", PStr ""); ("direction", PInt 0); ("rows", PInt 0);
           ("page", PInt 1); ("status", PStr "")]
          (_cookies connection)]
  /\ requests_of (events (run_fetch_withdrawals arguments) h)
     = [mk_request "https://www.binance.com/user/getMoneyLog.html"
          (_headers connection)
          [("coin", PStr ""); ("direction", PInt 1); ("rows", PInt 0);
           ("page", PInt 1); ("status", PStr "")]
          (_cookies connection)].
Proof.
  assert (R : forall (e : Exchange.t),
             exists out evs,
               (r <- _get_exchanges requests_post json_loads connection None
                       (Exchange.value e) ;; ret (snd r)) h
               = (out, h ++ evs)
               /\ requests_of evs
                  = [mk_request
                       "https://www.binance.com/user/getMoneyLog.html"
                       (_headers connection)
                       [("coin", PStr "");
                        ("direction", PInt (Exchange.value e));
                        ("rows", PInt 0); ("page", PInt 1);
                        ("status", PStr "")]
                       (_cookies connection)]).
  { intros e.
    destruct (get_exchanges_run None (Exchange.value e) h)
      as (pout & out & E).
    unfold bind. rewrite E.
    destruct out as [r | ex | ]; eexists _, _; split; reflexivity. }
  repeat split.
  - destruct (R Exchange.DEPOSIT) as (out & evs & E & Q).
    unfold fetch_deposits, deposits.
    now rewrite (events_intro _ h evs out E).
  - destruct (R Exchange.WITHDRAWAL) as (out & evs & E & Q).
    unfold fetch_withdrawals, withdrawals.
    now rewrite (events_intro _ h evs out E).
Qed.

End EntryPoints.

(** ** Runs on concrete dates *)

(** Closes a goal about concrete dates by evaluation. *)
Ltac by_evaluation :=
  vm_compute;
  repeat match goal with
         | |- _ /\ _ => split
         end;
  first [reflexivity | discriminate].

(** The example of the specification: three windows, on 2018-01-05,
    2018-02-02 and 2018-03-02, the last one up to the end date. *)
Example trades_2018_windows :
  windows_of
    (events
       (trades answering_post answering_loads utc_timestamp
          example_connection (mk_datetime 2018 1 5 0 30 0 0)
          (mk_datetime 2018 3 10 0 0 0 0) no_kwargs) [])
  = [(mk_datetime 2018 1 5 0 0 0 0, mk_datetime 2018 2 2 0 0 0 0);
     (mk_datetime 2018 2 2 0 0 0 0, mk_datetime 2018 3 2 0 0 0 0);
     (mk_datetime 2018 3 2 0 0 0 0, mk_datetime 2018 3 10 0 0 0 0)].
Proof. vm_compute. reflexivity. Qed.

Example trades_2018_result :
  fst (trades answering_post answering_loads utc_timestamp
         example_connection (mk_datetime 2018 1 5 0 30 0 0)
         (mk_datetime 2018 3 10 0 0 0 0) no_kwargs [])
  = Ok [example_record; example_record; example_record].
Proof. vm_compute. reflexivity. Qed.

Example rows_parameter : str _MAX_TRADE_QUERY_COUNT = "1000".
Proof. reflexivity. Qed.

(** [strptime] accepts single digits and any run of blanks between date
    and time; it rejects impossible dates and trailing text. *)
Example strptime_examples :
  strptime "2018-01-05 00:30:00" = Ok (mk_datetime 2018 1 5 0 30 0 0)
  /\ strptime "2018-1-5 0:30:0" = Ok (mk_datetime 2018 1 5 0 30 0 0)
  /\ is_ok (strptime "2018-13-05 00:00:00") = false
  /\ is_ok (strptime "2018-02-30 00:00:00") = false
  /\ is_ok (strptime "2018-01-05T00:30:00") = false
  /\ is_ok (strptime "2018-01-05 00:30:00 UTC") = false.
Proof. by_evaluation. Qed.

(** A no-break space is a blank for [strptime], as for [str.isspace]. *)
Example strptime_no_break_space :
  strptime no_break_start = Ok (mk_datetime 2018 1 5 0 30 0 0)
  /\ Str.strip (String "160" "7f") = "7f".
Proof. by_evaluation. Qed.

(** On the first day of the calendar the clock of a machine on UTC raises
    [ValueError], and so does the fetch, and [trades] with it. *)
Example trades_on_first_day :
  trades answering_post answering_loads utc_timestamp example_connection
    (mk_datetime 1 1 1 12 0 0 0) (mk_datetime 1 1 1 6 0 0 0) no_kwargs []
  = (Raise (ValueError "year 0 is out of range"),
     [GetTrades (mk_datetime 1 1 1 0 0 0 0) (mk_datetime 1 1 1 6 0 0 0)
        (Raise (ValueError "year 0 is out of range"))]).
Proof. vm_compute. reflexivity. Qed.

(** The clock cuts the sum of seconds and microseconds, a double, towards
    zero: half a second before 1970 is second 0, and the last microsecond
    of the calendar is rounded up to the next second. *)
Example utc_timestamp_examples :
  utc_timestamp (mk_datetime 2018 1 5 0 30 0 0) = inr 1515112200
  /\ utc_timestamp (mk_datetime 1969 12 31 23 59 59 500000) = inr 0
  /\ utc_timestamp (mk_datetime 9999 12 31 23 59 59 999999)
     = inr 253402300800
  /\ utc_timestamp (mk_datetime 9999 12 31 23 59 59 999984)
     = inr 253402300799.
Proof. by_evaluation. Qed.

(** The theorem of C1 on a range of 15 days. *)
Lemma trades_single_window_witness :
  let start := mk_datetime 2018 1 5 0 30 0 0 in
  let end_ := mk_datetime 2018 1 20 8 0 0 0 in
  (valid_datetime start = true /\ valid_datetime end_ = true
   /\ toordinal start + 28 <= _MAXORDINAL
   /\ timedelta_le (datetime_sub end_ (midnight start)) days_28 = true)
  /\ windows_of
       (events
          (trades answering_post answering_loads utc_timestamp
             example_connection start end_ no_kwargs) [])
     = [(midnight start, end_)]
  /\ datetime_le (midnight start) start = true.
Proof.
  split; [by_evaluation | ].
  apply trades_single_window; by_evaluation.
Defined.

(** C1 as stated fails: 27 days and 18 hours after a noon start the end
    lies past the first window, which starts at midnight, and two fetches
    are issued. *)
Lemma trades_single_window_counterexample :
  let start := mk_datetime 2018 1 5 12 0 0 0 in
  let end_ := mk_datetime 2018 2 2 6 0 0 0 in
  valid_datetime start = true /\ valid_datetime end_ = true
  /\ timedelta_le (datetime_sub end_ start) days_28 = true
  /\ windows_of
       (events
          (trades answering_post answering_loads utc_timestamp
             example_connection start end_ no_kwargs) [])
     = [(mk_datetime 2018 1 5 0 0 0 0, mk_datetime 2018 2 2 0 0 0 0);
        (mk_datetime 2018 2 2 0 0 0 0, end_)].
Proof. by_evaluation. Qed.

(** The theorem of C2 on the example of the specification: two periods of
    28 days and a remainder of 8 days from 2018-01-05 00:00:00. *)
Lemma trades_window_count_witness :
  let start := mk_datetime 2018 1 5 0 30 0 0 in
  let end_ := mk_datetime 2018 3 10 0 0 0 0 in
  let run :=
    trades answering_post answering_loads utc_timestamp example_connection
      start end_ no_kwargs in
  (timedelta_us (datetime_sub end_ (midnight start))
   = 2 * timedelta_us days_28 + 691200000000
   /\ forallb is_ok (fetches_of (events run [])) = true)
  /\ windows_of (events run [])
     = full_windows 2 (midnight start)
       ++ [(plus_days (midnight start) (28 * 2), end_)]
  /\ List.length (windows_of (events run [])) = 3%nat
  /\ increasing (boundaries (windows_of (events run []))) = true
  /\ snd (last (windows_of (events run [])) (start, start)) = end_
  /\ is_ok (fst (run [])) = true.
Proof.
  split; [by_evaluation | ].
  apply (trades_window_count answering_post answering_loads utc_timestamp
           example_connection no_kwargs (mk_datetime 2018 1 5 0 30 0 0)
           (mk_datetime 2018 3 10 0 0 0 0) 2 691200000000 []);
    by_evaluation.
Defined.

(** C2 as stated fails: from a noon start, one period of 28 days and a
    remainder of 27 days and 18 hours make three fetches, not two. *)
Lemma trades_window_count_counterexample :
  let start := mk_datetime 2018 1 5 12 0 0 0 in
  let end_ := mk_datetime 2018 3 2 6 0 0 0 in
  let run :=
    trades answering_post answering_loads utc_timestamp example_connection
      start end_ no_kwargs in
  timedelta_us (datetime_sub end_ start)
  = 1 * timedelta_us days_28 + 2397600000000
  /\ 0 < 2397600000000 < timedelta_us days_28
  /\ forallb is_ok (fetches_of (events run [])) = true
  /\ List.length (windows_of (events run [])) = 3%nat.
Proof. by_evaluation. Qed.

(** The theorem of C3 on a call with the start equal to the end. *)
Lemma trades_final_fetch_witness :
  let start := mk_datetime 2018 1 5 0 30 0 0 in
  let run :=
    trades answering_post answering_loads utc_timestamp example_connection
      start start no_kwargs in
  (valid_datetime start = true /\ toordinal start + 28 <= _MAXORDINAL)
  /\ windows_of (events run []) <> []
  /\ (is_ok (fst (run [])) = true ->
      snd (last (windows_of (events run [])) (start, start)) = start)
  /\ (start = start -> windows_of (events run []) = [(midnight start, start)]).
Proof.
  split; [by_evaluation | ].
  apply (trades_final_fetch answering_post answering_loads utc_timestamp
           example_connection no_kwargs (mk_datetime 2018 1 5 0 30 0 0)
           (mk_datetime 2018 1 5 0 30 0 0) []);
    by_evaluation.
Defined.

(** C3 as stated fails: on the last day of the calendar the first window
    end does not exist, [trades] raises and no fetch is issued. *)
Lemma trades_final_fetch_counterexample :
  let start := mk_datetime 9999 12 31 0 0 0 0 in
  let run :=
    trades answering_post answering_loads utc_timestamp example_connection
      start start no_kwargs in
  valid_datetime start = true
  /\ windows_of (events run []) = []
  /\ run [] = (Raise date_overflow, []).
Proof. by_evaluation. Qed.

(** The theorem of C4 on the start of the example: the first window runs
    from 2018-01-05 00:00:00 to 2018-02-02 00:00:00. *)
Lemma trades_first_window_witness :
  let start := mk_datetime 2018 1 5 0 30 0 0 in
  (valid_datetime start = true /\ toordinal start + 28 <= _MAXORDINAL)
  /\ replace start 0 0 0 0 = Ok (mk_datetime 2018 1 5 0 0 0 0)
  /\ datetime_add (mk_datetime 2018 1 5 0 0 0 0) days_28
     = Ok (mk_datetime 2018 2 2 0 0 0 0).
Proof.
  split; [by_evaluation | ].
  pose proof (trades_first_window answering_post answering_loads
                utc_timestamp example_connection no_kwargs
                (mk_datetime 2018 1 5 0 30 0 0)
                ltac:(by_evaluation) ltac:(by_evaluation))
    as (R & A & _).
  split; [exact R | exact A].
Defined.

(** C4 as stated fails: for a start in the last 28 days of the calendar
    the first window end cannot be set, and [trades] raises on the spot. *)
Lemma trades_first_window_counterexample :
  let start := mk_datetime 9999 12 15 8 0 0 0 in
  let end_ := mk_datetime 9999 12 20 0 0 0 0 in
  valid_datetime start = true /\ valid_datetime end_ = true
  /\ replace start 0 0 0 0 = Ok (mk_datetime 9999 12 15 0 0 0 0)
  /\ datetime_add (mk_datetime 9999 12 15 0 0 0 0) days_28
     = Raise date_overflow
  /\ trades answering_post answering_loads utc_timestamp example_connection
       start end_ no_kwargs []
     = (Raise date_overflow, []).
Proof. by_evaluation. Qed.

(** The theorem of C5 on the example of the specification. *)
Lemma trades_windows_chained_witness :
  let start := mk_datetime 2018 1 5 0 30 0 0 in
  let end_ := mk_datetime 2018 3 10 0 0 0 0 in
  let run :=
    trades answering_post answering_loads utc_timestamp example_connection
      start end_ no_kwargs in
  let ws := windows_of (events run []) in
  (valid_datetime start = true /\ valid_datetime end_ = true)
  /\ chained end_ ws
  /\ (is_ok (fst (run [])) = true ->
      snd (last ws (start, start)) = end_)
  /\ (forall w rest, ws = w :: rest -> fst w = midnight start)
  /\ (forall pre w post,
        ws = pre ++ w :: post ->
        (datetime_sub (snd w) (fst w) = days_28
         /\ datetime_lt (snd w) end_ = true)
        \/ (snd w = end_ /\ post = []
            /\ timedelta_le (datetime_sub end_ (fst w)) days_28 = true
            /\ (pre <> [] -> datetime_lt (fst w) end_ = true))).
Proof.
  split; [by_evaluation | ].
  apply (trades_windows_chained answering_post answering_loads
           utc_timestamp example_connection no_kwargs
           (mk_datetime 2018 1 5 0 30 0 0) (mk_datetime 2018 3 10 0 0 0 0)
           []);
    by_evaluation.
Defined.

(** The theorem of C6 on the example of the specification. *)
Lemma trades_result_is_concatenation_witness :
  let start := mk_datetime 2018 1 5 0 30 0 0 in
  let end_ := mk_datetime 2018 3 10 0 0 0 0 in
  let run :=
    trades answering_post answering_loads utc_timestamp example_connection
      start end_ no_kwargs in
  (valid_datetime start = true /\ valid_datetime end_ = true)
  /\ match fst (run []) with
     | Ok res =>
       res = List.concat (map data_of (fetches_of (events run [])))
       /\ forallb is_ok (fetches_of (events run [])) = true
     | Raise _ => True
     | Timeout => False
     end.
Proof.
  split; [by_evaluation | ].
  apply (trades_result_is_concatenation answering_post answering_loads
           utc_timestamp example_connection no_kwargs
           (mk_datetime 2018 1 5 0 30 0 0) (mk_datetime 2018 3 10 0 0 0 0)
           []);
    by_evaluation.
Defined.

(** The theorem of C7 on a site that fails on the second request: the
    second window is the last one asked for, and [trades] raises what the
    fetch raised. *)
Lemma trades_fail_fast_witness :
  let start := mk_datetime 2018 1 5 0 30 0 0 in
  let end_ := mk_datetime 2018 3 10 0 0 0 0 in
  let run :=
    trades failing_post answering_loads utc_timestamp example_connection
      start end_ no_kwargs in
  let ex := RequestException "connection reset" in
  In (Raise ex) (fetches_of (events run []))
  /\ fst (run []) = Raise ex
  /\ exists pre s e,
       events run [] = pre ++ [GetTrades s e (Raise ex)]
       /\ forallb is_ok (fetches_of pre) = true.
Proof.
  assert (K : In (Raise (RequestException "connection reset"))
                (fetches_of
                   (events
                      (trades failing_post answering_loads utc_timestamp
                         example_connection (mk_datetime 2018 1 5 0 30 0 0)
                         (mk_datetime 2018 3 10 0 0 0 0) no_kwargs) [])))
    by (vm_compute; right; left; reflexivity).
  split; [exact K | ].
  exact (trades_fail_fast failing_post answering_loads utc_timestamp
           example_connection no_kwargs (mk_datetime 2018 1 5 0 30 0 0)
           (mk_datetime 2018 3 10 0 0 0 0) []
           (RequestException "connection reset") K).
Defined.

Example trades_fail_fast_windows :
  windows_of
    (events
       (trades failing_post answering_loads utc_timestamp example_connection
          (mk_datetime 2018 1 5 0 30 0 0) (mk_datetime 2018 3 10 0 0 0 0)
          no_kwargs) [])
  = [(mk_datetime 2018 1 5 0 0 0 0, mk_datetime 2018 2 2 0 0 0 0);
     (mk_datetime 2018 2 2 0 0 0 0, mk_datetime 2018 3 2 0 0 0 0)].
Proof. vm_compute. reflexivity. Qed.

(** The theorem of C8 on an end the day before the start. *)
Lemma trades_start_after_end_witness :
  let start := mk_datetime 2018 1 6 12 0 0 0 in
  let end_ := mk_datetime 2018 1 5 6 0 0 0 in
  let run :=
    trades answering_post answering_loads utc_timestamp example_connection
      start end_ no_kwargs in
  (valid_datetime start = true /\ valid_datetime end_ = true
   /\ toordinal start + 28 <= _MAXORDINAL
   /\ datetime_lt end_ start = true)
  /\ windows_of (events run []) = [(midnight start, end_)]
  /\ (exists o,
        fetches_of (events run []) = [o]
        /\ fst (run []) = rbind o (fun r => Ok (snd r)))
  /\ run []
     = (r <- _get_trades answering_post answering_loads utc_timestamp
               example_connection (midnight start) end_ no_kwargs ;;
        ret (snd r)) []
  /\ datetime_lt end_ (midnight start)
     = (toordinal end_ <? toordinal start).
Proof.
  split; [by_evaluation | ].
  apply (trades_start_after_end answering_post answering_loads
           utc_timestamp example_connection no_kwargs
           (mk_datetime 2018 1 6 12 0 0 0) (mk_datetime 2018 1 5 6 0 0 0)
           []);
    by_evaluation.
Defined.

(** C8 as stated fails: with the end six hours before the start on the
    same day, the one window asked for runs from midnight to the end and
    has a positive duration. *)
Lemma trades_start_after_end_counterexample :
  let start := mk_datetime 2018 1 5 12 0 0 0 in
  let end_ := mk_datetime 2018 1 5 6 0 0 0 in
  let run :=
    trades answering_post answering_loads utc_timestamp example_connection
      start end_ no_kwargs in
  valid_datetime start = true /\ valid_datetime end_ = true
  /\ datetime_lt end_ start = true
  /\ windows_of (events run []) = [(mk_datetime 2018 1 5 0 0 0 0, end_)]
  /\ datetime_lt (mk_datetime 2018 1 5 0 0 0 0) end_ = true
  /\ timedelta_lt (datetime_sub end_ (mk_datetime 2018 1 5 0 0 0 0))
       (timedelta 0 0 0 0 0) = false.
Proof. by_evaluation. Qed.

(** The theorem of C9 on a month 13, on an end that is no date, and on the
    example of the specification. *)
Lemma fetch_trades_format_errors_witness :
  let run :=
    fetch_trades answering_post answering_loads utc_timestamp
      example_connection in
  (run (example_arguments "2018-13-05 00:00:00" "2018-03-10 00:00:00") []
   = (Raise (ValueError start_format_message), [])
   /\ events
        (run (example_arguments "2018-13-05 00:00:00" "2018-03-10 00:00:00"))
        [] = [])
  /\ (run (example_arguments "2018-01-05 00:30:00" "tomorrow") []
      = (Raise (ValueError end_format_message), [])
      /\ events
           (run (example_arguments "2018-01-05 00:30:00" "tomorrow")) []
         = [])
  /\ ((forall d msg,
         utc_timestamp d = inl (ValueError msg) ->
         msg <> start_format_message /\ msg <> end_format_message)
      /\ run (example_arguments no_break_start "2018-03-10 00:00:00") []
         = trades answering_post answering_loads utc_timestamp
             example_connection (mk_datetime 2018 1 5 0 30 0 0)
             (mk_datetime 2018 3 10 0 0 0 0) no_kwargs []
      /\ fst (run (example_arguments no_break_start
                     "2018-03-10 00:00:00") [])
         <> Raise (ValueError start_format_message)
      /\ fst (run (example_arguments no_break_start
                     "2018-03-10 00:00:00") [])
         <> Raise (ValueError end_format_message)).
Proof.
  assert (C : forall d msg,
             utc_timestamp d = inl (ValueError msg) ->
             msg <> start_format_message /\ msg <> end_format_message).
  { intros d msg. unfold utc_timestamp.
    destruct (toordinal d =? 1).
    - intros E. injection E as <-. split; discriminate.
    - destruct (double_div (microsecond d) 1000000). discriminate. }
  cbv zeta. split; [ | split].
  - apply (proj1 (fetch_trades_format_errors answering_post answering_loads
                    utc_timestamp example_connection
                    (example_arguments "2018-13-05 00:00:00"
                       "2018-03-10 00:00:00")
                    "2018-13-05 00:00:00" [] eq_refl)).
    by_evaluation.
  - apply (proj1 (proj2 (fetch_trades_format_errors answering_post
                           answering_loads utc_timestamp example_connection
                           (example_arguments "2018-01-05 00:30:00"
                              "tomorrow")
                           "2018-01-05 00:30:00" [] eq_refl))
             "tomorrow");
      by_evaluation.
  - split; [exact C | ].
    destruct (proj2 (proj2 (fetch_trades_format_errors answering_post
                              answering_loads utc_timestamp
                              example_connection
                              (example_arguments no_break_start
                                 "2018-03-10 00:00:00")
                              no_break_start [] eq_refl))
                (mk_datetime 2018 1 5 0 30 0 0)
                (mk_datetime 2018 3 10 0 0 0 0))
      as [E N].
    + by_evaluation.
    + right. exists "2018-03-10 00:00:00". by_evaluation.
    + split; [exact E | exact (N C)].
Defined.

(** ** Strings *)

Section StringFacts.

Lemma split_not_nil (sep : ascii) (s : string) : Str.split sep s <> [].
Proof.
  induction s as [|c r IH]; cbn; [discriminate | ].
  destruct (Ascii.eqb c sep); [discriminate | ].
  destruct (Str.split sep r); discriminate.
Qed.

Lemma split_length (sep : ascii) (s : string) :
  List.length (Str.split sep s) = S (Str.count sep s).
Proof.
  induction s as [|c r IH]; cbn; [reflexivity | ].
  destruct (Ascii.eqb c sep); cbn; [now rewrite IH | ].
  destruct (Str.split sep r) as [|p ps] eqn:E; [now apply split_not_nil in E | ].
  exact IH.
Qed.

Lemma count_app (c : ascii) (s t : string) :
  Str.count c (s ++ t) = (Str.count c s + Str.count c t)%nat.
Proof.
  induction s as [|a r IH]; cbn; [reflexivity | ].
  destruct (Ascii.eqb a c); cbn; now rewrite IH.
Qed.

Lemma split_no_sep (sep : ascii) (s : string) :
  Str.count sep s = O -> Str.split sep s = [s].
Proof.
  induction s as [|c r IH]; cbn; [reflexivity | ].
  destruct (Ascii.eqb c sep); [discriminate | ].
  intros E. now rewrite (IH E).
Qed.

(** Text without separator added at the end goes to the last piece. *)
Lemma split_app_no_sep (sep : ascii) (s t : string) :
  Str.count sep t = O ->
  Str.split sep (s ++ t) = Str.append_last (Str.split sep s) t.
Proof.
  intros T. induction s as [|c r IH]; cbn.
  - now apply split_no_sep.
  - destruct (Ascii.eqb c sep).
    + rewrite IH.
      destruct (Str.split sep r) as [|p ps] eqn:E;
        [now apply split_not_nil in E | reflexivity].
    + rewrite IH.
      destruct (Str.split sep r) as [|p ps] eqn:E;
        [now apply split_not_nil in E | ].
      destruct ps; reflexivity.
Qed.

(** Splitting at the separator that joined pieces free of it gives the
    pieces back. *)
Lemma split_join (sep : ascii) (l : list string) :
  l <> [] ->
  Forall (fun p => Str.count sep p = O) l ->
  Str.split sep (Str.join (String sep EmptyString) l) = l.
Proof.
  intros N F. induction l as [|x l IH]; [congruence | ].
  inversion F as [|? ? Fx Fl]; subst.
  destruct l as [|y l]; [now apply split_no_sep | ].
  assert (S : forall p q,
             Str.count sep p = O ->
             Str.split sep (p ++ (String sep EmptyString ++ q))
             = p :: Str.split sep q).
  { intros p q. induction p as [|c r IHr]; cbn in *.
    - rewrite Ascii.eqb_refl. reflexivity.
    - destruct (Ascii.eqb c sep); [discriminate | ].
      intros E. now rewrite (IHr E). }
  change (Str.join (String sep EmptyString) (x :: y :: l))
    with (x ++ (String sep EmptyString
                ++ Str.join (String sep EmptyString) (y :: l)))%string.
  rewrite (S _ _ Fx). f_equal. apply IH; [discriminate | assumption].
Qed.

Lemma blank_no_char (c : ascii) (t : string) :
  Str.isspace c = false -> Str.blank t = true -> Str.count c t = O.
Proof.
  intros C. induction t as [|a r IH]; cbn; [reflexivity | ].
  intros B. apply andb_true_iff in B. destruct B as [Ba Br].
  destruct (Ascii.eqb_spec a c) as [-> | _]; [congruence | auto].
Qed.

Lemma lstrip_blank (t : string) : Str.blank t = true -> Str.lstrip t = "".
Proof.
  induction t as [|a r IH]; cbn; [reflexivity | ].
  intros B. apply andb_true_iff in B. destruct B as [-> Br]. auto.
Qed.

Lemma rstrip_app_blank (u t : string) :
  Str.blank t = true -> Str.rstrip (u ++ t) = Str.rstrip u.
Proof.
  intros B. induction u as [|c r IH]; cbn.
  - induction t as [|a q IHq]; cbn in *; [reflexivity | ].
    apply andb_true_iff in B. destruct B as [-> Bq].
    now rewrite (IHq Bq).
  - now rewrite IH.
Qed.

Lemma lstrip_app (v t : string) :
  Str.lstrip (v ++ t)
  = if Str.blank v then Str.lstrip t else (Str.lstrip v ++ t)%string.
Proof.
  induction v as [|c r IH]; cbn; [reflexivity | ].
  destruct (Str.isspace c); cbn; [exact IH | reflexivity].
Qed.

(** Blanks added at the end are stripped. *)
Lemma strip_app_blank (v t : string) :
  Str.blank t = true -> Str.strip (v ++ t) = Str.strip v.
Proof.
  intros B. unfold Str.strip. rewrite lstrip_app.
  destruct (Str.blank v) eqn:Bv.
  - now rewrite (lstrip_blank t B), (lstrip_blank v Bv).
  - now apply rstrip_app_blank.
Qed.

End StringFacts.

(** ** The cookies of a connection *)

Section CookieFacts.

Lemma split_piece (sep : ascii) (p q : string) :
  Str.count sep p = O ->
  Str.split sep (p ++ String sep q) = p :: Str.split sep q.
Proof.
  induction p as [|c r IH]; cbn.
  - rewrite Ascii.eqb_refl. reflexivity.
  - destruct (Ascii.eqb c sep); [discriminate | ].
    intros E. now rewrite (IH E).
Qed.

Lemma split_cookie_text (nv : string * string) :
  Str.count "=" (fst nv) = O -> Str.count "=" (snd nv) = O ->
  Str.split "=" (cookie_text nv) = [fst nv; snd nv].
Proof.
  intros N V. unfold cookie_text.
  change ("=" ++ snd nv)%string with (String "=" (snd nv)).
  now rewrite (split_piece _ _ _ N), (split_no_sep _ _ V).
Qed.

Lemma unpack2_cases (l : list string) :
  (exists a b, l = [a; b] /\ unpack2 l = Ok (a, b))
  \/ (List.length l <> 2%nat /\ exists msg, unpack2 l = Raise (ValueError msg)).
Proof.
  destruct l as [|a [|b [|c l]]]; cbn.
  - right. split; [discriminate | eexists; reflexivity].
  - right. split; [discriminate | eexists; reflexivity].
  - left. now exists a, b.
  - right. split; [discriminate | eexists; reflexivity].
Qed.

(** The loop over the cookies ends well exactly when every piece holds one
    [=]; otherwise it raises [ValueError]. *)
Lemma cookie_loop_cases (l : list string) :
  forall d,
    (Forall (fun p => Str.count "=" p = 1%nat) l
     /\ exists c, cookie_loop l d = Ok c)
    \/ (~ Forall (fun p => Str.count "=" p = 1%nat) l
        /\ exists msg, cookie_loop l d = Raise (ValueError msg)).
Proof.
  induction l as [|p l IH]; intros d; cbn.
  - left. split; [constructor | now exists d].
  - pose proof (split_length "=" p) as Len.
    destruct (unpack2_cases (Str.split "=" p))
      as [(a & b & E & U) | (N & msg & U)]; rewrite U; cbn.
    + rewrite E in Len. cbn in Len.
      destruct (IH (setitem d a (Str.strip b)))
        as [[F [c C]] | [F [msg C]]].
      * left. split; [constructor; [lia | assumption] | now exists c].
      * right. split; [ | now exists msg].
        intros G. inversion G. contradiction.
    + right. split; [ | now exists msg].
      intros G. inversion G. lia.
Qed.

Lemma setitem_fresh (d : list (string * string)) (k v : string) :
  ~ In k (map fst d) -> setitem d k v = d ++ [(k, v)].
Proof.
  induction d as [|[k' v'] d IH]; cbn; [reflexivity | ].
  intros N. destruct (String.eqb_spec k' k) as [-> | _]; [tauto | ].
  rewrite IH; tauto.
Qed.

Lemma lookup_setitem (d : list (string * string)) (k v key : string) :
  lookup (setitem d k v) key
  = if String.eqb k key then Some v else lookup d key.
Proof.
  unfold lookup. induction d as [|[k' v'] d IH]; cbn.
  - destruct (String.eqb k key); reflexivity.
  - destruct (String.eqb_spec k' k) as [-> | N]; cbn.
    + destruct (String.eqb k key); reflexivity.
    + destruct (String.eqb_spec k' key) as [-> | N']; cbn.
      * destruct (String.eqb_spec k key) as [-> | _]; [congruence | reflexivity].
      * exact IH.
Qed.

Lemma lookup_app (d1 d2 : list (string * string)) (key : string) :
  lookup (d1 ++ d2) key
  = match lookup d1 key with
    | Some v => Some v
    | None => lookup d2 key
    end.
Proof.
  unfold lookup. induction d1 as [|[k v] d1 IH]; cbn; [reflexivity | ].
  destruct (String.eqb k key); [reflexivity | exact IH].
Qed.

(** On well-formed cookies the loop assigns every name its stripped value,
    in the order of the cookies. *)
Lemma cookie_loop_pairs (pairs : list (string * string)) :
  Forall (fun nv => cookie_safe (fst nv) /\ cookie_safe (snd nv)) pairs ->
  forall d,
    cookie_loop (map cookie_text pairs) d
    = Ok (fold_left (fun d nv => setitem d (fst nv) (Str.strip (snd nv)))
            pairs d).
Proof.
  induction 1 as [|nv pairs [[_ N] [_ V]] F IH]; intros d; cbn;
    [reflexivity | ].
  rewrite (split_cookie_text nv N V). cbn. apply IH.
Qed.

Lemma split_cookies (pairs : list (string * string)) :
  pairs <> [] ->
  Forall (fun nv => cookie_safe (fst nv) /\ cookie_safe (snd nv)) pairs ->
  Str.split ";" (Str.join ";" (map cookie_text pairs))
  = map cookie_text pairs.
Proof.
  intros N F. apply split_join.
  - destruct pairs; [congruence | discriminate].
  - apply Forall_map. eapply Forall_impl; [ | exact F].
    intros nv [[A _] [B _]]. unfold cookie_text.
    rewrite !count_app, A, B. reflexivity.
Qed.

End CookieFacts.

Section CookieProperties.

Variable csrftoken : string.

Lemma fold_setitem_fresh (pairs : list (string * string)) :
  forall d,
    NoDup (map fst d ++ map fst pairs) ->
    fold_left (fun d nv => setitem d (fst nv) (Str.strip (snd nv))) pairs d
    = d ++ stripped pairs.
Proof.
  induction pairs as [|[n v] pairs IH]; intros d N; cbn.
  - now rewrite app_nil_r.
  - cbn in N. rewrite setitem_fresh.
    + rewrite IH.
      * now rewrite <- app_assoc.
      * rewrite map_app. cbn. rewrite <- app_assoc. exact N.
    + apply NoDup_remove_2 in N. intros I. apply N.
      apply in_or_app. now left.
Qed.

Lemma lookup_stripped (l : list (string * string)) (key : string) :
  lookup (stripped l) key = option_map Str.strip (lookup l key).
Proof.
  unfold lookup, stripped. induction l as [|[k v] l IH]; cbn;
    [reflexivity | ].
  destruct (String.eqb k key); [reflexivity | exact IH].
Qed.

Lemma lookup_fold_setitem (pairs : list (string * string)) (key : string) :
  forall d,
    lookup
      (fold_left (fun d nv => setitem d (fst nv) (Str.strip (snd nv)))
         pairs d) key
    = match lookup (stripped (rev pairs)) key with
      | Some v => Some v
      | None => lookup d key
      end.
Proof.
  induction pairs as [|[n v] pairs IH]; intros d; cbn [fold_left];
    [reflexivity | ].
  rewrite IH. cbn [rev]. unfold stripped at 2. rewrite map_app.
  fold (stripped (rev pairs)). rewrite lookup_app, lookup_setitem.
  destruct (lookup (stripped (rev pairs)) key); [reflexivity | ].
  unfold lookup. cbn. destruct (String.eqb n key); reflexivity.
Qed.

(** X1: [__init__] accepts a cookie string exactly when every piece
    between two [;] holds exactly one [=]; any other string, the empty one
    and one that ends in [;] included, makes it raise [ValueError]. *)
Theorem init_cookie_format (cookies : string) :
  (is_ok (__init__ csrftoken cookies) = true
   <-> Forall (fun p => Str.count "=" p = 1%nat) (Str.split ";" cookies))
  /\ (is_ok (__init__ csrftoken cookies) = false
      -> exists msg, __init__ csrftoken cookies = Raise (ValueError msg)).
Proof.
  unfold __init__.
  destruct (cookie_loop_cases (Str.split ";" cookies) [])
    as [[F [c C]] | [F [msg C]]]; rewrite C; cbn.
  - split; [tauto | discriminate].
  - split; [split; [discriminate | contradiction] | now exists msg].
Qed.

Lemma init_pairs (pairs : list (string * string)) :
  pairs <> [] ->
  Forall (fun nv => cookie_safe (fst nv) /\ cookie_safe (snd nv)) pairs ->
  NoDup (map fst pairs) ->
  __init__ csrftoken (Str.join ";" (map cookie_text pairs))
  = Ok (mk_connection (init_headers csrftoken) (stripped pairs)).
Proof.
  intros N F D. unfold __init__.
  rewrite (split_cookies pairs N F), (cookie_loop_pairs pairs F).
  now rewrite fold_setitem_fresh.
Qed.

(** X2: cookies written as [name=value] and joined with [;], with distinct
    names and no [;] or [=] inside a name or a value, are read back as
    given, each value stripped of the blanks around it, in the same
    order, next to the headers built around the token. *)
Theorem init_round_trip (pairs : list (string * string)) :
  pairs <> [] ->
  Forall (fun nv => cookie_safe (fst nv) /\ cookie_safe (snd nv)) pairs ->
  NoDup (map fst pairs) ->
  __init__ csrftoken (Str.join ";" (map cookie_text pairs))
  = Ok (mk_connection (init_headers csrftoken) (stripped pairs)).
Proof. exact (init_pairs pairs). Qed.

(** X3: when a name occurs in several cookies, the connection keeps the
    value of the last one. *)
Theorem init_last_cookie_wins (pairs : list (string * string)) :
  pairs <> [] ->
  Forall (fun nv => cookie_safe (fst nv) /\ cookie_safe (snd nv)) pairs ->
  exists conn,
    __init__ csrftoken (Str.join ";" (map cookie_text pairs)) = Ok conn
    /\ forall name,
         lookup (_cookies conn) name = lookup (stripped (rev pairs)) name.
Proof.
  intros N F. unfold __init__.
  rewrite (split_cookies pairs N F), (cookie_loop_pairs pairs F).
  eexists. split; [reflexivity | ].
  intros name. cbn [_cookies]. rewrite lookup_fold_setitem.
  now destruct (lookup (stripped (rev pairs)) name).
Qed.

Lemma isspace_not_separator (c : ascii) :
  Str.isspace c = true -> Ascii.eqb c ";" = false /\ Ascii.eqb c "=" = false.
Proof.
  destruct c as [[] [] [] [] [] [] [] []]; vm_compute; intros E;
    first [discriminate E | split; reflexivity].
Qed.

Lemma blank_no_separator (t : string) :
  Str.blank t = true -> Str.count ";" t = O /\ Str.count "=" t = O.
Proof.
  induction t as [|a r IH]; cbn; [split; reflexivity | ].
  intros B. apply andb_true_iff in B. destruct B as [Ba Br].
  destruct (isspace_not_separator a Ba) as [-> ->]. auto.
Qed.

Lemma unpack2_append_last (l : list string) (t : string) :
  unpack2 (Str.append_last l t)
  = rbind (unpack2 l) (fun nv => Ok (fst nv, (snd nv ++ t)%string)).
Proof.
  destruct l as [|a [|b [|c l]]]; try reflexivity.
  cbn. destruct l; reflexivity.
Qed.

Lemma cookie_loop_append_last (t : string) (l : list string) :
  Str.blank t = true ->
  forall d, cookie_loop (Str.append_last l t) d = cookie_loop l d.
Proof.
  intros B. destruct (blank_no_separator t B) as [_ Eq].
  induction l as [|x l IH]; intros d; [reflexivity | ].
  destruct l as [|y l].
  - cbn [Str.append_last cookie_loop].
    rewrite (split_app_no_sep "=" x t Eq), unpack2_append_last.
    destruct (unpack2 (Str.split "=" x)) as [[n v] | e | ];
      cbn [rbind fst snd cookie_loop]; [ | reflexivity ..].
    now rewrite (strip_app_blank v t B).
  - change (Str.append_last (x :: y :: l) t)
      with (x :: Str.append_last (y :: l) t).
    cbn [cookie_loop].
    destruct (unpack2 (Str.split "=" x)) as [[n v] | e | ];
      cbn [rbind fst snd]; [apply IH | reflexivity ..].
Qed.

Lemma init_blank_suffix (cookies t : string) :
  Str.blank t = true ->
  __init__ csrftoken (cookies ++ t) = __init__ csrftoken cookies.
Proof.
  intros B. destruct (blank_no_separator t B) as [Es _].
  unfold __init__.
  now rewrite (split_app_no_sep ";" cookies t Es),
    (cookie_loop_append_last t _ B).
Qed.

(** X4: blanks after the cookie string, such as the line end that
    [readlines] leaves on the line [main] passes, change nothing: the
    connection, or the exception, is the same as without them. *)
Theorem init_trailing_blanks (cookies t : string) :
  Str.blank t = true ->
  __init__ csrftoken (cookies ++ t) = __init__ csrftoken cookies.
Proof. exact (init_blank_suffix cookies t). Qed.

Lemma join_spaced (l : list string) :
  l <> [] ->
  Str.join ";" (map (String " ") l) = String " " (Str.join "; " l).
Proof.
  intros N. induction l as [|x l IH]; [congruence | ].
  destruct l as [|y l]; [reflexivity | ].
  change (Str.join ";" (map (String " ") (x :: y :: l)))
    with (String " " x ++ (";" ++ Str.join ";" (map (String " ") (y :: l))))%string.
  rewrite IH by discriminate.
  change (Str.join "; " (x :: y :: l))
    with (x ++ ("; " ++ Str.join "; " (y :: l)))%string.
  reflexivity.
Qed.

Lemma join_browser (pairs : list (string * string)) :
  Str.join "; " (map cookie_text pairs)
  = Str.join ";" (map cookie_text (spaced pairs)).
Proof.
  destruct pairs as [|p ps]; [reflexivity | ].
  destruct ps as [|q ps]; [reflexivity | ].
  change (Str.join "; " (map cookie_text (p :: q :: ps)))
    with (cookie_text p
          ++ ("; " ++ Str.join "; " (map cookie_text (q :: ps))))%string.
  unfold spaced.
  change (Str.join ";"
            (map cookie_text
               (p :: map (fun nv => (String " " (fst nv), snd nv)) (q :: ps))))
    with (cookie_text p
          ++ (";" ++ Str.join ";"
                       (map cookie_text
                          (map (fun nv => (String " " (fst nv), snd nv))
                             (q :: ps)))))%string.
  rewrite map_map.
  change (fun x : string * string =>
            cookie_text (String " " (fst x), snd x))
    with (fun x : string * string => String " " (cookie_text x)).
  rewrite <- (map_map cookie_text (String " ")).
  rewrite join_spaced by discriminate. reflexivity.
Qed.

(** X5: cookies written as a browser shows them, with a blank after each
    [;], are accepted, but every name except the first is stored with
    that blank in front: names are not stripped, values are. *)
Theorem init_browser_format (pairs : list (string * string)) :
  pairs <> [] ->
  Forall (fun nv => cookie_safe (fst nv) /\ cookie_safe (snd nv)) pairs ->
  NoDup (map fst pairs) ->
  Forall (fun nv => Str.lstrip (fst nv) = fst nv) pairs ->
  __init__ csrftoken (Str.join "; " (map cookie_text pairs))
  = Ok (mk_connection (init_headers csrftoken) (stripped (spaced pairs))).
Proof.
  intros N F D L. rewrite join_browser.
  destruct pairs as [|p ps]; [congruence | ].
  apply init_pairs.
  - discriminate.
  - inversion F as [|? ? Fp Fps]; subst. cbn. constructor; [exact Fp | ].
    apply Forall_map. eapply Forall_impl; [ | exact Fps].
    intros nv [[A B] C]. cbn. unfold cookie_safe in *. cbn. tauto.
  - cbn. rewrite map_map. cbn.
    inversion D as [|? ? Dp Dps]; subst.
    inversion L as [|? ? Lp Lps]; subst.
    constructor.
    + intros I. apply in_map_iff in I. destruct I as (nv & E & _).
      rewrite <- E in Lp. cbn in Lp.
      assert (Len : (String.length (Str.lstrip (fst nv))
                     <= String.length (fst nv))%nat).
      { clear. induction (fst nv) as [|c r IH]; cbn; [lia | ].
        destruct (Str.isspace c); cbn; lia. }
      rewrite Lp in Len. cbn in Len. lia.
    + rewrite <- (map_map fst (String " ")).
      clear - Dps. induction Dps as [|a l Na Dl IH]; cbn; constructor;
        [ | exact IH].
      intros I. apply in_map_iff in I. destruct I as (b & E & Ib).
      injection E as ->. contradiction.
Qed.

End CookieProperties.

(** ** More about [trades] *)

Section TradesRequests.

Variable requests_post : history -> request -> string + string.
Variable json_loads : string -> option reply.
Variable timestamp : datetime -> exn + Z.
Variable self : BinanceConnection.
Variable kw : kwargs.

Local Abbreviation get_trades :=
  (_get_trades requests_post json_loads timestamp self).
Local Abbreviation fetch_all :=
  (fetch_each requests_post json_loads timestamp self kw).
Local Abbreviation run_trades :=
  (trades requests_post json_loads timestamp self).
Local Abbreviation requests_for := (window_requests timestamp self kw).

Lemma events_snd {A : Type} (m : M A) (h evs : history) :
  snd (m h) = h ++ evs -> events m h = evs.
Proof.
  intros E. unfold events. rewrite E. clear E.
  induction h as [|a h IH]; [reflexivity | exact IH].
Qed.

Lemma bind_finish_snd {A B : Type} (m : M A) (x : loop_end)
  (f : A -> B) (h : history) :
  snd (bind m (fun a => finish_with x (f a)) h) = snd (m h).
Proof.
  unfold bind. destruct (m h) as [[a | e | ] h1]; try reflexivity.
  destruct x; reflexivity.
Qed.

(** One call of [_get_trades]: the request goes out before the call is
    over, and only when both timestamps exist. *)
Lemma get_trades_posts (s e : datetime) (h : history) :
  exists pre out,
    get_trades s e kw h = (out, h ++ pre ++ [GetTrades s e out]) /\
    windows_of pre = [] /\ requests_of pre = requests_for (s, e).
Proof.
  unfold _get_trades, logged, bind, lift, int_timestamp, window_requests.
  cbn [fst snd].
  destruct (timestamp s) as [ex | ts];
    [exists [], (Raise ex); repeat split | ].
  destruct (timestamp e) as [ex | te];
    [exists [], (Raise ex); repeat split | ].
  unfold post, logged. cbn beta iota.
  match goal with
  | |- context [requests_post h ?r] =>
    set (req := r); destruct (requests_post h req) as [detail | text]
  end.
  - exists [Post req (Raise (RequestException detail))],
      (Raise (RequestException detail)).
    rewrite <- app_assoc. repeat split.
  - unfold loads. destruct (json_loads text) as [[p d]|].
    + cbn [pages data getitem].
      destruct p as [p|]; cbn;
        [destruct d as [d|]; cbn | ];
        eexists [Post req (Ok text)], _; rewrite <- app_assoc;
        repeat split.
    + exists [Post req (Ok text)], (Raise (JSONDecodeError text)).
      rewrite <- app_assoc. repeat split.
Qed.

Lemma fetch_each_requests (ws : list (datetime * datetime)) :
  forall (acc : list record) (h : history),
  exists evs,
    snd (fetch_all ws acc h) = h ++ evs /\
    requests_of evs = flat_map requests_for (windows_of evs).
Proof.
  induction ws as [|[s e] ws IH]; intros acc h.
  - exists []. cbn. now rewrite app_nil_r.
  - destruct (get_trades_posts s e h) as (pre & out1 & E1 & W1 & R1).
    cbn [fetch_each]. unfold bind at 1. rewrite E1.
    assert (Q : requests_of (pre ++ [GetTrades s e out1])
                = flat_map requests_for
                    (windows_of (pre ++ [GetTrades s e out1]))).
    { rewrite requests_of_app, windows_of_app, W1, R1. cbn.
      now rewrite !app_nil_r. }
    destruct out1 as [r | ex | ].
    + destruct (IH (acc ++ snd r) (h ++ pre ++ [GetTrades s e (Ok r)]))
        as (evs & E & R).
      exists ((pre ++ [GetTrades s e (Ok r)]) ++ evs).
      split; [rewrite E; now rewrite <- !app_assoc | ].
      rewrite requests_of_app, windows_of_app, flat_map_app, Q, R.
      reflexivity.
    + exists (pre ++ [GetTrades s e (Raise ex)]). split; [reflexivity | exact Q].
    + exists (pre ++ [GetTrades s e Timeout]). split; [reflexivity | exact Q].
Qed.

(** X6: in every run, [trades] sends its requests one per fetch call, in
    the order of the windows: for each window whose two bounds have a
    timestamp, one POST to the trade history address with the bounds in
    milliseconds, 1000 rows, the filters of the keyword arguments and the
    headers and cookies of the connection; for a window without, none.
    No request asks for a further page, whatever number of pages the
    replies report. *)
Theorem trades_requests (start end_ : datetime) (h : history) :
  requests_of (events (run_trades start end_ kw) h)
  = flat_map requests_for
      (windows_of (events (run_trades start end_ kw) h)).
Proof.
  destruct (fetch_each_requests (fst (trades_plan start end_)) [] h)
    as (evs & E & R).
  assert (S : snd (run_trades start end_ kw h) = h ++ evs).
  { rewrite trades_as_plan.
    rewrite (bind_finish_snd _ (snd (trades_plan start end_))
               (fun a => a) h).
    exact E. }
  now rewrite (events_snd _ h evs S).
Qed.

(** X8: a run of [trades] issues at most one fetch call more than there
    are whole periods of 28 days between the calendar days of [start] and
    [end_], hence a single one when the day of [end_] is less than 28 days
    after the day of [start]. *)
Theorem trades_call_bound (start end_ : datetime) (h : history) :
  valid_datetime start = true ->
  valid_datetime end_ = true ->
  Z.of_nat (List.length (windows_of (events (run_trades start end_ kw) h)))
  <= 1 + Z.max 0 ((toordinal end_ - toordinal start) / 28).
Proof.
  intros V Ve.
  destruct (trades_run requests_post json_loads timestamp self kw
              start end_ h) as (out & evs & Rn & Ev & O).
  rewrite Ev.
  pose proof (trades_plan_shape end_ Ve start V) as Sh.
  pose proof (midnight_valid start V) as Vm.
  destruct O as [[rest P] _].
  assert (Len : (List.length (windows_of evs)
                 <= List.length (fst (trades_plan start end_)))%nat)
    by (rewrite P, length_app; lia).
  assert (B : forall n : nat,
             ((1 <= n)%nat ->
              datetime_us (midnight start) + Z.of_nat n * us_28_days
              < datetime_us end_) ->
             Z.of_nat n <= Z.max 0 ((toordinal end_ - toordinal start) / 28)).
  { intros n L. destruct n as [|n]; [lia | ].
    pose proof (loop_fuel_enough end_ Ve (midnight start) (S n) Vm eq_refl
                  (L ltac:(lia))) as Fu.
    unfold loop_fuel in Fu. rewrite midnight_toordinal in Fu. lia. }
  inversion Sh as [R' E | n R' L' U' E | n Q R' O' L' E];
    rewrite <- E in Len; cbn [fst] in Len.
  - cbn in Len. lia.
  - rewrite length_app, full_windows_length in Len. cbn in Len.
    specialize (B n L'). lia.
  - rewrite full_windows_length in Len.
    specialize (B n (fun _ => L')). lia.
Qed.

End TradesRequests.

Section Partition.

Variable end_ t : datetime.
Hypothesis end_valid : valid_datetime end_ = true.
Hypothesis t_valid : valid_datetime t = true.

Lemma inside_spec (s e : datetime) :
  valid_datetime s = true -> valid_datetime e = true ->
  inside t (s, e)
  = (datetime_us s <=? datetime_us t) && (datetime_us t <? datetime_us e).
Proof.
  intros Vs Ve. unfold inside. cbn [fst snd].
  now rewrite datetime_le_spec, datetime_lt_spec by assumption.
Qed.

Lemma last_window_eq (s : datetime) (n : nat) :
  valid_datetime s = true ->
  toordinal s + 28 * Z.of_nat (S n) <= _MAXORDINAL ->
  plus_days s (28 * Z.of_nat (S n))
  = plus_days (plus_days s 28) (28 * Z.of_nat n).
Proof.
  intros V R. pose proof (toordinal_bounds s V) as B.
  rewrite plus_days_plus by (assumption || lia). f_equal. lia.
Qed.

(** No window of a sequence that starts after [t] holds [t]. *)
Lemma full_windows_after (n : nat) :
  forall s : datetime,
    valid_datetime s = true ->
    toordinal s + 28 * Z.of_nat n <= _MAXORDINAL ->
    datetime_us t < datetime_us s ->
    filter (inside t)
      (full_windows n s ++ [(plus_days s (28 * Z.of_nat n), end_)])
    = [].
Proof.
  induction n as [|n IH]; intros s V R L.
  - cbn [full_windows app Z.of_nat Z.mul]. rewrite (plus_days_0 s V).
    cbn [filter]. rewrite (inside_spec s end_ V end_valid).
    destruct (Z.leb_spec (datetime_us s) (datetime_us t)); [lia | reflexivity].
  - pose proof (toordinal_bounds s V) as B.
    assert (R1 : 1 <= toordinal s + 28 <= _MAXORDINAL) by lia.
    pose proof (plus_days_valid s 28 V R1) as Ve.
    pose proof (plus_days_toordinal s 28 V R1) as Oe.
    pose proof (plus_days_us s 28 V R1) as Ue.
    rewrite (last_window_eq s n V R).
    cbn [full_windows app filter].
    rewrite (inside_spec s _ V Ve).
    destruct (Z.leb_spec (datetime_us s) (datetime_us t)); [lia | ].
    cbn [andb]. apply IH; [assumption | lia | ].
    unfold us_per_day in *. lia.
Qed.

(** An instant from the first window start on and before [end_] lies in
    exactly one window. *)
Lemma full_windows_partition (n : nat) :
  forall s : datetime,
    valid_datetime s = true ->
    toordinal s + 28 * Z.of_nat n <= _MAXORDINAL ->
    datetime_us s <= datetime_us t < datetime_us end_ ->
    List.length
      (filter (inside t)
         (full_windows n s ++ [(plus_days s (28 * Z.of_nat n), end_)]))
    = 1%nat.
Proof.
  induction n as [|n IH]; intros s V R L.
  - cbn [full_windows app Z.of_nat Z.mul]. rewrite (plus_days_0 s V).
    cbn [filter]. rewrite (inside_spec s end_ V end_valid).
    destruct (Z.leb_spec (datetime_us s) (datetime_us t)); [ | lia].
    destruct (Z.ltb_spec (datetime_us t) (datetime_us end_)); [ | lia].
    reflexivity.
  - pose proof (toordinal_bounds s V) as B.
    assert (R1 : 1 <= toordinal s + 28 <= _MAXORDINAL) by lia.
    pose proof (plus_days_valid s 28 V R1) as Ve.
    pose proof (plus_days_toordinal s 28 V R1) as Oe.
    rewrite (last_window_eq s n V R).
    cbn [full_windows app filter].
    rewrite (inside_spec s _ V Ve).
    destruct (Z.leb_spec (datetime_us s) (datetime_us t)); [ | lia].
    cbn [andb].
    destruct (Z.ltb_spec (datetime_us t) (datetime_us (plus_days s 28)))
      as [C | C].
    + cbn [List.length]. f_equal.
      rewrite full_windows_after; [reflexivity | assumption | lia | assumption].
    + apply IH; [assumption | lia | lia].
Qed.

End Partition.

Section PartitionOfRun.

Variable requests_post : history -> request -> string + string.
Variable json_loads : string -> option reply.
Variable timestamp : datetime -> exn + Z.
Variable self : BinanceConnection.
Variable kw : kwargs.

(** X9: the windows of a call of [trades] that returns split the time
    from the beginning of the day of [start] up to [end_] without gap and
    without overlap: every instant from that beginning on and before
    [end_] lies in exactly one window (a window holds its start and not
    its end). *)
Theorem trades_windows_partition (start end_ t : datetime) (h : history) :
  valid_datetime start = true ->
  valid_datetime end_ = true ->
  valid_datetime t = true ->
  datetime_le (midnight start) t = true ->
  datetime_lt t end_ = true ->
  is_ok (fst (trades requests_post json_loads timestamp self start end_ kw h))
  = true ->
  List.length
    (filter (inside t)
       (windows_of
          (events
             (trades requests_post json_loads timestamp self start end_ kw)
             h)))
  = 1%nat.
Proof.
  intros V Ve Vt L1 L2 K.
  pose proof (midnight_valid start V) as Vm.
  rewrite datetime_le_spec in L1 by assumption. apply Z.leb_le in L1.
  rewrite datetime_lt_spec in L2 by assumption. apply Z.ltb_lt in L2.
  destruct (trades_run requests_post json_loads timestamp self kw
              start end_ h) as (out & evs & Rn & Ev & O).
  rewrite Ev. rewrite Rn in K. cbn [fst] in K.
  pose proof (trades_plan_shape end_ Ve start V) as Sh.
  destruct O as [_ O].
  destruct out as [res | ex | ]; [ | discriminate ..].
  destruct O as (W & _). rewrite W.
  inversion Sh as [R' E | n R' L' U' E | n Q R' O' L' E];
    rewrite <- E in K; cbn in K; try discriminate.
  cbn [fst].
  apply full_windows_partition; try assumption.
  - rewrite midnight_toordinal. lia.
  - lia.
Qed.

End PartitionOfRun.

(** ** The script: arguments, dispatch and output *)

Section ScriptFacts.

Variable requests_post : history -> request -> string + string.
Variable json_loads : string -> option reply.
Variable timestamp : datetime -> exn + Z.

Local Abbreviation run_fetch_trades :=
  (fetch_trades requests_post json_loads timestamp).


End ScriptFacts.

Section OutputFacts.

Lemma map_fst_combine (l : list string) : map fst (combine l l) = l.
Proof. induction l as [|x l IH]; cbn; congruence. Qed.

Lemma get_combine (l : list string) (key : string) :
  In key l -> Csv.get (combine l l) key "" = key.
Proof.
  unfold Csv.get. induction l as [|x l IH]; cbn; [contradiction | ].
  destruct (String.eqb_spec x key) as [-> | N]; [reflexivity | ].
  intros [E | I]; [congruence | auto].
Qed.

Variable set_order : list string -> list string.

(** The header row holds the field names themselves. *)
Lemma header_cells (fieldnames : list string) :
  Csv._dict_to_list set_order fieldnames (combine fieldnames fieldnames)
  = Ok fieldnames.
Proof.
  unfold Csv._dict_to_list, Csv.wrong_fields.
  rewrite map_fst_combine.
  assert (W : forall l,
             incl l fieldnames ->
             filter (fun k => negb (existsb (String.eqb k) fieldnames)) l
             = []).
  { induction l as [|k l IH]; intros I; [reflexivity | ]. cbn.
    assert (T : existsb (String.eqb k) fieldnames = true)
      by (apply existsb_exists; exists k; split;
          [apply I; now left | apply String.eqb_refl]).
    rewrite T. cbn. apply IH. intros x Hx. apply I. now right. }
  rewrite (W fieldnames (incl_refl _)). f_equal.
  rewrite (map_ext_in _ (fun key => key)); [apply map_id | ].
  intros key I. now apply get_combine.
Qed.

Lemma append_assoc (a b c : string) :
  ((a ++ b) ++ c = a ++ (b ++ c))%string.
Proof. induction a as [|x a IH]; cbn; congruence. Qed.

Lemma append_nil_r (a : string) : (a ++ "" = a)%string.
Proof. induction a as [|x a IH]; cbn; congruence. Qed.

(** [writerows] writes the rows of the records before the first one with
    a key outside the field names, and raises at that one. *)
Lemma writerows_spec (fieldnames : list string) (rowdicts : list record) :
  forall file,
    Csv.writerows set_order fieldnames rowdicts file
    = (match Csv.first_wrong fieldnames rowdicts with
       | [] => Ok tt
       | wrong => Raise (Csv.fields_error set_order wrong)
       end,
       (file ++ Csv.rows_text fieldnames
                  (Csv.writable fieldnames rowdicts))%string).
Proof.
  induction rowdicts as [|r rest IH]; intros file; cbn.
  - now rewrite append_nil_r.
  - unfold Csv.dict_writerow, Csv._dict_to_list.
    destruct (Csv.wrong_fields fieldnames r); cbn.
    + rewrite IH, append_assoc. reflexivity.
    + now rewrite append_nil_r.
Qed.

Lemma write_output_spec (first : record) (rest : list record) :
  let fieldnames := map fst first in
  write_output set_order (first :: rest)
  = mk_outcome
      (match Csv.first_wrong fieldnames (first :: rest) with
       | [] => Returned
       | wrong => Failed (Exn (Csv.fields_error set_order wrong))
       end)
      (Some (Csv.writerow fieldnames
             ++ Csv.rows_text fieldnames
                  (Csv.writable fieldnames (first :: rest)))%string).
Proof.
  intros fieldnames. unfold write_output. fold fieldnames.
  unfold Csv.writeheader, Csv.dict_writerow.
  rewrite header_cells, writerows_spec.
  destruct (Csv.first_wrong fieldnames (first :: rest)); reflexivity.
Qed.

End OutputFacts.

Section MainFacts.

Variable requests_post : history -> request -> string + string.
Variable json_loads : string -> option reply.
Variable timestamp : datetime -> exn + Z.

Variable set_order : list string -> list string.

Local Abbreviation dispatch := (MODES requests_post json_loads timestamp).
Local Abbreviation run_main :=
  (main requests_post json_loads timestamp set_order).

(** X11: when the dispatched fetch returns records, [main] writes the
    header row, made of the keys of the first record, and then one row
    per record in the order of the result, each with the cells in the
    order of the header and an empty cell where the record lacks a key;
    at the first record that has a key outside the header it raises the
    [ValueError] of [csv.DictWriter], whose message lists these keys, and
    the header and the rows before that record stay written. *)
Theorem main_output (cookie_lines : list string) (arguments : Namespace)
  (h h' : history) (cookies : string) (conn : BinanceConnection)
  (result : list record) :
  hd_error cookie_lines = Some cookies ->
  __init__ (arg_token arguments) cookies = Ok conn ->
  dispatch (arg_mode arguments) conn arguments h = (Ok result, h') ->
  result <> [] ->
  let fieldnames := map fst (hd [] result) in
  run_main cookie_lines arguments h
  = (mk_outcome
       (match Csv.first_wrong fieldnames result with
        | [] => Returned
        | wrong => Failed (Exn (Csv.fields_error set_order wrong))
        end)
       (Some (Csv.writerow fieldnames
              ++ Csv.rows_text fieldnames
                   (Csv.writable fieldnames result))%string),
     h').
Proof.
  intros L I D N fieldnames. subst fieldnames.
  destruct cookie_lines as [|c rest]; [discriminate | ].
  injection L as ->. unfold main. rewrite I, D.
  destruct result as [|first others]; [congruence | ].
  now rewrite write_output_spec.
Qed.

(** X12: [main] opens the output file only after the dispatched fetch has
    returned at least one record: when the cookie file is empty or
    malformed, when the fetch raises and when it returns no record, no
    file is written. *)
Theorem main_writes_only_records (cookie_lines : list string)
  (arguments : Namespace) (h : history) (text : string) :
  output_file (fst (run_main cookie_lines arguments h)) = Some text ->
  exists cookies conn first others,
    hd_error cookie_lines = Some cookies
    /\ __init__ (arg_token arguments) cookies = Ok conn
    /\ fst (dispatch (arg_mode arguments) conn arguments h)
       = Ok (first :: others).
Proof.
  unfold main. destruct cookie_lines as [|c rest]; [discriminate | ].
  destruct (__init__ (arg_token arguments) c) as [conn | e | ] eqn:I;
    [ | discriminate ..].
  destruct (dispatch (arg_mode arguments) conn arguments h)
    as [[result | e | ] h1] eqn:D; [ | discriminate ..].
  destruct result as [|first others]; [discriminate | ].
  intros _. exists c, conn, first, others.
  repeat split; [exact I | now rewrite D].
Qed.

(** X13: in deposit mode, with a cookie file whose first line holds
    well-formed cookies joined by [;] and ends in blanks such as the line
    end, [main] sends exactly one request: the first page of the deposits,
    with the token as [csrftoken] header and the cookies of the file, each
    value stripped. *)
Theorem main_deposit_request (pairs : list (string * string))
  (t : string) (more_lines : list string) (arguments : Namespace)
  (h : history) :
  pairs <> [] ->
  Forall (fun nv => cookie_safe (fst nv) /\ cookie_safe (snd nv)) pairs ->
  NoDup (map fst pairs) ->
  Str.blank t = true ->
  arg_mode arguments = Mode.DEPOSIT ->
  exists pout out,
    snd (run_main ((Str.join ";" (map cookie_text pairs) ++ t)%string
                   :: more_lines) arguments h)
    = h ++ [Post (mk_request "https://www.binance.com/user/getMoneyLog.html"
                    (init_headers (arg_token arguments))
                    [("coin", PStr ""); ("direction", PInt 0);
                     ("rows", PInt 0); ("page", PInt 1);
                     ("status", PStr "")]
                    (stripped pairs)) pout;
            GetExchanges 0 out].
Proof.
  intros N F D B Md. unfold main.
  rewrite (init_blank_suffix _ _ t B), (init_pairs _ pairs N F D), Md.
  cbn [MODES]. unfold fetch_deposits, deposits.
  destruct (get_exchanges_run requests_post json_loads
              (mk_connection (init_headers (arg_token arguments))
                 (stripped pairs))
              None (Exchange.value Exchange.DEPOSIT) h)
    as (pout & out & E).
  exists pout, out. unfold bind. rewrite E.
  destruct out as [r | e | ]; reflexivity.
Qed.

End MainFacts.

Section Forward.

Variable requests_post : history -> request -> string + string.
Variable json_loads : string -> option reply.
Variable timestamp : datetime -> exn + Z.
Variable self : BinanceConnection.
Variable kw : kwargs.

Lemma full_windows_forward (n : nat) :
  forall s : datetime,
    valid_datetime s = true ->
    toordinal s + 28 * Z.of_nat n <= _MAXORDINAL ->
    Forall (fun w => datetime_le (fst w) (snd w) = true) (full_windows n s).
Proof.
  induction n as [|n IH]; intros s V R; cbn [full_windows]; constructor.
  - pose proof (toordinal_bounds s V) as B.
    assert (R1 : 1 <= toordinal s + 28 <= _MAXORDINAL) by lia.
    cbn [fst snd].
    rewrite datetime_le_spec
      by (assumption || now apply plus_days_valid).
    rewrite (plus_days_us s 28 V R1). apply Z.leb_le.
    unfold us_per_day. lia.
  - pose proof (toordinal_bounds s V) as B.
    assert (R1 : 1 <= toordinal s + 28 <= _MAXORDINAL) by lia.
    apply IH; [now apply plus_days_valid | ].
    rewrite (plus_days_toordinal s 28 V R1). lia.
Qed.

(** X14: when [start] is not after [end_], no window [trades] asks for
    runs backwards: in every run, each window starts at or before its
    end. *)
Theorem trades_windows_forward (start end_ : datetime) (h : history) :
  valid_datetime start = true ->
  valid_datetime end_ = true ->
  datetime_le start end_ = true ->
  Forall (fun w => datetime_le (fst w) (snd w) = true)
    (windows_of
       (events (trades requests_post json_loads timestamp self start end_ kw)
          h)).
Proof.
  intros V Ve L.
  rewrite datetime_le_spec in L by assumption. apply Z.leb_le in L.
  pose proof (midnight_valid start V) as Vm.
  pose proof (midnight_le start V) as Ml.
  pose proof (toordinal_bounds start V) as B.
  destruct (trades_run requests_post json_loads timestamp self kw
              start end_ h) as (out & evs & Rn & Ev & O).
  rewrite Ev.
  pose proof (trades_plan_shape end_ Ve start V) as Sh.
  destruct O as [[rest P] _].
  assert (F : Forall (fun w => datetime_le (fst w) (snd w) = true)
                (fst (trades_plan start end_))).
  { destruct Sh as [R' | n R' L' U' | n Q R' O' L']; cbn [fst].
    - constructor.
    - apply Forall_app. split.
      + apply full_windows_forward;
          [assumption | rewrite midnight_toordinal; lia].
      + constructor; [ | constructor]. cbn [fst snd].
        assert (R1 : 1 <= toordinal (midnight start) + 28 * Z.of_nat n
                     <= _MAXORDINAL)
          by (rewrite midnight_toordinal; lia).
        rewrite datetime_le_spec
          by (assumption || now apply plus_days_valid).
        rewrite (plus_days_us _ _ Vm R1). apply Z.leb_le.
        destruct n as [|n]; [lia | ].
        specialize (L' ltac:(lia)).
        unfold us_28_days, us_per_day in *. lia.
    - apply full_windows_forward;
        [assumption | rewrite midnight_toordinal; lia]. }
  rewrite P in F. apply Forall_app in F. tauto.
Qed.

End Forward.

Section ExchangeReplies.

Variable requests_post : history -> request -> string + string.
Variable json_loads : string -> option reply.
Variable connection : BinanceConnection.

(** X15: [deposits] and [withdrawals] look up [pages] before [data] in
    the reply and use only the latter: a reply without [pages] makes them
    raise [KeyError] for [pages] whatever data it holds, one with [pages]
    and without [data] raises [KeyError] for [data], and one with both
    gives back the data list as it is, all rows of the first page. *)
Theorem exchanges_reply (symbol : option string) (h : history)
  (text : string) (r : reply) :
  (forall req, requests_post h req = inr text) ->
  json_loads text = Some r ->
  let outcome :=
    match pages r, data r with
    | None, _ => Raise (KeyError "pages")
    | Some _, None => Raise (KeyError "data")
    | Some _, Some d => Ok d
    end in
  fst (deposits requests_post json_loads connection symbol h) = outcome
  /\ fst (withdrawals requests_post json_loads connection symbol h) = outcome.
Proof.
  intros P J outcome. subst outcome.
  unfold deposits, withdrawals, _get_exchanges, bind, logged, lift, post,
    logged.
  rewrite !P. unfold loads. rewrite J. cbn [fst snd].
  destruct r as [[p|] [d|]]; split; reflexivity.
Qed.

End ExchangeReplies.

(** * The further properties on examples *)

Ltac safe_cookies :=
  repeat (constructor; [by_evaluation | ]); constructor.

Ltac distinct_names :=
  repeat (constructor; [cbn; intuition discriminate | ]); constructor.

(** The theorem of X2 on two cookies, one value with blanks around it. *)
Lemma init_round_trip_witness :
  (example_cookies <> []
   /\ Forall (fun nv => cookie_safe (fst nv) /\ cookie_safe (snd nv))
        example_cookies
   /\ NoDup (map fst example_cookies))
  /\ __init__ "t" (Str.join ";" (map cookie_text example_cookies))
     = Ok (mk_connection (init_headers "t") (stripped example_cookies)).
Proof.
  split.
  - split; [discriminate | split; [safe_cookies | distinct_names]].
  - apply (init_round_trip "t" example_cookies);
      [discriminate | safe_cookies | distinct_names].
Defined.

(** The theorem of X3 on a cookie string that gives [sid] twice. *)
Lemma init_last_cookie_wins_witness :
  let pairs := [("sid", "old"); ("lang", "en"); ("sid", "new")] in
  (pairs <> []
   /\ Forall (fun nv => cookie_safe (fst nv) /\ cookie_safe (snd nv)) pairs)
  /\ exists conn,
       __init__ "t" (Str.join ";" (map cookie_text pairs)) = Ok conn
       /\ forall name,
            lookup (_cookies conn) name = lookup (stripped (rev pairs)) name.
Proof.
  split.
  - split; [discriminate | safe_cookies].
  - apply (init_last_cookie_wins "t"
             [("sid", "old"); ("lang", "en"); ("sid", "new")]);
      [discriminate | safe_cookies].
Defined.

(** The theorem of X4 on a line that ends in a line feed. *)
Lemma init_trailing_blanks_witness :
  let t := String Csv.LF "" in
  Str.blank t = true
  /\ __init__ "t" ("sid=7f;lang=en" ++ t)
     = __init__ "t" "sid=7f;lang=en".
Proof.
  split; [reflexivity | ].
  apply (init_trailing_blanks "t" "sid=7f;lang=en" (String Csv.LF ""));
    reflexivity.
Defined.

(** The theorem of X5 on two cookies: the second name is stored as
    [" lang"]. *)
Lemma init_browser_format_witness :
  (example_cookies <> []
   /\ Forall (fun nv => cookie_safe (fst nv) /\ cookie_safe (snd nv))
        example_cookies
   /\ NoDup (map fst example_cookies)
   /\ Forall (fun nv => Str.lstrip (fst nv) = fst nv) example_cookies)
  /\ __init__ "t" (Str.join "; " (map cookie_text example_cookies))
     = Ok (mk_connection (init_headers "t")
             (stripped (spaced example_cookies))).
Proof.
  split.
  - split; [discriminate | ].
    split; [safe_cookies | ].
    split; [distinct_names | repeat constructor].
  - apply (init_browser_format "t" example_cookies);
      [discriminate | safe_cookies | distinct_names | repeat constructor].
Defined.

(** The theorem of X8 on the example of the specification: 64 days, two
    whole periods, three fetch calls. *)
Lemma trades_call_bound_witness :
  let start := mk_datetime 2018 1 5 0 30 0 0 in
  let end_ := mk_datetime 2018 3 10 0 0 0 0 in
  let run :=
    trades answering_post answering_loads utc_timestamp example_connection
      start end_ no_kwargs in
  (valid_datetime start = true /\ valid_datetime end_ = true)
  /\ Z.of_nat (List.length (windows_of (events run [])))
     <= 1 + Z.max 0 ((toordinal end_ - toordinal start) / 28).
Proof.
  split; [by_evaluation | ].
  apply (trades_call_bound answering_post answering_loads
           utc_timestamp example_connection no_kwargs
           (mk_datetime 2018 1 5 0 30 0 0) (mk_datetime 2018 3 10 0 0 0 0)
           []);
    by_evaluation.
Defined.

(** The theorem of X9 on the example of the specification, at the instant
    where the first window ends and the second starts. *)
Lemma trades_windows_partition_witness :
  let start := mk_datetime 2018 1 5 0 30 0 0 in
  let end_ := mk_datetime 2018 3 10 0 0 0 0 in
  let t := mk_datetime 2018 2 2 0 0 0 0 in
  let run :=
    trades answering_post answering_loads utc_timestamp example_connection
      start end_ no_kwargs in
  (valid_datetime start = true /\ valid_datetime end_ = true
   /\ valid_datetime t = true
   /\ datetime_le (midnight start) t = true
   /\ datetime_lt t end_ = true
   /\ is_ok (fst (run [])) = true)
  /\ List.length (filter (inside t) (windows_of (events run []))) = 1%nat.
Proof.
  split; [by_evaluation | ].
  apply (trades_windows_partition answering_post answering_loads
           utc_timestamp example_connection no_kwargs
           (mk_datetime 2018 1 5 0 30 0 0) (mk_datetime 2018 3 10 0 0 0 0)
           (mk_datetime 2018 2 2 0 0 0 0) []);
    by_evaluation.
Defined.


(** The theorem of X11 on a deposit run whose site answers three records,
    the second with a key the first one lacks: the header and the first
    row are written, then [ValueError] names the key. *)
Lemma main_output_witness :
  let cookie_lines := ["sid=7f" ++ String Csv.LF ""]%string in
  let conn := mk_connection (init_headers "t") [("sid", "7f")] in
  let h' :=
    snd (MODES answering_post uneven_loads utc_timestamp Mode.DEPOSIT
           conn deposit_arguments []) in
  let result :=
    [[("id", "1")]; [("id", "2"); ("fee", "0.1")]; [("id", "3")]] in
  (hd_error cookie_lines = Some ("sid=7f" ++ String Csv.LF "")%string
   /\ __init__ (arg_token deposit_arguments)
        ("sid=7f" ++ String Csv.LF "") = Ok conn
   /\ MODES answering_post uneven_loads utc_timestamp
        (arg_mode deposit_arguments) conn deposit_arguments []
      = (Ok result, h')
   /\ result <> [])
  /\ main answering_post uneven_loads utc_timestamp insertion_order
       cookie_lines deposit_arguments []
     = (mk_outcome
          (Failed
             (Exn (ValueError
                     "dict contains fields not in fieldnames: 'fee'")))
          (Some ("id" ++ Csv.lineterminator
                 ++ "1" ++ Csv.lineterminator)%string),
        h').
Proof.
  split.
  - split; [reflexivity | ].
    split; [reflexivity | ].
    split; [reflexivity | discriminate].
  - apply (main_output answering_post uneven_loads utc_timestamp
             insertion_order
             ["sid=7f" ++ String Csv.LF ""]%string deposit_arguments []
             (snd (MODES answering_post uneven_loads utc_timestamp
                     Mode.DEPOSIT
                     (mk_connection (init_headers "t") [("sid", "7f")])
                     deposit_arguments []))
             ("sid=7f" ++ String Csv.LF "")%string
             (mk_connection (init_headers "t") [("sid", "7f")])
             [[("id", "1")]; [("id", "2"); ("fee", "0.1")]; [("id", "3")]]);
      [reflexivity | reflexivity | reflexivity | discriminate].
Defined.

(** The theorem of X12 on the same deposit run. *)
Lemma main_writes_only_records_witness :
  let cookie_lines := ["sid=7f" ++ String Csv.LF ""]%string in
  let text :=
    ("id" ++ Csv.lineterminator ++ "1" ++ Csv.lineterminator)%string in
  output_file
    (fst (main answering_post answering_loads utc_timestamp insertion_order
            cookie_lines deposit_arguments []))
  = Some text
  /\ exists cookies conn first others,
       hd_error cookie_lines = Some cookies
       /\ __init__ (arg_token deposit_arguments) cookies = Ok conn
       /\ fst (MODES answering_post answering_loads utc_timestamp
                 (arg_mode deposit_arguments) conn deposit_arguments [])
          = Ok (first :: others).
Proof.
  split; [reflexivity | ].
  apply (main_writes_only_records answering_post answering_loads
           utc_timestamp insertion_order
           ["sid=7f" ++ String Csv.LF ""]%string
           deposit_arguments []
           ("id" ++ Csv.lineterminator ++ "1" ++ Csv.lineterminator)%string).
  reflexivity.
Defined.

(** The theorem of X13 on a cookie file of one line that ends in a line
    feed. *)
Lemma main_deposit_request_witness :
  let t := String Csv.LF "" in
  (example_cookies <> []
   /\ Forall (fun nv => cookie_safe (fst nv) /\ cookie_safe (snd nv))
        example_cookies
   /\ NoDup (map fst example_cookies)
   /\ Str.blank t = true
   /\ arg_mode deposit_arguments = Mode.DEPOSIT)
  /\ exists pout out,
       snd (main answering_post answering_loads utc_timestamp
              insertion_order
              [(Str.join ";" (map cookie_text example_cookies) ++ t)%string]
              deposit_arguments [])
       = [Post (mk_request "https://www.binance.com/user/getMoneyLog.html"
                  (init_headers (arg_token deposit_arguments))
                  [("coin", PStr ""); ("direction", PInt 0);
                   ("rows", PInt 0); ("page", PInt 1);
                   ("status", PStr "")]
                  (stripped example_cookies)) pout;
          GetExchanges 0 out].
Proof.
  split.
  - split; [discriminate | ].
    split; [safe_cookies | ].
    split; [distinct_names | ].
    split; reflexivity.
  - apply (main_deposit_request answering_post answering_loads
             utc_timestamp insertion_order example_cookies
             (String Csv.LF "") []
             deposit_arguments []);
      [discriminate | safe_cookies | distinct_names | reflexivity
      | reflexivity].
Defined.

(** The theorem of X14 on the example of the specification. *)
Lemma trades_windows_forward_witness :
  let start := mk_datetime 2018 1 5 0 30 0 0 in
  let end_ := mk_datetime 2018 3 10 0 0 0 0 in
  let run :=
    trades answering_post answering_loads utc_timestamp example_connection
      start end_ no_kwargs in
  (valid_datetime start = true /\ valid_datetime end_ = true
   /\ datetime_le start end_ = true)
  /\ Forall (fun w => datetime_le (fst w) (snd w) = true)
       (windows_of (events run [])).
Proof.
  split; [by_evaluation | ].
  apply (trades_windows_forward answering_post answering_loads
           utc_timestamp example_connection no_kwargs
           (mk_datetime 2018 1 5 0 30 0 0) (mk_datetime 2018 3 10 0 0 0 0)
           []);
    by_evaluation.
Defined.

(** The theorem of X15 on a reply that holds data and no page count. *)
Lemma exchanges_reply_witness :
  let loads : string -> option reply :=
    fun _ => Some (mk_reply None (Some [example_record])) in
  ((forall req, answering_post [] req = inr "{}")
   /\ loads "{}" = Some (mk_reply None (Some [example_record])))
  /\ fst (deposits answering_post loads example_connection None [])
     = Raise (KeyError "pages")
  /\ fst (withdrawals answering_post loads example_connection None [])
     = Raise (KeyError "pages").
Proof.
  split; [split; [intros req | ]; reflexivity | ].
  apply (exchanges_reply answering_post
           (fun _ => Some (mk_reply None (Some [example_record])))
           example_connection None [] "{}"
           (mk_reply None (Some [example_record])));
    [intros req | ]; reflexivity.
Defined.
